(** * Model Inversion Attack Box: the attack pipeline, the batch runner and
      the compose loss, embedded from the Python sources

    Sources embedded here:
    - [utils/io.py]      : [print_split_line], [walk_imgs]
    - [utils/batch.py]   : [_gather], [batch_apply]
    - [attack/losses.py] : [ComposeImageLoss],
                           [ImageAugmentClassificationLoss]
    - [attack/base.py]   : [ImageClassifierAttackConfig],
                           [ImageClassifierAttacker]
    - [attack/PLGMI_high/gan_trainer.py] : [_max_margin_loss]

    Python integers are unbounded, so they are [Z].  Exceptions are values
    of [exn]; a computation is a pair of the events it emitted (lines
    printed, warnings, calls of injected collaborators) and either the
    value returned or the exception raised. *)

From Stdlib Require Import ZArith String Ascii Bool Lia QArith DecimalString List.
Import ListNotations.

Set Implicit Arguments.
Set Warnings "-register-all".

Open Scope string_scope.
Open Scope list_scope.
Open Scope Z_scope.

(* ================================================================== *)
(** ** Python runtime: exceptions, observable events, the effect monad *)
(* ================================================================== *)

Module Py.

(** The exception classes the embedded code can raise. *)
Inductive exn : Type :=
| RuntimeError (msg : string)
| TypeError (msg : string)
| ValueError (msg : string)
| IndexError (msg : string)
| KeyError (key : string)
| AttributeError (msg : string)
| AssertionError.

(** What a run leaves behind, in order. *)
Inductive event : Type :=
| Printed (text ending : string)      (* print(text, end=ending) *)
| Warned (msg : string)               (* warnings.warn(msg) *)
| Invoked (start stop : Z)            (* fn called on the slices [start:stop] *)
| Sampled (n : Z).                    (* config.sample_latents_fn(n) *)

Inductive result (A : Type) : Type :=
| Ok (a : A)
| Raise (e : exn).
Arguments Raise {A} e.

Definition M (A : Type) : Type := (list event * result A)%type.

Definition ret {A} (a : A) : M A := ([], Ok a).
Definition raise {A} (e : exn) : M A := ([], Raise e).
Definition emit (ev : event) : M unit := ([ev], Ok tt).
Definition warn (msg : string) : M unit := emit (Warned msg).

Definition bind {A B} (m : M A) (k : A -> M B) : M B :=
  match m with
  | (l, Raise e) => (l, Raise e)
  | (l, Ok a) => let (l', r) := k a in (l ++ l', r)
  end.

Definition lift {A} (r : result A) : M A := ([], r).

Definition events {A} (m : M A) : list event := fst m.
Definition outcome {A} (m : M A) : result A := snd m.

Definition returns {A} (m : M A) : bool :=
  match outcome m with Ok _ => true | Raise _ => false end.

(** [for x in xs: acc = body(acc, x)] *)
Fixpoint fold_m {A B} (body : B -> A -> M B) (xs : list A) (acc : B) : M B :=
  match xs with
  | [] => ret acc
  | x :: tl => bind (body acc x) (fun acc' => fold_m body tl acc')
  end.

(** [[f x for x in xs]], left to right, stopping at the first exception. *)
Fixpoint map_m {A B} (f : A -> M B) (xs : list A) : M (list B) :=
  match xs with
  | [] => ret []
  | x :: tl => bind (f x) (fun y => bind (map_m f tl) (fun ys => ret (y :: ys)))
  end.

(** [len(s)] of a string. *)
Definition len (s : string) : Z := Z.of_nat (String.length s).

(** [c * n] for a one-character string: empty when [n <= 0]. *)
Fixpoint repeat_char (c : ascii) (n : nat) : string :=
  match n with
  | O => EmptyString
  | S k => String c (repeat_char c k)
  end.

Definition str_mul (c : ascii) (n : Z) : string := repeat_char c (Z.to_nat n).

(** [str(n)] of an integer. *)
Definition str_of_int (n : Z) : string := NilZero.string_of_int (Z.to_int n).

(** [range(start, stop, step)] as CPython computes it: the number of
    items first, then [start + i * step]. *)
Definition range3 (start stop step : Z) : result (list Z) :=
  if step =? 0 then Raise (ValueError "range() arg 3 must not be zero")
  else
    let n := if 0 <? step
             then (if start <? stop then (stop - start - 1) / step + 1 else 0)
             else (if stop <? start then (start - stop - 1) / (- step) + 1 else 0) in
    Ok (List.map (fun i => start + Z.of_nat i * step) (seq 0 (Z.to_nat n))).

End Py.

Import Py.

Declare Scope py_scope.
Delimit Scope py_scope with py.
Notation "x <- m ;; k" := (bind m (fun x => k))
  (at level 61, m at next level, right associativity) : py_scope.
Notation "m ;;; k" := (bind m (fun _ => k))
  (at level 61, right associativity) : py_scope.
Open Scope py_scope.

(* ================================================================== *)
(** ** utils/io.py *)
(* ================================================================== *)

Module IO.

Definition newline : string := String (ascii_of_nat 10) EmptyString.

(** [print(text)] and [print(text, end=ending)]. *)
Definition print (text : string) : M unit := emit (Printed text newline).
Definition print_end (text ending : string) : M unit := emit (Printed text ending).

(** [print_split_line(content=None, length=60)].  The first [if] has no
    [return]: with [content is None] control reaches [len(content)]. *)
Definition print_split_line (content : option string) (length : Z) : M unit :=
  (match content with
   | None => print (str_mul "-" length)
   | Some _ => ret tt
   end) ;;;
  match content with
  | None => raise (TypeError "object of type 'NoneType' has no len()")
  | Some c =>
      let length := if length - 4 <? len c then len c + 4 else length in
      let total_num := length - len c - 2 in
      let left_num := total_num / 2 in
      let right_num := total_num - left_num in
      print_end (str_mul "-" left_num) " " ;;;
      print_end c " " ;;;
      print (str_mul "-" right_num)
  end.

Definition default_length : Z := 60.

End IO.

(* ================================================================== *)
(** ** utils/batch.py *)
(* ================================================================== *)

Module Batch.

(** Exceptions without events: [_gather] prints nothing and calls no
    collaborator. *)
Definition rbind {A B} (r : result A) (k : A -> result B) : result B :=
  match r with
  | Ok a => k a
  | Raise e => Raise e
  end.

Notation "x <~ r ;; k" := (rbind r (fun x => k))
  (at level 61, r at next level, right associativity) : py_scope.

Fixpoint rmap {A B} (f : A -> result B) (xs : list A) : result (list B) :=
  match xs with
  | [] => Ok []
  | x :: tl => y <~ f x ;; ys <~ rmap f tl ;; Ok (y :: ys)
  end.

(** The class of a sequence a chunk returned: [_gather] rebuilds the same
    class, through [_make] for a namedtuple. *)
Inductive seqkind : Type :=
| KTuple
| KList
| KNamed (cls : string).

Section Gather.

(** One row of a tensor, that is, one index along axis 0.  All rows
    have the trailing shape [torch.cat] asks for. *)
Variable R : Type.

(** What [fn] may return for a chunk, as far as it is modelled: a tensor
    of one dimension or more, given by its rows (a tensor without
    dimension, which [torch.cat] refuses, is not among them); [None]; a
    [dict] or [OrderedDict] with string keys, which [type(out)] rebuilds
    from pairs (a [defaultdict], which it does not, is not among them); a
    tuple, a list or a namedtuple; a number.  Strings are not modelled:
    for a string [gather_map] returns the [str] of a [map] object. *)
Inductive output : Type :=
| OTensor (rows : list R)
| ONone
| ODict (items : list (string * output))
| OSeq (kind : seqkind) (fields : list output)
| OAtom (a : Z).               (* a number: no [len], not iterable *)

(** An element handed to [torch.cat] must be a tensor.  The text stands
    for the message of [torch.cat], which also names the position of the
    element and its type; only the class of the exception is meant. *)
Definition as_rows (o : output) : result (list R) :=
  match o with
  | OTensor rows => Ok rows
  | _ => Raise (TypeError "expected Tensor as element of argument 'tensors'")
  end.

(** [len(d)] *)
Definition py_len (d : output) : result Z :=
  match d with
  | OTensor rows => Ok (Z.of_nat (length rows))
  | ODict items => Ok (Z.of_nat (length items))
  | OSeq _ fields => Ok (Z.of_nat (length fields))
  | ONone => Raise (TypeError "object of type 'NoneType' has no len()")
  | OAtom _ => Raise (TypeError "object of type 'float' has no len()")
  end.

Fixpoint lookup (k : string) (items : list (string * output)) : option output :=
  match items with
  | [] => None
  | (k', v) :: tl => if String.eqb k k' then Some v else lookup k tl
  end.

(** [d[k]] for a string key [k] *)
Definition getitem (k : string) (d : output) : result output :=
  match d with
  | ODict items =>
      match lookup k items with
      | Some v => Ok v
      | None => Raise (KeyError k)
      end
  | OTensor _ => Raise (IndexError "only integers and slices are valid indices")
  | OSeq _ _ => Raise (TypeError "indices must be integers or slices, not str")
  | ONone | OAtom _ => Raise (TypeError "object is not subscriptable")
  end.

(** The items [zip] draws from one of its arguments.  [None] and a
    number cannot be iterated.  A tensor or a dict met where the first
    chunk returned a sequence is iterated by Python (rows, keys), and
    [_gather] may then return; rows and keys are not outputs of this
    model, which reports such a mix as an exception: whatever the model
    gathers, Python gathers to the same value, and not the other way
    round.  The statements below that start from what the code returns
    are made for chunk outputs that are all sequences. *)
Definition py_iter (d : output) : result (list output) :=
  match d with
  | OSeq _ fields => Ok fields
  | _ => Raise (TypeError "zip argument is not a sequence of outputs")
  end.

(** [all(len(out) == len(d) for d in outputs)], the first comparison
    ([out] with itself) left out. *)
Fixpoint all_len (n : Z) (ds : list output) : result bool :=
  match ds with
  | [] => Ok true
  | d :: tl => m <~ py_len d ;; if n =? m then all_len n tl else Ok false
  end.

(** One step of [zip]: the next item of every column, or nothing once
    a column is exhausted. *)
Fixpoint heads (cols : list (list output)) : option (list output * list (list output)) :=
  match cols with
  | [] => Some ([], [])
  | [] :: _ => None
  | (h :: t) :: tl =>
      match heads tl with
      | Some (hs, ts) => Some (h :: hs, t :: ts)
      | None => None
      end
  end.

(** The body of [gather_map] on a dict: for each key of [out], in order,
    [gather_map([d[k] for d in outputs])].  [out[k]] is the value listed
    with [k], a Python dict holding each key once. *)
Definition items_loop (gather : output -> list output -> result output)
           (rest : list output)
  : list (string * output) -> result (list (string * output)) :=
  fix loop (its : list (string * output)) : result (list (string * output)) :=
    match its with
    | [] => Ok []
    | (k, v) :: tl =>
        vs <~ rmap (getitem k) rest ;;
        g <~ gather v vs ;;
        gs <~ loop tl ;;
        Ok ((k, g) :: gs)
    end.

(** The body of [gather_map] on a sequence: [gather_map] mapped over the
    [zip] of the outputs, which stops with the shortest sequence. *)
Definition fields_loop (gather : output -> list output -> result output)
  : list output -> list (list output) -> result (list output) :=
  fix loop (fs : list output) (cs : list (list output)) : result (list output) :=
    match fs with
    | [] => Ok []
    | f :: tl =>
        match heads cs with
        | None => Ok []
        | Some (hs, ts) =>
            g <~ gather f hs ;;
            gs <~ loop tl ts ;;
            Ok (g :: gs)
        end
    end.

(** [gather_map(outputs)] with [outputs = out :: rest]. *)
Fixpoint gather_map (out : output) (rest : list output) {struct out} : result output :=
  match out with
  | OTensor rows =>
      rs <~ rmap as_rows rest ;;
      Ok (OTensor (rows ++ concat rs))
  | ONone => Ok ONone
  | ODict items =>
      same <~ all_len (Z.of_nat (length items)) rest ;;
      if negb same
      then Raise (ValueError "All dicts must have the same number of keys")
      else
        gathered <~ items_loop gather_map rest items ;;
        Ok (ODict gathered)
  | OSeq kind fields =>
      cols <~ rmap py_iter rest ;;
      gathered <~ fields_loop gather_map fields cols ;;
      match kind with
      | KNamed _ =>
          if Nat.eqb (length gathered) (length fields)
          then Ok (OSeq kind gathered)
          else Raise (TypeError "_make: wrong number of fields")
      | _ => Ok (OSeq kind gathered)
      end
  | OAtom _ => Raise (TypeError "zip argument is not iterable")
  end.

(** [_gather(outputs, dim=0)] *)
Definition _gather (outputs : list output) : result output :=
  match outputs with
  | [] => Raise (IndexError "list index out of range")
  | out :: rest => gather_map out rest
  end.

(** The outputs [_gather] can rebuild: trees of tensors, [None],
    mappings and sequences. *)
Fixpoint structured (o : output) : bool :=
  match o with
  | OTensor _ | ONone => true
  | ODict items => forallb (fun kv => structured (snd kv)) items
  | OSeq _ fields => forallb structured fields
  | OAtom _ => false
  end.

End Gather.

Arguments ONone {R}.
Arguments OAtom {R} a.

Section Apply.

Variable A : Type.    (* an element of an input *)
Variable R : Type.    (* a row of an output tensor *)

(** A positional input: something with a length that can be sliced
    (tensor, list), or an object without [len]. *)
Inductive arg : Type :=
| Sized (xs : list A)
| Unsized.

Definition arg_len (inp : arg) : result Z :=
  match inp with
  | Sized xs => Ok (Z.of_nat (length xs))
  | Unsized => Raise (TypeError "object has no len()")
  end.

(** [xs[start:stop]] for [0 <= start], [0 <= stop], the only slices
    [batch_apply] takes. *)
Definition slice_list (xs : list A) (start stop : Z) : list A :=
  firstn (Z.to_nat (stop - start)) (skipn (Z.to_nat start) xs).

Definition slice (p : arg) (start stop : Z) : result (list A) :=
  match p with
  | Sized xs => Ok (slice_list xs start stop)
  | Unsized => Raise (TypeError "object is not subscriptable")
  end.

(** [fn]: a callable, or [None]. *)
Definition callable : Type := option (list (list A) -> M (output R)).

(** [fn] called on the slices [start:stop] of the inputs. *)
Definition call (fn : callable) (start stop : Z) (slices : list (list A))
  : M (output R) :=
  match fn with
  | Some f => emit (Invoked start stop) ;;; f slices
  | None => raise (TypeError "'NoneType' object is not callable")
  end.

(** The inner [_check_valid(inputs)]; the bare [except] turns whatever
    [len] raises into a [RuntimeError]. *)
Definition _check_valid (inputs : list arg) : result unit :=
  match inputs with
  | [] => Ok tt
  | _ =>
      lens <~ rmap (fun inp =>
                      match arg_len inp with
                      | Ok n => Ok n
                      | Raise _ => Raise (RuntimeError "some inputs have no attr `len`")
                      end) inputs ;;
      match lens with
      | [] => Raise (IndexError "list index out of range")
      | valid_len :: _ =>
          if forallb (fun x => x =? valid_len) lens
          then Ok tt
          else Raise (RuntimeError "lengths of all inputs are not the same")
      end
  end.

(** [enumerate(xs, start=i)] *)
Fixpoint enumerate (i : Z) (xs : list Z) : list (Z * Z) :=
  match xs with
  | [] => []
  | x :: tl => (i, x) :: enumerate (i + 1) tl
  end.

Definition progress_line (description : string) (i iter_times : Z) : string :=
  String.append description
    (String.append ": "
       (String.append (str_of_int i)
          (String.append " / " (str_of_int iter_times)))).

(** [batch_apply(fn, *inputs, batch_size, description=None)].
    [use_tqdm] only wraps [starts] in a progress bar and is left out. *)
Definition batch_apply (fn : callable) (inputs : list arg) (batch_size : Z)
           (description : option string) : M (output R) :=
  lift (_check_valid inputs) ;;;
  total_len <- lift (match inputs with
                     | [] => Raise (IndexError "tuple index out of range")
                     | first :: _ => arg_len first
                     end) ;;
  starts <- lift (range3 0 total_len batch_size) ;;
  let iter_times := Z.of_nat (length starts) in
  results <- map_m (fun '(i, start) =>
                      (match description with
                       | Some d =>
                           IO.print_split_line (Some (progress_line d i iter_times))
                                               IO.default_length
                       | None => ret tt
                       end) ;;;
                      let stop := Z.min total_len (start + batch_size) in
                      slices <- lift (rmap (fun p => slice p start stop) inputs) ;;
                      call fn start stop slices)
                   (enumerate 1 starts) ;;
  lift (_gather results).

End Apply.

Arguments Unsized {A}.

End Batch.

(* ================================================================== *)
(** ** attack/losses.py: ComposeImageLoss *)
(* ================================================================== *)

Module Losses.

Section Compose.

(** The scalars losses are made of, with the two operations [forward]
    uses.  Nothing is assumed of them: the sum is taken in the order
    the loop takes it. *)
Variable S : Type.
Variable zero one : S.
Variable add mul : S -> S -> S.

Variables Images Labels : Type.

(** [OrderedDict] with string keys: assigning to a key that is present
    keeps its place. *)
Definition odict : Type := list (string * S).

Fixpoint od_set (k : string) (v : S) (d : odict) : odict :=
  match d with
  | [] => [(k, v)]
  | (k', v') :: tl =>
      if String.eqb k k' then (k, v) :: tl else (k', v') :: od_set k v tl
  end.

Fixpoint od_get (k : string) (d : odict) : option S :=
  match d with
  | [] => None
  | (k', v') :: tl => if String.eqb k k' then Some v' else od_get k tl
  end.

(** [for k, v in single_dict.items(): return_dict[k] = v] *)
Definition od_update (d single_dict : odict) : odict :=
  fold_left (fun acc kv => od_set (fst kv) (snd kv) acc) single_dict d.

(** What a sub-loss returns: a bare tensor, or a pair of the loss and
    its diagnostic mapping. *)
Inductive loss_ret : Type :=
| BareTensor (loss : S)
| WithDict (loss : S) (single_dict : odict).

Definition lossfn : Type := Images -> Labels -> loss_ret.

Record ComposeImageLoss : Type := mkCompose {
  losses : list lossfn;
  weights : list S
}.

(** [ComposeImageLoss.__init__(losses, weights=None)] *)
Definition compose_init (losses : list lossfn) (weights : option (list S))
  : result ComposeImageLoss :=
  let weights := match weights with
                 | None => repeat one (length losses)
                 | Some ws => ws
                 end in
  if Nat.eqb (length losses) 0
  then Raise (RuntimeError "losses should be at least one function.")
  else if negb (Nat.eqb (length weights) (length losses))
  then Raise (RuntimeError
                (String.append
                   "Expect the equal length of losses and weights, but found the fronter "
                   (String.append
                      (str_of_int (Z.of_nat (length losses)))
                      (String.append
                         " and the latter "
                         (String.append (str_of_int (Z.of_nat (length weights))) ".")))))
  else Ok (mkCompose losses weights).

Definition compose_key : string := "compose loss".

(** One turn of the loop of [forward]. *)
Definition forward_step (images : Images) (labels : Labels)
           (st : S * odict) (lw : lossfn * S) : S * odict :=
  let (compose_loss, return_dict) := st in
  let (fn, weight) := lw in
  match fn images labels with
  | BareTensor loss => (add compose_loss (mul weight loss), return_dict)
  | WithDict loss single_dict =>
      (add compose_loss (mul weight loss), od_update return_dict single_dict)
  end.

(** [ComposeImageLoss.forward(images, labels)].  [compose_loss] starts
    as the float [0.0] and is a tensor once a sub-loss was added; only
    a tensor has [item()]. *)
Definition forward (self : ComposeImageLoss) (images : Images) (labels : Labels)
  : result (S * odict) :=
  let pairs := combine (losses self) (weights self) in
  let (compose_loss, return_dict) :=
    fold_left (forward_step images labels) pairs (zero, [(compose_key, zero)]) in
  match pairs with
  | [] => Raise (AttributeError "'float' object has no attribute 'item'")
  | _ => Ok (compose_loss, od_set compose_key compose_loss return_dict)
  end.

End Compose.

End Losses.

(* ================================================================== *)
(** ** attack/base.py *)
(* ================================================================== *)

Module Attack.

Import Batch.

Section Attacker.

Variables Latent Image Score Value : Type.

(** [a <= b] on scores, the order [torch.topk] ranks by. *)
Variable score_leb : Score -> Score -> bool.

(** [yaml.dump] on the metric report. *)
Variable yaml_dump : list (string * Value) -> string.

(** An element of a positional input of [batch_apply]. *)
Inductive cell : Type :=
| CLatent (z : Latent)
| CImage (x : Image)
| CLabel (y : Z).

(** The injected collaborators.  The sampler draws fresh latents at
    every call: its first argument numbers the calls. *)
Definition scorer : Type := callable cell Score.
Definition sampler : Type := nat -> Z -> list Latent.
Definition optimizer : Type := list Latent -> list Z -> M (list Image * list Z).
Definition metric : Type := list Image -> list Z -> M (list (string * Value)).

Record ImageClassifierAttackConfig : Type := mkConfig {
  sample_latents_fn : option sampler;
  initial_num : option Z;
  initial_latents_score_fn : scorer;
  initial_select_batch_size : option Z;
  optimize_num : option Z;
  optimize_batch_size : Z;
  optimize_fn : option optimizer;
  final_num : option Z;
  final_images_score_fn : scorer;
  final_select_batch_size : option Z;
  save_dir : option string;
  save_optimized_images : bool;
  save_final_images : bool;
  save_normalize : bool
}.

Record ImageClassifierAttacker : Type := mkAttacker {
  config : ImageClassifierAttackConfig;
  metrics : list metric;
  optimized_images : list (list Image);
  optimized_labels : list (list Z)
}.

(** [not save_dir]: [None] and the empty string are false. *)
Definition falsy (s : option string) : bool :=
  match s with
  | None => true
  | Some EmptyString => true
  | Some _ => false
  end.

Definition is_none {X} (o : option X) : bool :=
  match o with None => true | Some _ => false end.

(** [_preprocess_config(config)]: the record is updated in place and
    returned.  The last [if] assigns the field to itself. *)
Definition _preprocess_config (config : ImageClassifierAttackConfig)
  : M ImageClassifierAttackConfig :=
  if (save_optimized_images config || save_final_images config)
     && falsy (save_dir config)
  then raise (RuntimeError "`save_dir` is not set")
  else if is_none (sample_latents_fn config)
  then raise (RuntimeError "`sample_latents_fn` cannot be None")
  else if is_none (optimize_fn config)
  then raise (RuntimeError "`optimize_fn` cannot be None")
  else
    match final_num config with
    | None => raise (RuntimeError "`final_num` cannot be None")
    | Some final =>
        let initial := match initial_num config with
                       | None => final
                       | Some n => n
                       end in
        let optimize := match optimize_num config with
                        | None => final
                        | Some n => n
                        end in
        optimize <- (if optimize <? final
                     then warn "the final number is larger than the optimize number, automatically set the latter to the fronter" ;;;
                          ret final
                     else ret optimize) ;;
        initial <- (if initial <? optimize
                    then warn "the optimize number is larger than the initial number, automatically set the latter to the fronter" ;;;
                         ret optimize
                    else ret initial) ;;
        let initial_batch := match initial_select_batch_size config with
                             | None => optimize_batch_size config
                             | Some b => b
                             end in
        let final_batch := match final_select_batch_size config with
                           | None => final_select_batch_size config
                           | Some b => Some b
                           end in
        ret (mkConfig (sample_latents_fn config)
                      (Some initial)
                      (initial_latents_score_fn config)
                      (Some initial_batch)
                      (Some optimize)
                      (optimize_batch_size config)
                      (optimize_fn config)
                      (Some final)
                      (final_images_score_fn config)
                      final_batch
                      (save_dir config)
                      (save_optimized_images config)
                      (save_final_images config)
                      (save_normalize config))
    end.

(** [ImageClassifierAttacker.__init__(self, config, metrics)], the
    method itself. *)
Definition attacker_init (config : ImageClassifierAttackConfig) (metrics : list metric)
  : M ImageClassifierAttacker :=
  config <- _preprocess_config config ;;
  ret (mkAttacker config metrics [] []).

(** [ImageClassifierAttacker(config, metrics)].  The class statement is
    [class ImageClassifierAttacker(ABCMeta)]: the class is a metaclass,
    and calling it runs [ABCMeta.__new__(mcls, name, bases, namespace)] on
    the two arguments, one short of the three it needs, before [__init__]
    is reached. *)
Definition construct (config : ImageClassifierAttackConfig) (metrics : list metric)
  : M ImageClassifierAttacker :=
  (raise (TypeError "ABCMeta.__new__() missing 1 required positional argument: 'namespace'")
   : M unit) ;;;
  attacker_init config metrics.

(** [self.config.sample_latents_fn(n)], the [call]-th call. *)
Definition sample (self : ImageClassifierAttacker) (call : nat) (n : Z) : M (list Latent) :=
  match sample_latents_fn (config self) with
  | None => raise (TypeError "'NoneType' object is not callable")
  | Some f => emit (Sampled n) ;;; ret (f call n)
  end.

(** [range(labels)] with [labels] a list. *)
Definition range_of_list (labels : list Z) : result (list Z) :=
  Raise (TypeError "'list' object cannot be interpreted as an integer").

(** [xs[i]] *)
Definition list_get {X} (xs : list X) (i : Z) : result X :=
  let j := if i <? 0 then i + Z.of_nat (length xs) else i in
  if j <? 0 then Raise (IndexError "index out of range")
  else match nth_error xs (Z.to_nat j) with
       | Some x => Ok x
       | None => Raise (IndexError "index out of range")
       end.

(** [xs[idx]] with [idx] a tensor of indices. *)
Definition index_rows {X} (xs : list X) (idx : list Z) : result (list X) :=
  rmap (list_get xs) idx.

(** Ranking for [torch.topk]: indices by descending score, equal
    scores in index order. *)
Fixpoint insert_desc (x : Z * Score) (l : list (Z * Score)) : list (Z * Score) :=
  match l with
  | [] => [x]
  | y :: tl => if score_leb (snd y) (snd x) then x :: l else y :: insert_desc x tl
  end.

Fixpoint number_from {X} (i : Z) (xs : list X) : list (Z * X) :=
  match xs with
  | [] => []
  | x :: tl => (i, x) :: number_from (i + 1) tl
  end.

Definition argsort_desc (scores : list Score) : list Z :=
  List.map fst (fold_right insert_desc [] (number_from 0 scores)).

(** The indices [torch.topk(scores, k=k)] returns. *)
Definition topk (scores : list Score) (k : Z) : result (list Z) :=
  if (k <? 0) || (Z.of_nat (length scores) <? k)
  then Raise (RuntimeError "selected index k out of range")
  else Ok (firstn (Z.to_nat k) (argsort_desc scores)).

(** A dict from labels to tensors: [results[label] = rows]. *)
Fixpoint dict_set {X} (k : Z) (v : X) (d : list (Z * X)) : list (Z * X) :=
  match d with
  | [] => [(k, v)]
  | (k', v') :: tl => if k =? k' then (k, v) :: tl else (k', v') :: dict_set k v tl
  end.

(** [target, latents = key] where [key] is a label, an [int]. *)
Definition unpack_key {X} (key : Z) : result (Z * list X) :=
  Raise (TypeError "cannot unpack non-iterable int object").

(** [torch.cat(tensors, dim=0)] *)
Definition torch_cat {X} (tensors : list (list X)) : result (list X) :=
  match tensors with
  | [] => Raise (RuntimeError "torch.cat(): expected a non-empty list of Tensors")
  | _ => Ok (concat tensors)
  end.

(** The body of the loop of [concat_tensor_labels]:
    [tensors.append(latents); labels += [target] * len(latents)]. *)
Definition flatten_step {X} (acc : list (list X) * list Z) (entry : Z * list X)
  : list (list X) * list Z :=
  let (tensors, labels) := acc in
  let (target, latents) := entry in
  (tensors ++ [latents], labels ++ repeat target (length latents)).

(** [concat_tensor_labels(target_dict)].  The loop iterates the dict
    itself, that is, its keys.  The last statement is
    [raise tensors, labels], not a [return]: it is taken as raising the
    pair, which is no exception. *)
Definition concat_tensor_labels {X} (target_dict : list (Z * list X))
  : M (list X * list Z) :=
  acc <- fold_m (fun (acc : list (list X) * list Z) (key : Z) =>
                   entry <- lift (unpack_key key) ;;
                   ret (flatten_step acc entry))
                (List.map fst target_dict) ([], []) ;;
  let (tensors, labels) := acc in
  tensors <- lift (torch_cat tensors) ;;
  raise (TypeError "exceptions must derive from BaseException").

(** [initial_latents(batch_size, sample_num, select_num, labels,
    latent_score_fn)].  [labels] is the list ([tolist] was applied to a
    tensor).  The branch taken without a score function builds its
    dict and drops it: there is no [return]. *)
Definition initial_latents (self : ImageClassifierAttacker)
           (batch_size sample_num select_num : Z) (labels : list Z)
           (latent_score_fn : scorer) : M (list Latent * list Z) :=
  sample_num <- (if sample_num <? select_num
                 then warn "sample_num < select_num. set sample_num = select_num" ;;;
                      ret select_num
                 else ret sample_num) ;;
  calls <- (if is_none latent_score_fn || (sample_num =? select_num)
            then
              (if select_num <? sample_num
               then warn "no score function, automatically sample `select_num` latents"
               else ret tt) ;;;
              latents <- sample self 0%nat select_num ;;
              let dropped := List.map (fun label : Z => (label, latents)) labels in
              ret 1%nat
            else ret 0%nat) ;;
  raw_latents <- sample self calls sample_num ;;
  scores <- batch_apply latent_score_fn
              [Sized (List.map CLatent raw_latents); Sized (List.map CLabel labels)]
              batch_size None ;;
  idxs <- lift (range_of_list labels) ;;
  results <- fold_m (fun (results : list (Z * list Latent)) (i : Z) =>
                       label <- lift (list_get labels i) ;;
                       rows <- lift (as_rows scores) ;;
                       topk_idx <- lift (topk rows select_num) ;;
                       picked <- lift (index_rows raw_latents topk_idx) ;;
                       ret (dict_set label picked results))
                    idxs [] ;;
  concat_tensor_labels results.

(** What [final_selection] hands back: the bare [images] tensor on the
    early return, a pair from [concat_tensor_labels] otherwise. *)
Inductive selection : Type :=
| OnlyImages (images : list Image)
| ImagesAndLabels (images : list Image) (labels : list Z).

(** [self] passed where [batch_apply] expects [fn]. *)
Definition self_as_fn : scorer :=
  Some (fun _ => raise (TypeError "the attacker is not a scoring function")).

(** [torch.where(labels == target)] *)
Definition where_eq (labels : list Z) (target : Z) : list Z :=
  List.map fst (filter (fun p => snd p =? target) (number_from 0 labels)).

(** [final_selection(batch_size, final_num, images, labels,
    image_score_fn)].  The scored path calls
    [batch_apply(self, image_score_fn, images, labels, ...)]: the score
    function is the first positional input.  [set(labels.tolist())] is
    iterated in first-occurrence order. *)
Definition final_selection (self : ImageClassifierAttacker)
           (batch_size final_num : Z) (images : list Image) (labels : list Z)
           (image_score_fn : scorer) : M selection :=
  (if Nat.eqb (length images) (length labels) then ret tt else raise AssertionError) ;;;
  let n := Z.of_nat (length images) in
  final_num <- (if negb (final_num =? n) && is_none image_score_fn
                then warn "no score function but final num is not equal to the number of latents" ;;;
                     ret n
                else ret final_num) ;;
  if final_num =? n
  then ret (OnlyImages images)
  else
    IO.print "execute final selection" ;;;
    scores <- batch_apply self_as_fn
                [Unsized; Sized (List.map CImage images); Sized (List.map CLabel labels)]
                batch_size None ;;
    let targets := nodup Z.eq_dec labels in
    results <- fold_m (fun (results : list (Z * list Image)) (target : Z) =>
                         let indices := where_eq labels target in
                         target_images <- lift (index_rows images indices) ;;
                         rows <- lift (as_rows scores) ;;
                         target_scores <- lift (index_rows rows indices) ;;
                         topk_idx <- lift (topk target_scores final_num) ;;
                         picked <- lift (index_rows target_images topk_idx) ;;
                         ret (dict_set target picked results))
                      targets [] ;;
    flat <- concat_tensor_labels results ;;
    ret (ImagesAndLabels (fst flat) (snd flat)).

(** [print_as_yaml(obj)] with its defaults: dump, then print. *)
Definition print_as_yaml (obj : list (string * Value)) : M unit :=
  IO.print (yaml_dump obj).

(** The first loop of [_evaluation]: every metric's items are assigned
    into one [OrderedDict]. *)
Definition metric_report (self : ImageClassifierAttacker) (images : list Image)
           (labels : list Z) : M (list (string * Value)) :=
  fold_m (fun (result : list (string * Value)) (m : metric) =>
            d <- m images labels ;;
            ret (Losses.od_update result d))
         (metrics self) [].

(** [_evaluation(images, labels, description)] *)
Definition _evaluation (self : ImageClassifierAttacker) (images : list Image)
           (labels : list Z) (description : string) : M unit :=
  result <- metric_report self images labels ;;
  IO.print_split_line (Some description) IO.default_length ;;;
  print_as_yaml result ;;;
  IO.print_split_line None IO.default_length.

End Attacker.

End Attack.

(* ================================================================== *)
(** * Vocabulary of the statements *)
(* ================================================================== *)

Import Batch Attack.

Unset Implicit Arguments.

(** ** Inputs, chunks and functions of [batch_apply] *)

Section BatchVocabulary.

Variables A R : Type.

(** [len(inp)] where it is defined. *)
Definition size_of (inp : arg A) : Z :=
  match inp with
  | Sized xs => Z.of_nat (length xs)
  | Unsized => 0
  end.

(** [len(inp)] under the bare [except] of [_check_valid]. *)
Definition len_or_fail (inp : arg A) : result Z :=
  match arg_len inp with
  | Ok n => Ok n
  | Raise _ => Raise (RuntimeError "some inputs have no attr `len`")
  end.

(** A function without effects, as [fn]. *)
Definition pure_fn (f : list (list A) -> output R) : callable A R :=
  Some (fun slices => ret (f slices)).

(** [[p[start:stop] for p in inputs]] *)
Definition slices_of (xss : list (list A)) (start stop : Z) : list (list A) :=
  List.map (fun xs => slice_list xs start stop) xss.

(** The [(start, end)] pairs of the loop of [batch_apply]. *)
Definition chunk_bounds (total_len batch_size : Z) : list (Z * Z) :=
  match range3 0 total_len batch_size with
  | Ok starts => List.map (fun start => (start, Z.min total_len (start + batch_size))) starts
  | Raise _ => []
  end.

Definition invoked (c : Z * Z) : event := Invoked (fst c) (snd c).

(** The chunks [cs] tile [from, to): each starts where the one before
    stopped, none is empty, each has [B] indices except that the last may
    have fewer. *)
Fixpoint tiles (B from : Z) (cs : list (Z * Z)) (to : Z) : Prop :=
  match cs with
  | [] => from = to
  | (s, e) :: tl =>
      s = from /\ s < e
      /\ (e - s = B \/ (e - s < B /\ tl = []))
      /\ tiles B e tl to
  end.

(** [f] is additive at the chunks of batch size [B]: at every chunk
    [j, k) but the first, [f] on the inputs up to [k] is what [_gather]
    makes of [f] on the inputs up to [j] and [f] on the chunk.  With a
    single chunk nothing is asked. *)
Definition additive_on (f : list (list A) -> output R) (xss : list (list A))
           (n B : Z) : Prop :=
  forall j k : Z,
    In (j, k) (chunk_bounds n B) -> 0 < j ->
    gather_map (f (slices_of xss 0 j)) [f (slices_of xss j k)]
    = Ok (f (slices_of xss 0 k)).

(** The rows of the inputs: the [i]-th row lists the [i]-th element of
    every input. *)
Fixpoint rows_of (inputs : list (list A)) : list (list A) :=
  match inputs with
  | [] => []
  | xs :: tl =>
      match tl with
      | [] => List.map (fun x => [x]) xs
      | _ :: _ => List.map (fun p => fst p :: snd p) (combine xs (rows_of tl))
      end
  end.

(** A function that works row by row: its output is a tree, the same
    for every chunk, of [None], dicts, sequences and tensors whose [i]-th
    row is computed from the [i]-th row of the inputs. *)
Inductive rowfn : Type :=
| RowTensor (g : list A -> R)
| RowNone
| RowDict (items : list (string * rowfn))
| RowSeq (kind : seqkind) (fields : list rowfn).

Fixpoint run_rowfn (r : rowfn) (slices : list (list A)) : output R :=
  match r with
  | RowTensor g => OTensor (List.map g (rows_of slices))
  | RowNone => ONone
  | RowDict items =>
      ODict ((fix loop (its : list (string * rowfn)) : list (string * output R) :=
                match its with
                | [] => []
                | (k, v) :: tl => (k, run_rowfn v slices) :: loop tl
                end) items)
  | RowSeq kind fields =>
      OSeq kind ((fix loop (fs : list rowfn) : list (output R) :=
                    match fs with
                    | [] => []
                    | f :: tl => run_rowfn f slices :: loop tl
                    end) fields)
  end.

(** The keys of every dict are distinct, as those of a Python dict are. *)
Fixpoint unique_keys (ks : list string) : bool :=
  match ks with
  | [] => true
  | k :: tl => negb (existsb (String.eqb k) tl) && unique_keys tl
  end.

Fixpoint distinct_keys (r : rowfn) : bool :=
  match r with
  | RowTensor _ | RowNone => true
  | RowDict items =>
      unique_keys (List.map fst items)
      && (fix all (its : list (string * rowfn)) : bool :=
            match its with
            | [] => true
            | (_, v) :: tl => distinct_keys v && all tl
            end) items
  | RowSeq _ fields =>
      (fix all (fs : list rowfn) : bool :=
         match fs with
         | [] => true
         | f :: tl => distinct_keys f && all tl
         end) fields
  end.

(** A function that maps [g] over the rows of its first input. *)
Definition rowwise (g : A -> R) : list (list A) -> output R :=
  fun slices => OTensor (List.map g (hd [] slices)).

(** The [i]-th chunk. *)
Definition chunk (n B : Z) (i : nat) : Z * Z :=
  (Z.of_nat i * B, Z.min n (Z.of_nat i * B + B)).

(** What gathering one more chunk output means for a part: the part
    gathered with its counterpart in the second output stands for both. *)
Definition absorbs (o : output R) : Prop :=
  forall (o2 o12 : output R) (rest : list (output R)),
    gather_map o [o2] = Ok o12 ->
    gather_map o (o2 :: rest) = gather_map o12 rest.

End BatchVocabulary.

Arguments size_of {A} inp.
Arguments len_or_fail {A} inp.
Arguments pure_fn {A R} f.
Arguments slices_of {A} xss start stop.
Arguments additive_on {A R} f xss n B.
Arguments rows_of {A} inputs.
Arguments RowTensor {A R} g.
Arguments RowNone {A R}.
Arguments RowDict {A R} items.
Arguments RowSeq {A R} kind fields.
Arguments run_rowfn {A R} r slices.
Arguments distinct_keys {A R} r.
Arguments rowwise {A R} g slices.
Arguments absorbs {R} o.

(** Induction on outputs, with the hypothesis on every item of a dict and
    every field of a sequence. *)
Section OutputInduction.

Variable R : Type.

Variable P : output R -> Prop.
Hypothesis P_tensor : forall rows, P (OTensor rows).
Hypothesis P_none : P ONone.
Hypothesis P_dict :
  forall items, Forall (fun kv => P (snd kv)) items -> P (ODict items).
Hypothesis P_seq :
  forall kind fields, Forall P fields -> P (OSeq kind fields).
Hypothesis P_atom : forall a, P (OAtom a).

Fixpoint output_induction (o : output R) : P o :=
  match o with
  | OTensor rows => P_tensor rows
  | ONone => P_none
  | ODict items =>
      P_dict items
        ((fix all (its : list (string * output R)) : Forall (fun kv => P (snd kv)) its :=
            match its with
            | [] => Forall_nil _
            | kv :: tl => Forall_cons kv (output_induction (snd kv)) (all tl)
            end) items)
  | OSeq kind fields =>
      P_seq kind fields
        ((fix all (fs : list (output R)) : Forall P fs :=
            match fs with
            | [] => Forall_nil _
            | f :: tl => Forall_cons f (output_induction f) (all tl)
            end) fields)
  | OAtom a => P_atom a
  end.

End OutputInduction.

(** Induction on row-by-row functions, likewise. *)
Section RowfnInduction.

Variables A R : Type.

Variable P : rowfn A R -> Prop.
Hypothesis P_tensor : forall g, P (RowTensor g).
Hypothesis P_none : P RowNone.
Hypothesis P_dict :
  forall items, Forall (fun kv => P (snd kv)) items -> P (RowDict items).
Hypothesis P_seq :
  forall kind fields, Forall P fields -> P (RowSeq kind fields).

Fixpoint rowfn_induction (r : rowfn A R) : P r :=
  match r with
  | RowTensor g => P_tensor g
  | RowNone => P_none
  | RowDict items =>
      P_dict items
        ((fix all (its : list (string * rowfn A R)) : Forall (fun kv => P (snd kv)) its :=
            match its with
            | [] => Forall_nil _
            | kv :: tl => Forall_cons kv (rowfn_induction (snd kv)) (all tl)
            end) items)
  | RowSeq kind fields =>
      P_seq kind fields
        ((fix all (fs : list (rowfn A R)) : Forall P fs :=
            match fs with
            | [] => Forall_nil _
            | f :: tl => Forall_cons f (rowfn_induction f) (all tl)
            end) fields)
  end.

End RowfnInduction.

(** ** The compose loss *)

Section ComposeVocabulary.

Variable S : Type.
Variable zero : S.
Variable add mul : S -> S -> S.
Variables Images Labels : Type.

(** The scalar and the diagnostic mapping of what a sub-loss returned. *)
Definition loss_value (r : Losses.loss_ret S) : S :=
  match r with
  | Losses.BareTensor loss => loss
  | Losses.WithDict loss _ => loss
  end.

Definition diagnostics (r : Losses.loss_ret S) : Losses.odict S :=
  match r with
  | Losses.BareTensor _ => []
  | Losses.WithDict _ single_dict => single_dict
  end.

(** [0.0 + w1 * l1 + ... + wn * ln], summed from the left. *)
Definition weighted_sum (images : Images) (labels : Labels)
           (pairs : list (Losses.lossfn S Images Labels * S)) : S :=
  fold_left (fun acc lw => add acc (mul (snd lw) (loss_value (fst lw images labels))))
            pairs zero.

(** Every diagnostic entry of every sub-loss, in the order reported. *)
Definition reported (images : Images) (labels : Labels)
           (pairs : list (Losses.lossfn S Images Labels * S)) : Losses.odict S :=
  flat_map (fun lw => diagnostics (fst lw images labels)) pairs.

(** The value of the last entry listed under [k]. *)
Fixpoint latest (k : string) (entries : Losses.odict S) : option S :=
  match entries with
  | [] => None
  | (k', v) :: tl =>
      match latest k tl with
      | Some w => Some w
      | None => if String.eqb k k' then Some v else None
      end
  end.

End ComposeVocabulary.

Arguments loss_value {S} r.
Arguments diagnostics {S} r.
Arguments weighted_sum {S} zero add mul {Images Labels} images labels pairs.
Arguments reported {S Images Labels} images labels pairs.
Arguments latest {S} k entries.

(** ** Configurations *)

Section ConfigVocabulary.

Variables Latent Image Score : Type.

(** The configurations [_preprocess_config] raises on. *)
Definition rejected (cfg : ImageClassifierAttackConfig Latent Image Score) : bool :=
  ((save_optimized_images cfg || save_final_images cfg) && falsy (save_dir cfg))
  || is_none (sample_latents_fn cfg)
  || is_none (optimize_fn cfg)
  || is_none (final_num cfg).

End ConfigVocabulary.

Arguments rejected {Latent Image Score} cfg.

(** ** Example data *)

(** A configuration with a sampler, an optimizer and the counts of the
    spec's scenario; the flags and the directory are the arguments. *)
Definition sample_config (initial optimize final : option Z)
           (dir : option string) (save_optimized : bool)
  : ImageClassifierAttackConfig Z Z Q :=
  mkConfig (Some (fun (call : nat) (n : Z) => repeat (Z.of_nat call) (Z.to_nat n)))
           initial None None optimize 5
           (Some (fun (latents : list Z) (labels : list Z) => ret (latents, labels)))
           final None None dir save_optimized false true.

(** The scenario of the spec: an attacker built on [sample_config], and a
    score function that gives the two candidates 0.1 and 0.9. *)
Definition scenario_attacker : ImageClassifierAttacker Z Z Q Z :=
  mkAttacker (sample_config (Some 2) (Some 1) (Some 1) None false) [] [] [].

Definition scenario_scorer : scorer Z Z Q :=
  Some (fun _ => ret (OTensor [1 # 10; 9 # 10]%Q)).

(** Two sub-losses with diagnostics under the keys given, scalars 3 and 4,
    over rational scalars. *)
Definition const_loss (key : string) (value : Q) : Losses.lossfn Q unit unit :=
  fun _ _ => Losses.WithDict value [(key, value)].

Definition compose_of (key1 key2 : string) : Losses.ComposeImageLoss Q unit unit :=
  Losses.mkCompose [const_loss key1 (3 # 1); const_loss key2 (4 # 1)]
                   [1 # 1; 2 # 1]%Q.

(** A function of the whole chunk: the number of its rows. *)
Definition count_rows (slices : list (list Z)) : output Z :=
  OTensor [Z.of_nat (length (hd [] slices))].

(** A function that works row by row on two inputs: the sum of each row
    under one key, and under another a tuple of the first input and
    [None]. *)
Definition sum_and_first : rowfn Z Z :=
  RowDict [("sum", RowTensor (fun row => fold_right Z.add 0 row));
           ("pair", RowSeq KTuple [RowTensor (fun row => hd 0 row); RowNone])].

(* ================================================================== *)
(** * Further code *)
(* ================================================================== *)

(** ** utils/batch.py: functions that may raise, what the loop prints *)

(** A function that may raise but has no other effect, as [fn]. *)
Definition partial_fn {A R : Type} (f : list (list A) -> result (output R)) : callable A R :=
  Some (fun slices => lift (f slices)).

(** What the loop of [batch_apply] prints before the [i]-th call. *)
Definition announced (description : option string) (i iter_times : Z) : list event :=
  match description with
  | Some d => events (IO.print_split_line (Some (progress_line d i iter_times))
                                          IO.default_length)
  | None => []
  end.

(** The length [zip] stops at: the shortest of a sequence of [n] fields
    and the columns [cols]. *)
Definition shortest {X : Type} (n : nat) (cols : list (list X)) : nat :=
  fold_right (fun col m => Nat.min (length col) m) n cols.

(** ** attack/losses.py: ImageAugmentClassificationLoss *)

Section AugmentLoss.

(** Scalars as in [Losses]; [div_count acc n] is [acc / n] with [n] the
    integer [total_num]. *)
Variable S : Type.
Variable zero : S.
Variable add : S -> S -> S.
Variable div_count : S -> Z -> S.

Variables Images Labels Conf : Type.

(** The fields set by [__init__], and the tensor expression
    [(argmax(conf, dim=-1) == labels).float().mean().item()] of
    [forward] as [accuracy]. *)
Record ImageAugmentClassificationLoss : Type := mkAugmentLoss {
  create_aug_images_fn : Images -> list Images;
  classifier : Images -> Conf;
  loss_fn : Conf -> Labels -> S;
  accuracy : Conf -> Labels -> S
}.

(** [ImageAugmentClassificationLoss.__init__]: without an augmentation
    function the only view is the batch itself. *)
Definition augment_init (classifier : Images -> Conf) (loss_fn : Conf -> Labels -> S)
           (accuracy : Conf -> Labels -> S)
           (create_aug_images_fn : option (Images -> list Images))
  : ImageAugmentClassificationLoss :=
  mkAugmentLoss (match create_aug_images_fn with
                 | None => fun x => [x]
                 | Some views => views
                 end)
                classifier loss_fn accuracy.

(** One turn of the loop of [forward]: [(loss, acc, total_num)]. *)
Definition augment_step (self : ImageAugmentClassificationLoss) (labels : Labels)
           (st : S * S * Z) (aug_images : Images) : S * S * Z :=
  let '(loss, acc, total_num) := st in
  let conf := classifier self aug_images in
  (add loss (loss_fn self conf labels), add acc (accuracy self conf labels), total_num + 1).

Definition augment_loop (self : ImageAugmentClassificationLoss)
           (images : Images) (labels : Labels) : S * S * Z :=
  fold_left (augment_step self labels) (create_aug_images_fn self images) (zero, zero, 0).

(** The pair [forward] returns once [loss] is a tensor. *)
Definition augment_report (self : ImageAugmentClassificationLoss)
           (images : Images) (labels : Labels) : S * Losses.odict S :=
  let '(loss, acc, total_num) := augment_loop self images labels in
  (loss, [("classification loss", loss); ("target acc", div_count acc total_num)]).

(** [ImageAugmentClassificationLoss.forward(images, labels)].  [loss]
    starts as the integer [0], which has no [item()]. *)
Definition augment_forward (self : ImageAugmentClassificationLoss)
           (images : Images) (labels : Labels) : result (S * Losses.odict S) :=
  match create_aug_images_fn self images with
  | [] => Raise (AttributeError "'int' object has no attribute 'item'")
  | _ :: _ => Ok (augment_report self images labels)
  end.

(** The loss as a sub-loss of [ComposeImageLoss]. *)
Definition augment_lossfn (self : ImageAugmentClassificationLoss)
  : Losses.lossfn S Images Labels :=
  fun images labels =>
    Losses.WithDict (fst (augment_report self images labels))
                    (snd (augment_report self images labels)).

End AugmentLoss.

Arguments mkAugmentLoss {S Images Labels Conf} _ _ _ _.
Arguments create_aug_images_fn {S Images Labels Conf} _ _.
Arguments classifier {S Images Labels Conf} _ _.
Arguments loss_fn {S Images Labels Conf} _ _ _.
Arguments accuracy {S Images Labels Conf} _ _ _.
Arguments augment_init {S Images Labels Conf} _ _ _ _.
Arguments augment_loop {S} zero add {Images Labels Conf} self images labels.
Arguments augment_report {S} zero add div_count {Images Labels Conf} self images labels.
Arguments augment_forward {S} zero add div_count {Images Labels Conf} self images labels.
Arguments augment_lossfn {S} zero add div_count {Images Labels Conf} self.

(** ** attack/base.py: the accumulators of optimized images *)

(** [os.path.join(a, b)] on POSIX paths. *)
Definition path_join (a b : string) : string :=
  if String.prefix "/" b then b
  else if (String.eqb a "") || String.eqb (substring (String.length a - 1) 1 a) "/"
       then String.append a b
       else String.append a (String.append "/" b).

Section Accumulators.

Variables Latent Image Score Value : Type.

(** [get_random_string(length=6)] of [utils], which is not among the
    sources: the [i]-th string it hands out. *)
Variable get_random_string : nat -> string.

(** [update_optimized_images(images, labels)]: the attacker with both
    lists appended to. *)
Definition update_optimized_images
           (self : ImageClassifierAttacker Latent Image Score Value)
           (images : list Image) (labels : list Z)
  : M (ImageClassifierAttacker Latent Image Score Value) :=
  (if Nat.eqb (length images) (length labels) then ret tt else raise AssertionError) ;;;
  ret (mkAttacker (config self) (metrics self)
                  (optimized_images self ++ [images])
                  (optimized_labels self ++ [labels])).

(** [concat_optimized_images()] *)
Definition concat_optimized_images
           (self : ImageClassifierAttacker Latent Image Score Value)
  : M (list Image * list Z) :=
  images <- lift (torch_cat (optimized_images self)) ;;
  labels <- lift (torch_cat (optimized_labels self)) ;;
  ret (images, labels).

(** [save_images(root_dir, images, labels)]: the files written, in order,
    each with the image stored in it; [drawn] random strings were handed
    out before. *)
Definition save_images (root_dir : string) (images : list Image) (labels : list Z)
           (drawn : nat) : M (list (string * Image)) :=
  (if Nat.eqb (length images) (length labels) then ret tt else raise AssertionError) ;;;
  ret (List.map (fun p : Z * (Image * Z) =>
                   let i := fst p in
                   let image := fst (snd p) in
                   let label := snd (snd p) in
                   let save_dir := path_join root_dir (str_of_int label) in
                   let random_str := get_random_string (drawn + Z.to_nat i) in
                   let save_path :=
                     path_join save_dir
                               (String.append (str_of_int label)
                                  (String.append "_" (String.append random_str ".png"))) in
                   (save_path, image))
                (number_from 0 (combine images labels))).

(** [batch_optimize(init_latents, labels)]: the attacker after the call
    and the files written. *)
Definition batch_optimize
           (self : ImageClassifierAttacker Latent Image Score Value)
           (init_latents : list Latent) (labels : list Z) (drawn : nat)
  : M (ImageClassifierAttacker Latent Image Score Value * list (string * Image)) :=
  optimized <- (match optimize_fn (config self) with
                | None => raise (TypeError "'NoneType' object is not callable")
                | Some f => f init_latents labels
                end) ;;
  let images := fst optimized in
  let labels := snd optimized in
  self <- update_optimized_images self images labels ;;
  if save_optimized_images (config self)
  then
    match save_dir (config self) with
    | None => raise (TypeError "expected str, bytes or os.PathLike object, not NoneType")
    | Some dir =>
        written <- save_images (path_join dir "optimized_images") images labels drawn ;;
        ret (self, written)
    end
  else ret (self, []).

End Accumulators.

Arguments update_optimized_images {Latent Image Score Value} self images labels.
Arguments concat_optimized_images {Latent Image Score Value} self.
Arguments save_images {Image} get_random_string root_dir images labels drawn.
Arguments batch_optimize {Latent Image Score Value} get_random_string self init_latents labels drawn.

(** A metric that computes its mapping without printing or raising. *)
Definition pure_metric {Image Value : Type}
           (f : list Image -> list Z -> list (string * Value)) : metric Image Value :=
  fun images labels => ret (f images labels).

(** ** utils/io.py: walk_imgs *)

Definition IMG_EXTENSIONS : list string :=
  [".jpg"; ".jpeg"; ".png"; ".ppm"; ".bmp"; ".pgm"; ".tif"; ".tiff"; ".webp"].

(** [s.endswith(suffix)] for one suffix, and for a tuple of them. *)
Fixpoint endswith (s suffix : string) : bool :=
  if String.eqb s suffix then true
  else match s with
       | EmptyString => false
       | String _ tl => endswith tl suffix
       end.

Definition endswith_any (s : string) (suffixes : list string) : bool :=
  existsb (endswith s) suffixes.

(** What is at a path: a directory with its entries in the order
    [os.scandir] lists them, a symbolic link to a directory, with the
    entries of the directory it leads to, or anything else (a file, a
    link to a file, a link that leads nowhere). *)
Inductive entry : Type :=
| File
| DirLink (target : list (string * entry))
| Dir (entries : list (string * entry)).

Definition is_file (e : entry) : bool :=
  match e with File => true | _ => false end.

(** The [files] of one step of [os.walk]: the names of what is no
    directory and no link to one. *)
Definition files_of (entries : list (string * entry)) : list string :=
  List.map fst (filter (fun ne => is_file (snd ne)) entries).

(** The loop of [walk_imgs] over [os.walk] from a directory at [path]:
    each directory gives its own files first, then its directories are
    walked in order; a link to a directory is named among the
    directories and not walked ([followlinks] is off). *)
Fixpoint walk_dir (path : string) (e : entry) : list string :=
  match e with
  | Dir entries =>
      List.map (path_join path)
               (filter (fun file => endswith_any file IMG_EXTENSIONS) (files_of entries))
      ++ (fix walk_dirs (dirs : list (string * entry)) : list string :=
            match dirs with
            | [] => []
            | (name, sub) :: tl =>
                match sub with
                | Dir _ => walk_dir (path_join path name) sub
                | _ => []
                end ++ walk_dirs tl
            end) entries
  | _ => []
  end.

(** [walk_imgs(path)] with [e] what is at [path], every directory being
    readable.  [os.walk] scans the top itself also when it is a link to a
    directory, and yields nothing where there is no directory: a file, or
    a path that does not exist, for which [e] is [File] as well. *)
Definition walk_imgs (path : string) (e : entry) : list string :=
  match e with
  | DirLink target => walk_dir path (Dir target)
  | _ => walk_dir path e
  end.

(** The entries [os.walk] starts from. *)
Definition scanned (e : entry) : option (list (string * entry)) :=
  match e with
  | Dir entries => Some entries
  | DirLink target => Some target
  | File => None
  end.

(** The regular files below a directory at [path], with the path each is
    reached by through directories that are no links. *)
Inductive located : string -> list (string * entry) -> string -> string -> Prop :=
| located_here (path : string) (entries : list (string * entry)) (name : string) :
    In (name, File) entries ->
    located path entries (path_join path name) name
| located_below (path : string) (entries sub : list (string * entry))
                (name p file : string) :
    In (name, Dir sub) entries ->
    located (path_join path name) sub p file ->
    located path entries p file.

(** No name that is walked starts with a slash. *)
Fixpoint relative_dir (e : entry) : bool :=
  match e with
  | Dir entries =>
      (fix all (es : list (string * entry)) : bool :=
         match es with
         | [] => true
         | (name, sub) :: tl =>
             negb (String.prefix "/" name)
             && match sub with
                | Dir _ => relative_dir sub
                | _ => true
                end
             && all tl
         end) entries
  | _ => true
  end.

Definition relative_names (e : entry) : bool :=
  match e with
  | DirLink target => relative_dir (Dir target)
  | _ => relative_dir e
  end.

Section EntryInduction.

Variable P : entry -> Prop.
Hypothesis HFile : P File.
Hypothesis HLink : forall target, P (DirLink target).
Hypothesis HDir : forall entries, Forall (fun ne => P (snd ne)) entries -> P (Dir entries).

Fixpoint entry_induction (e : entry) : P e :=
  match e with
  | File => HFile
  | DirLink target => HLink target
  | Dir entries =>
      HDir entries
           ((fix all (es : list (string * entry)) : Forall (fun ne => P (snd ne)) es :=
               match es with
               | [] => Forall_nil _
               | ne :: tl => Forall_cons ne (entry_induction (snd ne)) (all tl)
               end) entries)
  end.

End EntryInduction.

(** ** attack/PLGMI_high/gan_trainer.py: _max_margin_loss *)

(** A tensor of shape [(len(trows), ncols)]: the number of columns is
    part of the shape also when there is no row. *)
Record tensor2 (X : Type) : Type := mkTensor2 {
  ncols : Z;
  trows : list (list X)
}.

Arguments mkTensor2 {X} ncols trows.
Arguments ncols {X} t.
Arguments trows {X} t.

Section MaxMargin.

(** The logits.  [argsort] is [torch.argsort] on one row, ascending;
    [negate x] is [-1 * x]; [mean] and [add] are the float operations of
    the last line. *)
Variable Score : Type.
Variable argsort : list Score -> list Z.
Variable negate : Score -> Score.
Variable mean : list Score -> Score.
Variable add : Score -> Score -> Score.

(** [t.gather(1, index.unsqueeze(1)).squeeze(1)]: [index] may be
    shorter than [t], not longer, and indexes the columns, from 0. *)
Definition gather (t : tensor2 Score) (index : list Z) : result (list Score) :=
  if (length (trows t) <? length index)%nat
  then Raise (RuntimeError "Size does not match at dimension 0")
  else rmap (fun p : list Score * Z =>
               match (if snd p <? 0 then None else nth_error (fst p) (Z.to_nat (snd p))) with
               | Some x => Ok x
               | None => Raise (RuntimeError "index out of bounds for dimension 1")
               end)
            (combine (trows t) index).

(** [row[-2:]] *)
Definition last_two {X : Type} (row : list X) : list X :=
  skipn (length row - 2) row.

(** [t[:, -k]] *)
Definition column {X : Type} (t : tensor2 X) (k : nat) : result (list X) :=
  if ncols t <? Z.of_nat k
  then Raise (IndexError "index out of bounds for dimension 1")
  else rmap (fun row : list X =>
               match (if (length row <? k)%nat then None
                      else nth_error row (length row - k)) with
               | Some x => Ok x
               | None => Raise (IndexError "index out of bounds for dimension 1")
               end)
            (trows t).

(** [a == b] on vectors of integers, with broadcasting. *)
Definition eq_broadcast (a b : list Z) : result (list bool) :=
  if Nat.eqb (length a) (length b)
  then Ok (List.map (fun p : Z * Z => fst p =? snd p) (combine a b))
  else match a, b with
       | [x], _ => Ok (List.map (fun y : Z => x =? y) b)
       | _, [y] => Ok (List.map (fun x : Z => x =? y) a)
       | _, _ => Raise (RuntimeError "The size of tensor a must match the size of tensor b at non-singleton dimension 0")
       end.

(** [torch.where(cond, x, y)] with [x] and [y] two columns of one
    tensor, with broadcasting. *)
Definition where_cond (cond : list bool) (x y : list Z) : result (list Z) :=
  let xy := combine x y in
  if Nat.eqb (length cond) (length xy)
  then Ok (List.map (fun p : bool * (Z * Z) => if fst p then fst (snd p) else snd (snd p))
                    (combine cond xy))
  else match cond, xy with
       | _, [(x0, y0)] => Ok (List.map (fun c : bool => if c then x0 else y0) cond)
       | [c], _ => Ok (List.map (fun p : Z * Z => if c then fst p else snd p) xy)
       | _, _ => Raise (RuntimeError "The size of tensor a must match the size of tensor b at non-singleton dimension 0")
       end.

(** [_max_margin_loss(out, iden)] *)
Definition _max_margin_loss (out : tensor2 Score) (iden : list Z) : result Score :=
  real <~ gather out iden ;;
  let tmp1 := mkTensor2 (Z.min 2 (ncols out))
                        (List.map (fun row => last_two (argsort row)) (trows out)) in
  top <~ column tmp1 1 ;;
  cond <~ eq_broadcast top iden ;;
  second <~ column tmp1 2 ;;
  top <~ column tmp1 1 ;;
  new_y <~ where_cond cond second top ;;
  margin <~ gather out new_y ;;
  Ok (add (mean (List.map negate real)) (mean margin)).

(** The shape is the shape of the rows. *)
Definition well_shaped (t : tensor2 Score) : Prop :=
  Forall (fun row => Z.of_nat (length row) = ncols t) (trows t).

(** [perm] sorts [row] in ascending order of [leb]: it lists every
    index of the row once, and an index listed earlier has a score that
    is not above. *)
Definition sorts (leb : Score -> Score -> bool) (row : list Score) (perm : list Z) : Prop :=
  length perm = length row
  /\ NoDup perm
  /\ (forall j, In j perm <-> 0 <= j < Z.of_nat (length row))
  /\ (forall p q jp jq xp xq,
         (p < q)%nat ->
         nth_error perm p = Some jp -> nth_error perm q = Some jq ->
         nth_error row (Z.to_nat jp) = Some xp -> nth_error row (Z.to_nat jq) = Some xq ->
         leb xp xq = true).

(** The class the margin is taken at, from the sorted indices of a row
    and its label. *)
Definition competing_label (perm : list Z) (label : Z) : Z :=
  let two := last_two perm in
  if nth 1 two 0 =? label then nth 0 two 0 else nth 1 two 0.

End MaxMargin.

Arguments gather {Score} t index.
Arguments _max_margin_loss {Score} argsort negate mean add out iden.
Arguments well_shaped {Score} t.
Arguments sorts {Score} leb row perm.

(** ** Further examples *)

(** What [_preprocess_config] returns for a [sample_config] whose counts
    are at most [n], the final number being [n]. *)
Definition sample_stored (n : Z) (dir : option string) (save_optimized : bool)
  : ImageClassifierAttackConfig Z Z Q :=
  let base := sample_config None None None dir save_optimized in
  mkConfig (sample_latents_fn base) (Some n) None (Some 5) (Some n) 5
           (optimize_fn base) (Some n) None None dir save_optimized false true.

(** A classification loss over two views of a batch, with rational
    scalars: the batch is a number, which is also its confidence. *)
Definition sample_augment_loss : ImageAugmentClassificationLoss Q Z unit Z :=
  augment_init (fun images : Z => images)
               (fun (conf : Z) (_ : unit) => inject_Z conf)
               (fun (_ : Z) (_ : unit) => 1%Q)
               (Some (fun images : Z => [images; images + 1])).

(** Another one, with the batch as its only view, a confidence twice
    the batch and an accuracy of one half. *)
Definition other_augment_loss : ImageAugmentClassificationLoss Q Z unit Z :=
  augment_init (fun images : Z => 2 * images)
               (fun (conf : Z) (_ : unit) => inject_Z conf)
               (fun (_ : Z) (_ : unit) => (1 # 2)%Q)
               None.

Definition Qdiv_count (acc : Q) (n : Z) : Q := (acc / inject_Z n)%Q.

(** A directory with two images, one of them in a subdirectory, and a
    third one behind a link. *)
Definition sample_tree : entry :=
  Dir [("a.png", File);
       ("notes.txt", File);
       ("sub", Dir [("b.jpg", File)]);
       ("c.PNG", File);
       ("link", DirLink [("d.png", File)])].

(* ================================================================== *)
(** * Properties *)
(* ================================================================== *)

(** ** The effect monad *)

Section MonadFacts.

Context {A B : Type}.

Lemma bind_ok (l : list event) (a : A) (k : A -> M B) :
  bind (l, Ok a) k = (l ++ events (k a), outcome (k a)).
Proof. unfold bind, events, outcome. destruct (k a); reflexivity. Qed.

Lemma bind_ret (a : A) (k : A -> M B) : bind (ret a) k = k a.
Proof. unfold ret. rewrite bind_ok. destruct (k a); reflexivity. Qed.

Lemma bind_lift_ok (a : A) (k : A -> M B) : bind (lift (Ok a)) k = k a.
Proof. apply bind_ret. Qed.

Lemma not_returns_bind (m : M A) (k : A -> M B) :
  (forall a, returns (k a) = false) -> returns (bind m k) = false.
Proof.
  intro H. destruct m as [l [a | e]]; [| reflexivity].
  rewrite bind_ok. exact (H a).
Qed.

End MonadFacts.

(** ** utils/io.py *)

Lemma last_app_cons {X} (l : list X) (x : X) (t : list X) (d : X) :
  last (l ++ x :: t) d = last (x :: t) d.
Proof.
  induction l as [| y l IH]; [reflexivity |].
  simpl app. change (last (y :: l ++ x :: t) d) with
    (match l ++ x :: t with [] => y | _ :: _ => last (l ++ x :: t) d end).
  destruct (l ++ x :: t) eqn:E.
  - destruct l; discriminate.
  - exact IH.
Qed.

(** C10.  [print_split_line] with [content] omitted prints the line of
    dashes and then raises [TypeError] at [len(content)]; it never returns.
    [_evaluation] ends with such a call, so it never returns either: when
    the metrics all return, its outcome is that [TypeError], raised after the
    dashes were printed. *)
Theorem print_split_line_none_raises :
  (forall length : Z,
      IO.print_split_line None length
      = ([Printed (str_mul "-" length) IO.newline],
         Raise (TypeError "object of type 'NoneType' has no len()")))
  /\
  (forall (Latent Image Score Value : Type)
          (yaml_dump : list (string * Value) -> string)
          (self : ImageClassifierAttacker Latent Image Score Value)
          (images : list Image) (labels : list Z) (description : string),
      let run := _evaluation yaml_dump self images labels description in
      let report := metric_report self images labels in
      returns run = false
      /\ match outcome report with
         | Ok _ =>
             outcome run = Raise (TypeError "object of type 'NoneType' has no len()")
             /\ last (events run) (Warned "")
                = Printed (str_mul "-" IO.default_length) IO.newline
         | Raise e => run = (events report, Raise e)
         end).
Proof.
  split.
  - intro length. reflexivity.
  - intros Latent Image Score Value yaml_dump self images labels description run report.
    subst run report. unfold _evaluation.
    destruct (metric_report self images labels) as [l [result | e]];
      simpl outcome; cbv beta iota.
    + rewrite bind_ok. unfold returns. simpl.
      rewrite last_app_cons. repeat split.
    + split; reflexivity.
Qed.

(** ** utils/batch.py: the check of the inputs *)

Section CheckValid.

Variable A : Type.

Lemma rmap_len_unsized (inputs : list (arg A)) :
  In Unsized inputs ->
  rmap len_or_fail inputs = Raise (RuntimeError "some inputs have no attr `len`").
Proof.
  induction inputs as [| inp tl IH]; intro H; [contradiction |].
  destruct inp as [xs |]; [| reflexivity].
  destruct H as [H | H]; [discriminate |].
  simpl. rewrite (IH H). reflexivity.
Qed.

Lemma rmap_len_sized (inputs : list (arg A)) :
  ~ In Unsized inputs ->
  rmap len_or_fail inputs = Ok (List.map size_of inputs).
Proof.
  induction inputs as [| inp tl IH]; intro H; [reflexivity |].
  destruct inp as [xs |].
  - simpl. rewrite IH; [reflexivity |]. intro H'. apply H. right. exact H'.
  - exfalso. apply H. left. reflexivity.
Qed.

Lemma check_valid_unsized (inputs : list (arg A)) :
  In Unsized inputs ->
  _check_valid inputs = Raise (RuntimeError "some inputs have no attr `len`").
Proof.
  intro H. destruct inputs as [| inp tl]; [contradiction |].
  unfold _check_valid. fold (@len_or_fail A).
  rewrite (rmap_len_unsized _ H). reflexivity.
Qed.

Lemma check_valid_sized (inp : arg A) (tl : list (arg A)) :
  ~ In Unsized (inp :: tl) ->
  _check_valid (inp :: tl)
  = if forallb (fun x => x =? size_of inp) (List.map size_of (inp :: tl))
    then Ok tt
    else Raise (RuntimeError "lengths of all inputs are not the same").
Proof.
  intro H. unfold _check_valid. fold (@len_or_fail A).
  rewrite (rmap_len_sized _ H). reflexivity.
Qed.

Lemma check_valid_differ (inputs : list (arg A)) (xs ys : list A) :
  ~ In Unsized inputs ->
  In (Sized xs) inputs -> In (Sized ys) inputs -> length xs <> length ys ->
  _check_valid inputs = Raise (RuntimeError "lengths of all inputs are not the same").
Proof.
  intros Hs Hx Hy Hne. destruct inputs as [| inp tl]; [contradiction |].
  rewrite (check_valid_sized _ _ Hs).
  destruct (forallb _ _) eqn:E; [| reflexivity].
  exfalso. rewrite forallb_forall in E.
  assert (Ex : Z.of_nat (length xs) = size_of inp).
  { apply Z.eqb_eq. apply E. apply (in_map (@size_of A) _ _ Hx). }
  assert (Ey : Z.of_nat (length ys) = size_of inp).
  { apply Z.eqb_eq. apply E. apply (in_map (@size_of A) _ _ Hy). }
  lia.
Qed.

Lemma unsized_dec (inputs : list (arg A)) :
  {In Unsized inputs} + {~ In Unsized inputs}.
Proof.
  induction inputs as [| inp tl IH].
  - right. intros [].
  - destruct inp as [xs |].
    + destruct IH as [IH | IH].
      * left. right. exact IH.
      * right. intros [H | H]; [discriminate | contradiction].
    + left. left. reflexivity.
Qed.

(** The check passes on inputs that all have the length [n]. *)
Lemma check_valid_same (xss : list (list A)) (n : Z) :
  (forall xs, In xs xss -> Z.of_nat (length xs) = n) ->
  _check_valid (List.map (@Sized A) xss) = Ok tt.
Proof.
  intro H. destruct xss as [| xs tl]; [reflexivity |].
  change (List.map (@Sized A) (xs :: tl)) with (Sized xs :: List.map (@Sized A) tl).
  rewrite check_valid_sized.
  - replace (forallb _ _) with true; [reflexivity |].
    symmetry. apply forallb_forall. intros z Hz.
    apply in_map_iff in Hz. destruct Hz as [inp [Hz Hin]].
    change (Sized xs :: List.map (@Sized A) tl)
      with (List.map (@Sized A) (xs :: tl)) in Hin.
    apply in_map_iff in Hin. destruct Hin as [ys [Hys Hin]].
    subst inp z. simpl. apply Z.eqb_eq.
    rewrite (H ys Hin). rewrite (H xs (or_introl eq_refl)). reflexivity.
  - change (Sized xs :: List.map (@Sized A) tl)
      with (List.map (@Sized A) (xs :: tl)).
    intro Hin. apply in_map_iff in Hin. destruct Hin as [ys [Hys _]]. discriminate.
Qed.

End CheckValid.

(** C9.  When some positional input has no [len], or two inputs have
    different lengths, [batch_apply] raises a [RuntimeError] and leaves no
    event behind: [fn] was called on no chunk, nothing was printed. *)
Theorem batch_apply_rejects_bad_lengths
        (A R : Type) (fn : callable A R) (inputs : list (arg A))
        (batch_size : Z) (description : option string) :
  In Unsized inputs
  \/ (exists xs ys, In (Sized xs) inputs /\ In (Sized ys) inputs
                    /\ length xs <> length ys) ->
  exists msg,
    batch_apply fn inputs batch_size description = ([], Raise (RuntimeError msg)).
Proof.
  intro H.
  assert (Hc : exists msg, _check_valid inputs = Raise (RuntimeError msg)).
  { destruct (unsized_dec A inputs) as [Hu | Hu].
    - eexists. apply check_valid_unsized. exact Hu.
    - destruct H as [H | [xs [ys [Hx [Hy Hne]]]]]; [contradiction |].
      eexists. apply (check_valid_differ A inputs xs ys); assumption. }
  destruct Hc as [msg Hc]. exists msg.
  unfold batch_apply. rewrite Hc. reflexivity.
Qed.

Lemma batch_apply_rejects_bad_lengths_witness :
  exists msg,
    batch_apply (R := Z) (Some (fun _ => ret ONone)) [Sized [1; 2]; Sized [1]] 1 None
    = ([], Raise (RuntimeError msg)).
Proof.
  apply batch_apply_rejects_bad_lengths.
  right. exists [1; 2], [1]. simpl. repeat split.
  - left. reflexivity.
  - right. left. reflexivity.
  - discriminate.
Defined.

(** ** attack/base.py: construction *)

Section Construction.

Variables Latent Image Score : Type.

Lemma preprocess_rejected (cfg : ImageClassifierAttackConfig Latent Image Score) :
  rejected cfg = true ->
  exists msg, _preprocess_config cfg = ([], Raise (RuntimeError msg)).
Proof.
  unfold rejected, _preprocess_config. intro H.
  destruct ((save_optimized_images cfg || save_final_images cfg)
            && falsy (save_dir cfg)); [eexists; reflexivity |].
  destruct (is_none (sample_latents_fn cfg)); [eexists; reflexivity |].
  destruct (is_none (optimize_fn cfg)); [eexists; reflexivity |].
  destruct (final_num cfg); [discriminate | eexists; reflexivity].
Qed.

(** What [_preprocess_config] computes on a configuration it accepts,
    from the three counts after the defaults were filled in. *)
Lemma preprocess_accepted
      (cfg cfg' : ImageClassifierAttackConfig Latent Image Score) (l : list event) :
  _preprocess_config cfg = (l, Ok cfg') ->
  exists final : Z,
    final_num cfg = Some final
    /\ let initial := match initial_num cfg with None => final | Some n => n end in
       let optimize := match optimize_num cfg with None => final | Some n => n end in
       let optimize' := if optimize <? final then final else optimize in
       let initial' := if initial <? optimize' then optimize' else initial in
       final_num cfg' = Some final
       /\ optimize_num cfg' = Some optimize'
       /\ initial_num cfg' = Some initial'
       /\ l = (if optimize <? final
               then [Warned "the final number is larger than the optimize number, automatically set the latter to the fronter"]
               else [])
              ++ (if initial <? optimize'
                  then [Warned "the optimize number is larger than the initial number, automatically set the latter to the fronter"]
                  else []).
Proof.
  unfold _preprocess_config.
  destruct ((save_optimized_images cfg || save_final_images cfg)
            && falsy (save_dir cfg)); [discriminate |].
  destruct (is_none (sample_latents_fn cfg)); [discriminate |].
  destruct (is_none (optimize_fn cfg)); [discriminate |].
  destruct (final_num cfg) as [final |]; [| discriminate].
  intro H. exists final. split; [reflexivity |]. cbv zeta.
  set (initial := match initial_num cfg with None => final | Some n => n end) in *.
  set (optimize := match optimize_num cfg with None => final | Some n => n end) in *.
  set (c1 := optimize <? final) in *. destruct c1; simpl in H.
  - set (c2 := initial <? final) in *. destruct c2; simpl in H;
      inversion H; subst; repeat split; reflexivity.
  - set (c2 := initial <? optimize) in *. destruct c2; simpl in H;
      inversion H; subst; repeat split; reflexivity.
Qed.

(** A configuration that is not rejected is accepted. *)
Lemma preprocess_total (cfg : ImageClassifierAttackConfig Latent Image Score) :
  rejected cfg = false ->
  exists l cfg', _preprocess_config cfg = (l, Ok cfg').
Proof.
  unfold rejected, _preprocess_config. intro H.
  destruct ((save_optimized_images cfg || save_final_images cfg)
            && falsy (save_dir cfg)); [discriminate |].
  destruct (is_none (sample_latents_fn cfg)); [discriminate |].
  destruct (is_none (optimize_fn cfg)); [discriminate |].
  destruct (final_num cfg) as [final |]; [| discriminate].
  set (initial := match initial_num cfg with None => final | Some n => n end).
  set (optimize := match optimize_num cfg with None => final | Some n => n end).
  set (c1 := optimize <? final). destruct c1; simpl.
  - set (c2 := initial <? final). destruct c2; simpl; eexists; eexists; reflexivity.
  - set (c2 := initial <? optimize). destruct c2; simpl; eexists; eexists; reflexivity.
Qed.

End Construction.

(** C8.  Constructing the attacker, [ImageClassifierAttacker(config,
    metrics)], raises [TypeError] for every configuration, a complete one
    included, before [__init__] and [_preprocess_config] run: the
    configuration error is never what construction raises.  [__init__]
    itself, were it reached, raises that [RuntimeError] before anything
    else happened (no event) for a configuration that asks to save
    optimized or final images without a [save_dir] ([None], or the empty
    string) or that leaves [sample_latents_fn], [optimize_fn] or
    [final_num] unset; with the save flags it is the [save_dir] error,
    whatever else is missing. *)
Theorem construct_raises_type_error :
  (forall (Latent Image Score Value : Type)
          (cfg : ImageClassifierAttackConfig Latent Image Score)
          (ms : list (metric Image Value)),
      (exists msg, construct cfg ms = ([], Raise (TypeError msg)))
      /\ (forall msg, outcome (construct cfg ms) <> Raise (RuntimeError msg)))
  /\ (forall (Latent Image Score Value : Type)
             (cfg : ImageClassifierAttackConfig Latent Image Score)
             (ms : list (metric Image Value)),
         ((save_optimized_images cfg = true \/ save_final_images cfg = true)
          /\ falsy (save_dir cfg) = true)
         \/ sample_latents_fn cfg = None
         \/ optimize_fn cfg = None
         \/ final_num cfg = None ->
         (exists msg, attacker_init cfg ms = ([], Raise (RuntimeError msg)))
         /\ ((save_optimized_images cfg = true \/ save_final_images cfg = true)
             /\ falsy (save_dir cfg) = true ->
             attacker_init cfg ms = ([], Raise (RuntimeError "`save_dir` is not set"))))
  /\ (exists msg,
         construct (Value := Z) (sample_config None None (Some 50) None true) []
         = ([], Raise (TypeError msg)))
  /\ (exists msg,
         construct (Value := Z) (sample_config (Some 20) (Some 10) (Some 5) None false) []
         = ([], Raise (TypeError msg))).
Proof.
  split; [| split; [| split]].
  - intros Latent Image Score Value cfg ms. split.
    + eexists. reflexivity.
    + intros msg H. discriminate H.
  - intros Latent Image Score Value cfg ms H. split.
    + destruct (preprocess_rejected Latent Image Score cfg) as [msg Hm].
      * unfold rejected.
        destruct H as [[Hs Hd] | [H | [H | H]]].
        -- rewrite Hd. destruct Hs as [Hs | Hs]; rewrite Hs;
             [| rewrite orb_true_r]; reflexivity.
        -- rewrite H. simpl. rewrite orb_true_r. reflexivity.
        -- rewrite H. simpl. rewrite !orb_true_r. reflexivity.
        -- rewrite H. simpl. rewrite !orb_true_r. reflexivity.
      * exists msg. unfold attacker_init. rewrite Hm. reflexivity.
    + intros [Hs Hd]. unfold attacker_init, _preprocess_config.
      rewrite Hd. destruct Hs as [Hs | Hs]; rewrite Hs;
        [| rewrite orb_true_r]; reflexivity.
  - eexists. reflexivity.
  - eexists. reflexivity.
Qed.

(** C5.  [_preprocess_config] returns for every configuration it does not
    reject, and the counts of what it returns satisfy
    [final_num <= optimize_num <= initial_num]; starting from 5, 10 and 20
    nothing is raised, the two warnings are emitted and the three counts
    are 20.  This is the method as [__init__] calls it; no configuration
    reaches it through the class call, which raises first (C8). *)
Theorem preprocess_config_orders_counts
        (Latent Image Score : Type)
        (cfg : ImageClassifierAttackConfig Latent Image Score) :
  rejected cfg = false ->
  exists (l : list event) (cfg' : ImageClassifierAttackConfig Latent Image Score),
    _preprocess_config cfg = (l, Ok cfg')
    /\ (exists initial optimize final : Z,
           initial_num cfg' = Some initial
           /\ optimize_num cfg' = Some optimize
           /\ final_num cfg' = Some final
           /\ final <= optimize <= initial)
    /\ (initial_num cfg = Some 5 -> optimize_num cfg = Some 10 ->
        final_num cfg = Some 20 ->
        initial_num cfg' = Some 20
        /\ optimize_num cfg' = Some 20
        /\ final_num cfg' = Some 20
        /\ l = [Warned "the final number is larger than the optimize number, automatically set the latter to the fronter";
                Warned "the optimize number is larger than the initial number, automatically set the latter to the fronter"]).
Proof.
  intro Hacc.
  destruct (preprocess_total Latent Image Score cfg Hacc) as [l [cfg' E]].
  exists l, cfg'. split; [exact E |].
  destruct (preprocess_accepted Latent Image Score cfg cfg' l E)
    as [final [Hf H]].
  cbv zeta in H. destruct H as [Hf' [Ho' [Hi' Hl]]].
  split.
  - eexists _, _, final. repeat split; try eassumption.
    + destruct (_ <? final) eqn:E1; [lia | apply Z.ltb_ge in E1; exact E1].
    + match goal with
      | |- ?o <= (if ?i <? ?o then _ else _) =>
          destruct (i <? o) eqn:E2; [lia | apply Z.ltb_ge in E2; exact E2]
      end.
  - intros Hi Ho Hfin. rewrite Hfin in Hf. inversion Hf; subst final.
    rewrite Hi, Ho in *. simpl in *.
    repeat split; assumption.
Qed.

Lemma preprocess_config_orders_counts_witness :
  exists (l : list event) (cfg' : ImageClassifierAttackConfig Z Z Q),
    _preprocess_config (sample_config (Some 5) (Some 10) (Some 20) None false)
    = (l, Ok cfg')
    /\ initial_num cfg' = Some 20
    /\ optimize_num cfg' = Some 20
    /\ final_num cfg' = Some 20
    /\ l = [Warned "the final number is larger than the optimize number, automatically set the latter to the fronter";
            Warned "the optimize number is larger than the initial number, automatically set the latter to the fronter"].
Proof.
  destruct (preprocess_config_orders_counts Z Z Q
              (sample_config (Some 5) (Some 10) (Some 20) None false)
              eq_refl)
    as [l [cfg' [Hrun [_ H]]]].
  exists l, cfg'. split; [exact Hrun |].
  exact (H eq_refl eq_refl eq_refl).
Defined.

(** ** attack/base.py: selection *)

Section Selection.

Variables Latent Image Score Value : Type.
Variable score_leb : Score -> Score -> bool.

Lemma combine_append (X Y : Type) (a b : list X) (c d : list Y) :
  length a = length c ->
  combine (a ++ b) (c ++ d) = combine a c ++ combine b d.
Proof.
  revert c. induction a as [| x a IH]; intros [| y c] H; try discriminate.
  - reflexivity.
  - simpl. rewrite IH; [reflexivity |]. simpl in H. congruence.
Qed.

(** What the loop body of [concat_tensor_labels] accumulates over entries
    [(target, latents)]: the batches in the order of the entries, and
    labels aligned with their rows.  Nothing orders the entries by
    label. *)
Lemma flatten_step_aligned (X : Type) (entries : list (Z * list X))
      (tensors : list (list X)) (labels : list Z) :
  length (concat tensors) = length labels ->
  let (tensors', labels') := fold_left flatten_step entries (tensors, labels) in
  tensors' = tensors ++ List.map snd entries
  /\ combine (concat tensors') labels'
     = combine (concat tensors) labels
       ++ flat_map (fun entry => List.map (fun row => (row, fst entry)) (snd entry))
                   entries.
Proof.
  revert tensors labels.
  induction entries as [| [target latents] tl IH]; intros tensors labels Hlen.
  - simpl. rewrite !app_nil_r. split; reflexivity.
  - simpl fold_left.
    specialize (IH (tensors ++ [latents]) (labels ++ repeat target (length latents))).
    destruct (fold_left flatten_step tl _) as [tensors' labels'].
    destruct IH as [Ht Hc].
    + rewrite concat_app, !length_app, repeat_length. simpl.
      rewrite app_nil_r. rewrite Hlen. reflexivity.
    + split.
      * rewrite Ht. rewrite <- app_assoc. reflexivity.
      * rewrite Hc. simpl flat_map. rewrite app_assoc. f_equal.
        rewrite concat_app. simpl concat. rewrite app_nil_r.
        rewrite combine_append by exact Hlen. f_equal.
        clear. induction latents as [| row rows IHr]; [reflexivity |].
        simpl. rewrite IHr. reflexivity.
Qed.

(** [concat_tensor_labels] raises on every mapping: on the first key when
    there is one, in [torch.cat] otherwise. *)
Lemma concat_tensor_labels_raises (X : Type) (target_dict : list (Z * list X)) :
  concat_tensor_labels target_dict
  = ([], Raise (match target_dict with
                | [] => RuntimeError "torch.cat(): expected a non-empty list of Tensors"
                | _ :: _ => TypeError "cannot unpack non-iterable int object"
                end)).
Proof. destruct target_dict as [| [k v] tl]; reflexivity. Qed.

(** [initial_latents] raises on every input: what follows [batch_apply]
    is [range(labels)]. *)
Lemma initial_latents_raises
      (self : ImageClassifierAttacker Latent Image Score Value)
      (batch_size sample_num select_num : Z)
      (labels : list Z) (latent_score_fn : scorer Latent Image Score) :
  returns (initial_latents score_leb self batch_size sample_num select_num
                           labels latent_score_fn) = false.
Proof.
  unfold initial_latents.
  apply not_returns_bind; intro sample_num'.
  apply not_returns_bind; intro calls.
  apply not_returns_bind; intro raw_latents.
  apply not_returns_bind; intro scores.
  reflexivity.
Qed.

(** The early return of [final_selection]. *)
Lemma final_selection_early
      (self : ImageClassifierAttacker Latent Image Score Value)
      (batch_size final_num : Z)
      (images : list Image) (labels : list Z)
      (image_score_fn : scorer Latent Image Score) :
  length images = length labels ->
  final_num = Z.of_nat (length images) \/ image_score_fn = None ->
  final_selection score_leb self batch_size final_num images labels image_score_fn
  = (if final_num =? Z.of_nat (length images)
     then []
     else [Warned "no score function but final num is not equal to the number of latents"],
     Ok (OnlyImages images)).
Proof.
  intros Hlen H. unfold final_selection.
  rewrite Hlen, Nat.eqb_refl. rewrite bind_ret. rewrite <- Hlen.
  destruct (final_num =? Z.of_nat (length images)) eqn:E.
  - simpl. rewrite E. reflexivity.
  - destruct H as [H | H]; [apply Z.eqb_neq in E; contradiction |].
    subst image_score_fn. simpl. rewrite Z.eqb_refl. reflexivity.
Qed.

(** The scored path of [final_selection]: the score function is the first
    positional input of [batch_apply], and it has no [len]. *)
Lemma final_selection_scored
      (self : ImageClassifierAttacker Latent Image Score Value)
      (batch_size final_num : Z)
      (images : list Image) (labels : list Z)
      (f : list (list (cell Latent Image)) -> M (output Score)) :
  length images = length labels ->
  final_num <> Z.of_nat (length images) ->
  final_selection score_leb self batch_size final_num images labels (Some f)
  = ([Printed "execute final selection" IO.newline],
     Raise (RuntimeError "some inputs have no attr `len`")).
Proof.
  intros Hlen H. unfold final_selection.
  rewrite Hlen, Nat.eqb_refl. rewrite bind_ret. rewrite <- Hlen.
  apply Z.eqb_neq in H. rewrite H. simpl. rewrite H. reflexivity.
Qed.

End Selection.

(** C2.  [initial_latents] with a score function never returns a
    selection: it raises on every input.  In the scenario of the spec
    (labels 3 and 7, two candidates scored 0.1 and 0.9, one to keep) the
    candidates are sampled and scored in one chunk, and [range(labels)]
    raises [TypeError] before any candidate is ranked. *)
Theorem initial_latents_scored_raises :
  (forall (Latent Image Score Value : Type) (score_leb : Score -> Score -> bool)
          (self : ImageClassifierAttacker Latent Image Score Value)
          (batch_size sample_num select_num : Z) (labels : list Z)
          (f : list (list (cell Latent Image)) -> M (output Score)),
      returns (initial_latents score_leb self batch_size sample_num select_num
                               labels (Some f)) = false)
  /\ initial_latents Qle_bool scenario_attacker 2 2 1 [3; 7] scenario_scorer
     = ([Sampled 2; Invoked 0 2],
        Raise (TypeError "'list' object cannot be interpreted as an integer")).
Proof.
  split.
  - intros. apply initial_latents_raises.
  - reflexivity.
Qed.

(** C3.  [initial_latents] without a score function and with
    [sample_num = select_num] calls the sampler twice, for the same
    number of latents, hands the latents of the second call to
    [batch_apply] with [None] as the function, and raises: the latents of
    the first call are not returned, and nothing else is. *)
Theorem initial_latents_unscored_resamples
        (Latent Image Score Value : Type) (score_leb : Score -> Score -> bool)
        (self : ImageClassifierAttacker Latent Image Score Value)
        (f : sampler Latent) (batch_size n : Z) (labels : list Z) :
  sample_latents_fn (config self) = Some f ->
  initial_latents score_leb self batch_size n n labels None
  = let scoring := batch_apply (R := Score) None
                     [Sized (List.map (@CLatent Latent Image) (f 1%nat n));
                      Sized (List.map (@CLabel Latent Image) labels)]
                     batch_size None in
    (Sampled n :: Sampled n :: events scoring,
     match outcome scoring with
     | Ok _ => Raise (TypeError "'list' object cannot be interpreted as an integer")
     | Raise e => Raise e
     end).
Proof.
  intro Hf. unfold initial_latents.
  rewrite Z.ltb_irrefl. rewrite bind_ret. simpl is_none. simpl orb. cbv iota.
  rewrite Z.ltb_irrefl. rewrite bind_ret.
  unfold sample. rewrite Hf. cbv zeta.
  destruct (batch_apply (R := Score) None
              [Sized (List.map (@CLatent Latent Image) (f 1%nat n));
               Sized (List.map (@CLabel Latent Image) labels)]
              batch_size None) as [l [scores | e]] eqn:E.
  - simpl. rewrite E. simpl. rewrite app_nil_r. reflexivity.
  - simpl. rewrite E. reflexivity.
Qed.

Lemma initial_latents_unscored_resamples_witness :
  initial_latents Qle_bool scenario_attacker 1 1 1 [3] None
  = ([Sampled 1; Sampled 1], Raise (TypeError "'NoneType' object is not callable")).
Proof.
  exact (initial_latents_unscored_resamples Z Z Q Z Qle_bool scenario_attacker
           (fun (call : nat) (n : Z) => repeat (Z.of_nat call) (Z.to_nat n))
           1 1 [3] eq_refl).
Defined.

(** C4.  On its early return ([final_num] equal to the number of images,
    or no score function) [final_selection] returns the [images] tensor
    alone: the labels are not part of the value.  The only event is the
    warning, when the counts differ. *)
Theorem final_selection_returns_images_only
        (Latent Image Score Value : Type) (score_leb : Score -> Score -> bool)
        (self : ImageClassifierAttacker Latent Image Score Value)
        (batch_size final_num : Z) (images : list Image) (labels : list Z)
        (image_score_fn : scorer Latent Image Score) :
  length images = length labels ->
  final_num = Z.of_nat (length images) \/ image_score_fn = None ->
  final_selection score_leb self batch_size final_num images labels image_score_fn
  = (if final_num =? Z.of_nat (length images)
     then []
     else [Warned "no score function but final num is not equal to the number of latents"],
     Ok (OnlyImages images))
  /\ outcome (final_selection score_leb self batch_size final_num images labels
                              image_score_fn)
     <> Ok (ImagesAndLabels images labels).
Proof.
  intros Hlen H.
  rewrite (final_selection_early Latent Image Score Value score_leb self
             batch_size final_num images labels image_score_fn Hlen H).
  split; [reflexivity | discriminate].
Qed.

Lemma final_selection_returns_images_only_witness :
  final_selection Qle_bool scenario_attacker 5 1 [5] [3] None
  = ([], Ok (OnlyImages [5]))
  /\ outcome (final_selection Qle_bool scenario_attacker 5 1 [5] [3] None)
     <> Ok (ImagesAndLabels [5] [3]).
Proof.
  exact (final_selection_returns_images_only Z Z Q Z Qle_bool scenario_attacker
           5 1 [5] [3] None eq_refl (or_introl eq_refl)).
Defined.

(** C6.  [concat_tensor_labels] returns no pair: it raises on every
    mapping.  On the mapping of label 3 to two rows and label 7 to one row
    the first key cannot be unpacked. *)
Theorem concat_tensor_labels_never_returns :
  (forall (X : Type) (target_dict : list (Z * list X)),
      returns (concat_tensor_labels target_dict) = false)
  /\ concat_tensor_labels [(3, [10; 11]); (7, [12])]
     = ([], Raise (TypeError "cannot unpack non-iterable int object")).
Proof.
  split.
  - intros X target_dict. rewrite concat_tensor_labels_raises. reflexivity.
  - reflexivity.
Qed.

(** ** attack/losses.py: the compose loss *)

Section ComposeFacts.

Variable S : Type.
Variable zero one : S.
Variable add mul : S -> S -> S.
Variables Images Labels : Type.

Lemma od_get_set_same (k : string) (v : S) (d : Losses.odict S) :
  Losses.od_get k (Losses.od_set k v d) = Some v.
Proof.
  induction d as [| [k' v'] tl IH]; simpl.
  - rewrite String.eqb_refl. reflexivity.
  - destruct (String.eqb k k') eqn:E; simpl.
    + rewrite String.eqb_refl. reflexivity.
    + rewrite E. exact IH.
Qed.

Lemma od_get_set_other (k k' : string) (v : S) (d : Losses.odict S) :
  k <> k' -> Losses.od_get k (Losses.od_set k' v d) = Losses.od_get k d.
Proof.
  intro H. apply String.eqb_neq in H.
  induction d as [| [k0 v0] tl IH]; simpl.
  - rewrite H. reflexivity.
  - destruct (String.eqb k' k0) eqn:E; simpl.
    + apply String.eqb_eq in E. subst k0. rewrite H. reflexivity.
    + destruct (String.eqb k k0); [reflexivity | exact IH].
Qed.

Lemma od_get_update (k : string) (single_dict d : Losses.odict S) :
  Losses.od_get k (Losses.od_update d single_dict)
  = match latest k single_dict with
    | Some v => Some v
    | None => Losses.od_get k d
    end.
Proof.
  unfold Losses.od_update. revert d.
  induction single_dict as [| [k' v'] tl IH]; intro d; simpl; [reflexivity |].
  rewrite IH. destruct (latest k tl); [reflexivity |].
  destruct (String.eqb k k') eqn:E.
  - apply String.eqb_eq in E. subst k'. apply od_get_set_same.
  - apply String.eqb_neq in E. apply od_get_set_other. exact E.
Qed.

Lemma od_update_app (d a b : Losses.odict S) :
  Losses.od_update d (a ++ b) = Losses.od_update (Losses.od_update d a) b.
Proof. unfold Losses.od_update. apply fold_left_app. Qed.

(** The loop of [forward], its two accumulators apart. *)
Lemma forward_loop (images : Images) (labels : Labels)
      (pairs : list (Losses.lossfn S Images Labels * S)) (acc : S) (d : Losses.odict S) :
  fold_left (Losses.forward_step add mul images labels) pairs (acc, d)
  = (fold_left (fun a lw => add a (mul (snd lw) (loss_value (fst lw images labels))))
               pairs acc,
     Losses.od_update d (reported images labels pairs)).
Proof.
  revert acc d. induction pairs as [| [fn w] tl IH]; intros acc d; [reflexivity |].
  simpl fold_left. unfold reported. simpl flat_map. rewrite od_update_app.
  fold (reported images labels tl). rewrite <- IH. f_equal.
  unfold Losses.forward_step.
  destruct (fn images labels) as [loss | loss single_dict]; reflexivity.
Qed.

(** An entry is the latest under its key when every entry under that key
    carries the same value. *)
Lemma latest_unique (k : string) (v : S) (entries : Losses.odict S) :
  In (k, v) entries ->
  (forall v', In (k, v') entries -> v' = v) ->
  latest k entries = Some v.
Proof.
  induction entries as [| [k' v'] tl IH]; intros Hin Hu; [contradiction |].
  simpl. destruct (latest k tl) as [w |] eqn:E.
  - assert (Hw : In (k, w) tl).
    { clear - E. induction tl as [| [k0 v0] tl IH]; [discriminate |].
      simpl in E. destruct (latest k tl) as [w' |].
      - inversion E; subst. right. apply IH. reflexivity.
      - destruct (String.eqb k k0) eqn:E0; [| discriminate].
        apply String.eqb_eq in E0. inversion E; subst. left. reflexivity. }
    rewrite (Hu w (or_intror Hw)). reflexivity.
  - destruct Hin as [Hin | Hin].
    + inversion Hin; subst. rewrite String.eqb_refl. reflexivity.
    + assert (H2 : None = Some v).
      { apply IH; [exact Hin |]. intros v0 H0. apply Hu. right. exact H0. }
      discriminate H2.
Qed.

End ComposeFacts.

(** C7 (as the code has it).  For a [ComposeImageLoss] that was
    constructed, [forward] returns the sum [0.0 + w1 * l1 + ... + wn * ln]
    over all sub-losses and a mapping whose ['compose loss'] entry is that
    sum; under any other key the mapping holds the value of the last
    sub-loss entry reported under it, so an entry whose key no other
    entry shares is there with its own value. *)
Theorem compose_forward_weighted_sum
        (S : Type) (zero one : S) (add mul : S -> S -> S) (Images Labels : Type)
        (ls : list (Losses.lossfn S Images Labels)) (ws : option (list S))
        (c : Losses.ComposeImageLoss S Images Labels)
        (images : Images) (labels : Labels) :
  Losses.compose_init one ls ws = Ok c ->
  let pairs := combine (Losses.losses c) (Losses.weights c) in
  let total := weighted_sum zero add mul images labels pairs in
  let entries := reported images labels pairs in
  Losses.losses c = ls
  /\ length pairs = length ls
  /\ exists return_dict,
      Losses.forward zero add mul c images labels = Ok (total, return_dict)
      /\ Losses.od_get Losses.compose_key return_dict = Some total
      /\ (forall k, k <> Losses.compose_key ->
                    Losses.od_get k return_dict = latest k entries)
      /\ (forall k v, k <> Losses.compose_key ->
                      In (k, v) entries ->
                      (forall v', In (k, v') entries -> v' = v) ->
                      Losses.od_get k return_dict = Some v).
Proof.
  intros Hinit pairs total entries.
  unfold Losses.compose_init in Hinit.
  destruct (Nat.eqb (length ls) 0) eqn:E0; [discriminate |].
  destruct (Nat.eqb (length _) (length ls)) eqn:E1; [| discriminate].
  simpl in Hinit. inversion Hinit; subst c; clear Hinit.
  apply Nat.eqb_eq in E1. apply Nat.eqb_neq in E0.
  simpl Losses.losses in *. simpl Losses.weights in *.
  assert (Hlen : length pairs = length ls).
  { unfold pairs. rewrite length_combine, E1. apply Nat.min_id. }
  split; [reflexivity |]. split; [exact Hlen |].
  unfold Losses.forward. simpl Losses.losses. simpl Losses.weights.
  fold pairs. rewrite forward_loop. fold entries.
  change (fold_left _ pairs zero) with total.
  destruct pairs as [| p tl] eqn:Ep; [simpl in Hlen; lia |]. rewrite <- Ep in *.
  assert (Hget : forall k, k <> Losses.compose_key ->
                           Losses.od_get k
                             (Losses.od_set Losses.compose_key total
                                (Losses.od_update [(Losses.compose_key, zero)] entries))
                           = latest k entries).
  { intros k Hk. rewrite od_get_set_other by exact Hk.
    rewrite od_get_update. destruct (latest k entries); [reflexivity |].
    simpl. apply String.eqb_neq in Hk. rewrite Hk. reflexivity. }
  eexists. split; [reflexivity |]. split; [apply od_get_set_same |].
  split; [exact Hget |].
  intros k v Hk Hin Hu. rewrite (Hget k Hk). apply latest_unique; assumption.
Qed.

(** The example of the spec: weights 1 and 2, sub-losses 3 and 4 reported
    under two keys; the compose loss is 11. *)
Lemma compose_forward_weighted_sum_witness :
  exists return_dict,
    Losses.forward 0%Q Qplus Qmult (compose_of "first loss" "second loss") tt tt
    = Ok ((11 # 1)%Q, return_dict)
    /\ Losses.od_get "compose loss" return_dict = Some (11 # 1)%Q
    /\ Losses.od_get "first loss" return_dict = Some (3 # 1)%Q
    /\ Losses.od_get "second loss" return_dict = Some (4 # 1)%Q.
Proof.
  destruct (compose_forward_weighted_sum Q 0%Q 1%Q Qplus Qmult unit unit
              [const_loss "first loss" (3 # 1); const_loss "second loss" (4 # 1)]
              (Some [1 # 1; 2 # 1]%Q)
              (compose_of "first loss" "second loss") tt tt eq_refl)
    as [_ [_ [return_dict [Hf [Hc [_ Hown]]]]]].
  exists return_dict. split; [exact Hf |]. split; [exact Hc |]. split.
  - apply Hown.
    + discriminate.
    + left. reflexivity.
    + intros v' [H | [H | []]]; inversion H. reflexivity.
  - apply Hown.
    + discriminate.
    + right. left. reflexivity.
    + intros v' [H | [H | []]]; inversion H. reflexivity.
Defined.

(** C7 as stated fails when two sub-losses report under one key: with both
    under ["loss"], the first sub-loss's entry (value 3) is not in the
    mapping returned, which holds 4 under that key. *)
Lemma compose_forward_key_collision :
  exists return_dict,
    Losses.forward 0%Q Qplus Qmult (compose_of "loss" "loss") tt tt
    = Ok ((11 # 1)%Q, return_dict)
    /\ In ("loss", (3 # 1)%Q) (diagnostics (const_loss "loss" (3 # 1) tt tt))
    /\ Losses.od_get "loss" return_dict = Some (4 # 1)%Q
    /\ ~ In ("loss", (3 # 1)%Q) return_dict.
Proof.
  eexists. split; [reflexivity |]. split; [left; reflexivity |].
  split; [reflexivity |].
  intros [H | [H | []]]; discriminate H.
Qed.

(** ** utils/batch.py: reassembling the chunk outputs *)

Section GatherFacts.

Variable R : Type.

Lemma rbind_ok_inv {X Y : Type} (r : result X) (k : X -> result Y) (y : Y) :
  rbind r k = Ok y -> exists x, r = Ok x /\ k x = Ok y.
Proof. destruct r as [x | e]; [| discriminate]. intro H. exists x. auto. Qed.

(** The two loops, one turn unfolded. *)
Lemma items_loop_cons (g : output R -> list (output R) -> result (output R))
      (rest : list (output R)) (k : string) (v : output R) (tl : list (string * output R)) :
  items_loop g rest ((k, v) :: tl)
  = (vs <~ rmap (getitem k) rest ;;
     o <~ g v vs ;;
     gs <~ items_loop g rest tl ;;
     Ok ((k, o) :: gs)).
Proof. reflexivity. Qed.

Lemma fields_loop_cons (g : output R -> list (output R) -> result (output R))
      (f : output R) (tl : list (output R)) (cs : list (list (output R))) :
  fields_loop g (f :: tl) cs
  = match heads cs with
    | None => Ok []
    | Some (hs, ts) =>
        o <~ g f hs ;; gs <~ fields_loop g tl ts ;; Ok (o :: gs)
    end.
Proof. reflexivity. Qed.

(** *** A single chunk *)

Lemma items_loop_single (items : list (string * output R)) :
  Forall (fun kv => structured (snd kv) = true ->
                    gather_map (snd kv) [] = Ok (snd kv)) items ->
  forallb (fun kv => structured (snd kv)) items = true ->
  items_loop (@gather_map R) [] items = Ok items.
Proof.
  induction 1 as [| [k v] tl Hv _ IH]; intro Hs; [reflexivity |].
  simpl in Hs. apply andb_prop in Hs. destruct Hs as [Hs1 Hs2].
  rewrite items_loop_cons. simpl rmap. simpl rbind at 1.
  simpl in Hv. rewrite (Hv Hs1). simpl rbind at 1.
  rewrite (IH Hs2). reflexivity.
Qed.

Lemma fields_loop_single (fields : list (output R)) :
  Forall (fun f => structured f = true -> gather_map f [] = Ok f) fields ->
  forallb (@structured R) fields = true ->
  fields_loop (@gather_map R) fields [] = Ok fields.
Proof.
  induction 1 as [| f tl Hf _ IH]; intro Hs; [reflexivity |].
  simpl in Hs. apply andb_prop in Hs. destruct Hs as [Hs1 Hs2].
  rewrite fields_loop_cons. simpl heads. cbv iota beta.
  rewrite (Hf Hs1). simpl rbind at 1.
  rewrite (IH Hs2). reflexivity.
Qed.

(** [_gather] of one structured output is that output. *)
Lemma gather_single (o : output R) :
  structured o = true -> gather_map o [] = Ok o.
Proof.
  induction o as [rows | | items IH | kind fields IH | a] using output_induction;
    intro Hs.
  - simpl. rewrite app_nil_r. reflexivity.
  - reflexivity.
  - simpl. simpl in Hs. rewrite (items_loop_single items IH Hs). reflexivity.
  - simpl. simpl in Hs. rewrite (fields_loop_single fields IH Hs). simpl.
    destruct kind; try reflexivity. rewrite Nat.eqb_refl. reflexivity.
  - discriminate.
Qed.

(** *** One more chunk *)

Lemma gather_map_dict (items : list (string * output R)) (rest : list (output R)) :
  gather_map (ODict items) rest
  = (same <~ all_len (Z.of_nat (length items)) rest ;;
     if negb same
     then Raise (ValueError "All dicts must have the same number of keys")
     else gathered <~ items_loop (@gather_map R) rest items ;;
          Ok (ODict gathered)).
Proof. reflexivity. Qed.

Lemma gather_map_seq (kind : seqkind) (fields : list (output R)) (rest : list (output R)) :
  gather_map (OSeq kind fields) rest
  = (cols <~ rmap (@py_iter R) rest ;;
     gathered <~ fields_loop (@gather_map R) fields cols ;;
     match kind with
     | KNamed _ =>
         if Nat.eqb (length gathered) (length fields)
         then Ok (OSeq kind gathered)
         else Raise (TypeError "_make: wrong number of fields")
     | _ => Ok (OSeq kind gathered)
     end).
Proof. reflexivity. Qed.

Lemma items_loop_length (g : output R -> list (output R) -> result (output R))
      (rest : list (output R)) (items gs : list (string * output R)) :
  items_loop g rest items = Ok gs -> length gs = length items.
Proof.
  revert gs. induction items as [| [k v] tl IH]; intros gs H.
  - inversion H. reflexivity.
  - rewrite items_loop_cons in H.
    apply rbind_ok_inv in H. destruct H as [vs [_ H]].
    apply rbind_ok_inv in H. destruct H as [o [_ H]].
    apply rbind_ok_inv in H. destruct H as [gs' [Hgs H]].
    inversion H. simpl. rewrite (IH gs' Hgs). reflexivity.
Qed.

Lemma items_loop_step (o2 : output R) (rest : list (output R))
      (items : list (string * output R)) :
  Forall (fun kv => absorbs (snd kv)) items ->
  forall g12,
    items_loop (@gather_map R) [o2] items = Ok g12 ->
    items_loop (@gather_map R) (o2 :: rest) items
    = items_loop (@gather_map R) rest g12.
Proof.
  induction 1 as [| [k v] tl Hv _ IH]; intros g12 H.
  - inversion H. reflexivity.
  - rewrite items_loop_cons in H.
    apply rbind_ok_inv in H. destruct H as [vs [Hvs H]].
    apply rbind_ok_inv in H. destruct H as [g [Hg H]].
    apply rbind_ok_inv in H. destruct H as [gs [Hgs H]].
    inversion H; subst g12; clear H.
    simpl in Hvs. destruct (getitem k o2) as [v2 |] eqn:E2; [| discriminate].
    simpl in Hvs. inversion Hvs; subst vs; clear Hvs.
    rewrite !items_loop_cons. simpl rmap. rewrite E2. cbn [rbind].
    destruct (rmap (getitem k) rest) as [vs' | e]; [| reflexivity].
    cbn [rbind].
    change (absorbs v) in Hv. rewrite (Hv v2 g vs' Hg).
    rewrite (IH gs Hgs). reflexivity.
Qed.

Lemma fields_loop_step (fields : list (output R)) :
  Forall absorbs fields ->
  forall (f2 : list (output R)) (cols : list (list (output R))) (g12 : list (output R)),
    fields_loop (@gather_map R) fields [f2] = Ok g12 ->
    fields_loop (@gather_map R) fields (f2 :: cols)
    = fields_loop (@gather_map R) g12 cols.
Proof.
  induction 1 as [| f tl Hf _ IH]; intros f2 cols g12 H.
  - inversion H. reflexivity.
  - rewrite fields_loop_cons in H. rewrite fields_loop_cons.
    destruct f2 as [| h2 t2].
    + simpl in H. inversion H. reflexivity.
    + simpl heads in H. cbv iota beta in H.
      apply rbind_ok_inv in H. destruct H as [g [Hg H]].
      apply rbind_ok_inv in H. destruct H as [gs [Hgs H]].
      inversion H; subst g12; clear H.
      simpl heads. rewrite fields_loop_cons.
      destruct (heads cols) as [[hs ts] |]; [| reflexivity].
      rewrite (Hf h2 g hs Hg). rewrite (IH t2 ts gs Hgs). reflexivity.
Qed.

(** Gathering [o1], [o2] and more is gathering what [o1] and [o2] gather
    to, and the rest. *)
Lemma gather_step (o1 : output R) : absorbs o1.
Proof.
  induction o1 as [rows | | items IH | kind fields IH | a] using output_induction;
    intros o2 o12 rest H.
  - simpl in H. destruct o2 as [rows2 | | | |]; try discriminate.
    simpl in H. inversion H; subst o12; clear H.
    simpl. destruct (rmap (@as_rows R) rest) as [rs | e]; [| reflexivity].
    simpl. rewrite app_nil_r, app_assoc. reflexivity.
  - inversion H. reflexivity.
  - rewrite gather_map_dict in H.
    apply rbind_ok_inv in H. destruct H as [same [Hsame H]].
    destruct same; [| discriminate]. simpl negb in H. cbv iota in H.
    apply rbind_ok_inv in H. destruct H as [g12 [Hg H]].
    inversion H; subst o12; clear H.
    simpl in Hsame. destruct (py_len o2) as [m |] eqn:E2; [| discriminate].
    simpl in Hsame.
    destruct (Z.of_nat (length items) =? m) eqn:Em; [| discriminate].
    rewrite !gather_map_dict. simpl all_len. rewrite E2. cbn [rbind].
    rewrite Em. rewrite (items_loop_length _ _ _ _ Hg).
    destruct (all_len (Z.of_nat (length items)) rest) as [same | e];
      [| reflexivity].
    cbn [rbind]. destruct same; [| reflexivity]. simpl negb. cbv iota.
    rewrite (items_loop_step o2 rest items IH g12 Hg). reflexivity.
  - rewrite gather_map_seq in H.
    apply rbind_ok_inv in H. destruct H as [cols [Hcols H]].
    apply rbind_ok_inv in H. destruct H as [g12 [Hg H]].
    simpl in Hcols. destruct (py_iter o2) as [f2 |] eqn:E2; [| discriminate].
    simpl in Hcols. inversion Hcols; subst cols; clear Hcols.
    rewrite gather_map_seq. simpl rmap. rewrite E2. cbn [rbind].
    assert (Ho : o12 = OSeq kind g12
                 /\ match kind with
                    | KNamed _ => length g12 = length fields
                    | _ => True
                    end).
    { destruct kind as [| | cls].
      - inversion H. split; [reflexivity | exact I].
      - inversion H. split; [reflexivity | exact I].
      - destruct (Nat.eqb (length g12) (length fields)) eqn:El; [| discriminate].
        inversion H. apply Nat.eqb_eq in El. split; [reflexivity | exact El]. }
    destruct Ho as [Ho Hl]. subst o12. rewrite gather_map_seq.
    destruct (rmap (@py_iter R) rest) as [cols | e]; [| reflexivity].
    cbn [rbind].
    rewrite (fields_loop_step fields IH f2 cols g12 Hg).
    destruct (fields_loop (@gather_map R) g12 cols) as [gathered | e];
      [| reflexivity].
    cbn [rbind]. destruct kind as [| | cls]; try reflexivity.
    rewrite Hl. reflexivity.
  - discriminate.
Qed.

End GatherFacts.

(** ** utils/batch.py: the chunks *)

Section BatchFacts.

Variables A R : Type.

Lemma map_m_events {X Y : Type} (g : X -> M Y) (ev : X -> list event) (h : X -> Y)
      (xs : list X) :
  (forall x, g x = (ev x, Ok (h x))) ->
  map_m g xs = (flat_map ev xs, Ok (List.map h xs)).
Proof.
  intro H. induction xs as [| x tl IH]; [reflexivity |].
  simpl. rewrite H, IH. rewrite !bind_ok. simpl. rewrite app_nil_r. reflexivity.
Qed.

Lemma map_enumerate {Y : Type} (h : Z -> Y) (i : Z) (starts : list Z) :
  List.map (fun p : Z * Z => h (snd p)) (enumerate i starts) = List.map h starts.
Proof.
  revert i. induction starts as [| s tl IH]; intro i; [reflexivity |].
  simpl. rewrite IH. reflexivity.
Qed.

Lemma rmap_slice_sized (xss : list (list A)) (start stop : Z) :
  rmap (fun p => slice p start stop) (List.map (@Sized A) xss)
  = Ok (slices_of xss start stop).
Proof.
  induction xss as [| xs tl IH]; [reflexivity |].
  simpl. rewrite IH. reflexivity.
Qed.

(** [batch_apply] on a function that returns on every slice, whatever
    it prints, and inputs of one length: one call per chunk, each followed
    by the events of the function, then [_gather]. *)
Lemma batch_apply_returning (g : list (list A) -> M (output R))
      (f : list (list A) -> output R) (xss : list (list A)) (n B : Z) :
  xss <> [] ->
  (forall xs, In xs xss -> Z.of_nat (length xs) = n) ->
  B <> 0 ->
  (forall slices, outcome (g slices) = Ok (f slices)) ->
  batch_apply (Some g) (List.map (@Sized A) xss) B None
  = (flat_map (fun c => invoked c :: events (g (slices_of xss (fst c) (snd c))))
              (chunk_bounds n B),
     _gather (List.map (fun c => f (slices_of xss (fst c) (snd c)))
                       (chunk_bounds n B))).
Proof.
  intros Hne Hlen HB Hret. unfold batch_apply.
  rewrite (check_valid_same A xss n Hlen). rewrite bind_lift_ok.
  destruct xss as [| xs tl]; [contradiction |].
  simpl List.map at 1. cbv iota. simpl arg_len.
  rewrite (Hlen xs (or_introl eq_refl)). rewrite bind_lift_ok.
  unfold chunk_bounds.
  destruct (range3 0 n B) as [starts | e] eqn:Er.
  - rewrite bind_lift_ok.
    rewrite (map_m_events
               _ (fun p : Z * Z =>
                    invoked (snd p, Z.min n (snd p + B))
                    :: events (g (slices_of (xs :: tl) (snd p) (Z.min n (snd p + B)))))
               (fun p : Z * Z => f (slices_of (xs :: tl) (snd p) (Z.min n (snd p + B))))).
    + rewrite bind_ok. simpl events. simpl outcome. rewrite app_nil_r.
      rewrite (map_enumerate (fun s => f (slices_of (xs :: tl) s (Z.min n (s + B))))).
      rewrite !flat_map_concat_map. rewrite !map_map.
      rewrite (map_enumerate
                 (fun s => invoked (s, Z.min n (s + B))
                           :: events (g (slices_of (xs :: tl) s (Z.min n (s + B)))))).
      reflexivity.
    + intros [i start]. rewrite bind_ret.
      change (Sized xs :: List.map (@Sized A) tl)
        with (List.map (@Sized A) (xs :: tl)).
      rewrite rmap_slice_sized. rewrite bind_lift_ok. cbn [fst snd].
      unfold call, invoked. cbn [fst snd].
      specialize (Hret (slices_of (xs :: tl) start (Z.min n (start + B)))).
      destruct (g (slices_of (xs :: tl) start (Z.min n (start + B)))) as [l r].
      simpl in Hret. subst r. reflexivity.
  - unfold range3 in Er. apply Z.eqb_neq in HB. rewrite HB in Er. discriminate.
Qed.

End BatchFacts.

Section ChunkFacts.

Variables A R : Type.

Lemma chunk_bounds_seq (n B : Z) :
  1 <= n -> 1 <= B ->
  chunk_bounds n B = List.map (chunk n B) (seq 0 (S (Z.to_nat ((n - 1) / B)))).
Proof.
  intros Hn HB. unfold chunk_bounds, range3.
  replace (B =? 0) with false by (symmetry; apply Z.eqb_neq; lia).
  replace (0 <? B) with true by (symmetry; apply Z.ltb_lt; lia).
  replace (0 <? n) with true by (symmetry; apply Z.ltb_lt; lia).
  assert (Hq : 0 <= (n - 1) / B) by (apply Z.div_pos; lia).
  replace (Z.to_nat ((n - 0 - 1) / B + 1)) with (S (Z.to_nat ((n - 1) / B))).
  - rewrite map_map. apply map_ext. intro i. unfold chunk. simpl. reflexivity.
  - replace (n - 0 - 1) with (n - 1) by lia.
    rewrite Z2Nat.inj_add by lia. simpl. lia.
Qed.

(** The last chunk stops at [n]; the chunks before it are full. *)
Lemma quotient_bounds (n B : Z) :
  1 <= n -> 1 <= B ->
  let q := (n - 1) / B in
  0 <= q /\ q * B <= n - 1 /\ n - 1 < q * B + B.
Proof.
  intros Hn HB q. subst q.
  pose proof (Z.div_pos (n - 1) B ltac:(lia) ltac:(lia)) as H0.
  pose proof (Z.mul_div_le (n - 1) B ltac:(lia)) as H1.
  pose proof (Z.mul_succ_div_gt (n - 1) B ltac:(lia)) as H2.
  repeat split; [exact H0 | lia | lia].
Qed.

Lemma tiles_chunks (n B : Z) (d m : nat) :
  1 <= n -> 1 <= B ->
  (m + d)%nat = Z.to_nat ((n - 1) / B) ->
  tiles B (Z.of_nat m * B) (List.map (chunk n B) (seq m (S d))) n.
Proof.
  intros Hn HB. destruct (quotient_bounds n B Hn HB) as [Hq0 [Hq1 Hq2]].
  revert m. induction d as [| d IH]; intros m Hm.
  - assert (Em : Z.of_nat m = (n - 1) / B) by lia.
    simpl. rewrite Em. rewrite Z.min_l by lia.
    split; [reflexivity |]. split; [lia |]. split; [| reflexivity].
    destruct (Z.eq_dec (n - (n - 1) / B * B) B) as [E | E];
      [left; exact E | right; split; [lia | reflexivity]].
  - assert (Em : Z.of_nat m + 1 <= (n - 1) / B) by lia.
    assert (Hfull : Z.of_nat m * B + B <= n - 1) by nia.
    change (seq m (S (S d))) with (m :: seq (S m) (S d)).
    rewrite map_cons. unfold chunk at 1. cbn [tiles].
    rewrite Z.min_r by lia.
    split; [reflexivity |]. split; [lia |]. split; [left; lia |].
    replace (Z.of_nat m * B + B) with (Z.of_nat (S m) * B) by lia.
    apply IH. lia.
Qed.

Lemma slice_list_all (xs : list A) (n : Z) :
  Z.of_nat (length xs) = n -> slice_list xs 0 n = xs.
Proof.
  intro H. unfold slice_list. simpl skipn.
  replace (Z.to_nat (n - 0)) with (length xs) by lia.
  apply firstn_all.
Qed.

Lemma slices_of_all (xss : list (list A)) (n : Z) :
  (forall xs, In xs xss -> Z.of_nat (length xs) = n) ->
  slices_of xss 0 n = xss.
Proof.
  intro H. unfold slices_of. rewrite <- (map_id xss) at 2.
  apply map_ext_in. intros xs Hin. apply slice_list_all. apply H. exact Hin.
Qed.

(** The chunks after the first are among the chunks. *)
Lemma chunk_in_bounds (n B : Z) (m : nat) :
  1 <= n -> 1 <= B ->
  (m <= Z.to_nat ((n - 1) / B))%nat ->
  In (chunk n B m) (chunk_bounds n B).
Proof.
  intros Hn HB Hm. rewrite (chunk_bounds_seq n B Hn HB).
  apply in_map. apply in_seq. lia.
Qed.

(** Gathering the prefix up to chunk [m] with the chunks after it gives
    [f] on the whole. *)
Lemma gather_chunks (f : list (list A) -> output R) (xss : list (list A))
      (n B : Z) (d m : nat) :
  1 <= n -> 1 <= B ->
  structured (f (slices_of xss 0 n)) = true ->
  additive_on f xss n B ->
  (m + d)%nat = Z.to_nat ((n - 1) / B) ->
  gather_map (f (slices_of xss 0 (snd (chunk n B m))))
             (List.map (fun c => f (slices_of xss (fst c) (snd c)))
                       (List.map (chunk n B) (seq (S m) d)))
  = Ok (f (slices_of xss 0 n)).
Proof.
  intros Hn HB Hs Hadd. destruct (quotient_bounds n B Hn HB) as [Hq0 [Hq1 Hq2]].
  revert m. induction d as [| d IH]; intros m Hm.
  - assert (Em : Z.of_nat m = (n - 1) / B) by lia.
    simpl. rewrite Em. rewrite Z.min_l by lia.
    apply gather_single. exact Hs.
  - assert (Em : Z.of_nat m + 1 <= (n - 1) / B) by lia.
    assert (Hfull : Z.of_nat m * B + B <= n - 1) by nia.
    change (seq (S m) (S d)) with (S m :: seq (S (S m)) d).
    rewrite !map_cons.
    rewrite (gather_step R _ _ (f (slices_of xss 0 (snd (chunk n B (S m)))))).
    + apply IH. lia.
    + pose proof (Hadd (fst (chunk n B (S m))) (snd (chunk n B (S m)))) as H.
      rewrite <- surjective_pairing in H.
      specialize (H (chunk_in_bounds n B (S m) Hn HB ltac:(lia))).
      unfold chunk in H at 1. cbn [fst] in H.
      specialize (H ltac:(nia)).
      unfold chunk at 1. cbn [snd].
      rewrite (Z.min_r n (Z.of_nat m * B + B)) by lia.
      replace (Z.of_nat m * B + B) with (Z.of_nat (S m) * B) by lia.
      exact H.
Qed.

(** With a batch size that is not below the length there is one chunk,
    the whole. *)
Lemma chunk_bounds_single (n B : Z) :
  1 <= n -> n <= B -> chunk_bounds n B = [(0, n)].
Proof.
  intros Hn HB. rewrite (chunk_bounds_seq n B Hn ltac:(lia)).
  rewrite Z.div_small by lia. simpl. unfold chunk. simpl.
  rewrite Z.min_l by lia. reflexivity.
Qed.

End ChunkFacts.

Section RowwiseFacts.

Variables A R : Type.

Lemma firstn_plus {X : Type} (a b : nat) (xs : list X) :
  firstn (a + b) xs = firstn a xs ++ firstn b (skipn a xs).
Proof.
  revert xs. induction a as [| a IH]; intro xs; [reflexivity |].
  destruct xs as [| x tl]; simpl.
  - rewrite firstn_nil. reflexivity.
  - rewrite IH. reflexivity.
Qed.

Lemma slice_list_app {X : Type} (xs : list X) (j k : Z) :
  0 <= j -> j <= k ->
  slice_list xs 0 j ++ slice_list xs j k = slice_list xs 0 k.
Proof.
  intros Hj Hk. unfold slice_list. simpl skipn.
  replace (Z.to_nat (k - 0)) with (Z.to_nat (j - 0) + Z.to_nat (k - j))%nat by lia.
  rewrite firstn_plus. replace (Z.to_nat (j - 0)) with (Z.to_nat j) by lia.
  reflexivity.
Qed.

Lemma slice_list_map {X Y : Type} (h : X -> Y) (xs : list X) (a b : Z) :
  slice_list (List.map h xs) a b = List.map h (slice_list xs a b).
Proof. unfold slice_list. rewrite skipn_map, firstn_map. reflexivity. Qed.

Lemma skipn_combine {X Y : Type} (k : nat) (xs : list X) (ys : list Y) :
  skipn k (combine xs ys) = combine (skipn k xs) (skipn k ys).
Proof.
  revert xs ys. induction k as [| k IH]; intros xs ys; [reflexivity |].
  destruct xs as [| x xs]; [reflexivity |].
  destruct ys as [| y ys]; [simpl; destruct (skipn k xs); reflexivity |].
  simpl. apply IH.
Qed.

Lemma firstn_combine {X Y : Type} (k : nat) (xs : list X) (ys : list Y) :
  firstn k (combine xs ys) = combine (firstn k xs) (firstn k ys).
Proof.
  revert xs ys. induction k as [| k IH]; intros xs ys; [reflexivity |].
  destruct xs as [| x xs]; [reflexivity |].
  destruct ys as [| y ys]; [reflexivity |].
  simpl. rewrite IH. reflexivity.
Qed.

Lemma slice_list_combine {X Y : Type} (xs : list X) (ys : list Y) (a b : Z) :
  slice_list (combine xs ys) a b = combine (slice_list xs a b) (slice_list ys a b).
Proof. unfold slice_list. rewrite skipn_combine, firstn_combine. reflexivity. Qed.

(** The rows of the slices are the slice of the rows. *)
Lemma rows_of_slices (xss : list (list A)) (a b : Z) :
  rows_of (slices_of xss a b) = slice_list (rows_of xss) a b.
Proof.
  unfold slices_of. induction xss as [| xs tl IH].
  - simpl. unfold slice_list. rewrite skipn_nil, firstn_nil. reflexivity.
  - destruct tl as [| ys tl].
    + simpl. rewrite slice_list_map. reflexivity.
    + change (rows_of (List.map (fun xs0 => slice_list xs0 a b) (xs :: ys :: tl)))
        with (List.map (fun p : A * list A => fst p :: snd p)
                       (combine (slice_list xs a b)
                                (rows_of (List.map (fun xs0 => slice_list xs0 a b)
                                                   (ys :: tl))))).
      rewrite IH.
      change (rows_of (xs :: ys :: tl))
        with (List.map (fun p : A * list A => fst p :: snd p)
                       (combine xs (rows_of (ys :: tl)))).
      rewrite slice_list_map, slice_list_combine. reflexivity.
Qed.

(** The two loops of [run_rowfn] and of [distinct_keys], as maps. *)
Lemma run_rowfn_dict (items : list (string * rowfn A R)) (s : list (list A)) :
  run_rowfn (RowDict items) s
  = ODict (List.map (fun kv => (fst kv, run_rowfn (snd kv) s)) items).
Proof.
  cbn [run_rowfn]. apply f_equal.
  induction items as [| [k v] tl IH]; [reflexivity |].
  cbn [List.map fst snd]. rewrite <- IH. reflexivity.
Qed.

Lemma run_rowfn_seq (kind : seqkind) (fields : list (rowfn A R)) (s : list (list A)) :
  run_rowfn (RowSeq kind fields) s
  = OSeq kind (List.map (fun f => run_rowfn f s) fields).
Proof.
  cbn [run_rowfn]. apply f_equal.
  induction fields as [| f tl IH]; [reflexivity |].
  cbn [List.map]. rewrite <- IH. reflexivity.
Qed.

Lemma distinct_keys_dict (items : list (string * rowfn A R)) :
  distinct_keys (RowDict items)
  = unique_keys (List.map fst items)
    && forallb (fun kv => distinct_keys (snd kv)) items.
Proof.
  cbn [distinct_keys]. apply f_equal.
  induction items as [| [k v] tl IH]; [reflexivity |].
  cbn [forallb snd]. rewrite <- IH. reflexivity.
Qed.

Lemma distinct_keys_seq (kind : seqkind) (fields : list (rowfn A R)) :
  distinct_keys (RowSeq kind fields) = forallb (@distinct_keys A R) fields.
Proof.
  cbn [distinct_keys].
  induction fields as [| f tl IH]; [reflexivity |].
  cbn [forallb]. rewrite <- IH. reflexivity.
Qed.

(** What a row-by-row function returns is a tree of tensors, [None],
    mappings and sequences. *)
Lemma run_rowfn_structured (r : rowfn A R) (slices : list (list A)) :
  structured (run_rowfn r slices) = true.
Proof.
  induction r as [g | | items IH | kind fields IH] using rowfn_induction.
  - reflexivity.
  - reflexivity.
  - rewrite run_rowfn_dict. cbn [structured].
    induction IH as [| [k v] tl Hv _ IHtl]; [reflexivity |].
    cbn [List.map forallb fst snd]. simpl in Hv. rewrite Hv. exact IHtl.
  - rewrite run_rowfn_seq. cbn [structured].
    induction IH as [| f tl Hf _ IHtl]; [reflexivity |].
    cbn [List.map forallb]. rewrite Hf. exact IHtl.
Qed.

Lemma unique_keys_lookup (s : list (list A)) (items : list (string * rowfn A R))
      (k : string) (v : rowfn A R) :
  unique_keys (List.map fst items) = true ->
  In (k, v) items ->
  lookup k (List.map (fun kv => (fst kv, run_rowfn (snd kv) s)) items)
  = Some (run_rowfn v s).
Proof.
  induction items as [| [k0 v0] tl IH]; intros Hu Hin; [contradiction |].
  cbn [List.map fst unique_keys] in Hu. apply andb_prop in Hu. destruct Hu as [Hk Hu].
  cbn [List.map lookup fst snd]. destruct Hin as [Heq | Hin].
  - inversion Heq. subst k0 v0. rewrite String.eqb_refl. reflexivity.
  - destruct (String.eqb k k0) eqn:E.
    + apply String.eqb_eq in E. subst k0. exfalso.
      apply negb_true_iff in Hk.
      assert (Hex : existsb (String.eqb k) (List.map fst tl) = true).
      { apply existsb_exists. exists k. split; [| apply String.eqb_refl].
        apply in_map_iff. exists (k, v). split; [reflexivity | exact Hin]. }
      rewrite Hex in Hk. discriminate.
    + apply (IH Hu Hin).
Qed.

(** A function that works row by row is additive at every pair of
    adjacent slices. *)
Lemma run_rowfn_additive (r : rowfn A R) (xss : list (list A)) (j k : Z) :
  distinct_keys r = true ->
  0 <= j -> j <= k ->
  gather_map (run_rowfn r (slices_of xss 0 j)) [run_rowfn r (slices_of xss j k)]
  = Ok (run_rowfn r (slices_of xss 0 k)).
Proof.
  intros Hd Hj Hjk. revert Hd.
  induction r as [g | | items IH | kind fields IH] using rowfn_induction; intro Hd.
  - cbn [run_rowfn gather_map rmap as_rows rbind concat].
    rewrite app_nil_r. rewrite <- map_app. rewrite !rows_of_slices.
    rewrite slice_list_app by assumption. reflexivity.
  - reflexivity.
  - rewrite distinct_keys_dict in Hd. apply andb_prop in Hd. destruct Hd as [Hu Hall].
    rewrite !run_rowfn_dict. rewrite gather_map_dict.
    cbn [all_len py_len rbind]. rewrite !length_map, Z.eqb_refl. cbn [negb].
    assert (Hloop : forall sub,
               (forall kv, In kv sub -> In kv items) ->
               Forall (fun kv => distinct_keys (snd kv) = true ->
                                 gather_map (run_rowfn (snd kv) (slices_of xss 0 j))
                                            [run_rowfn (snd kv) (slices_of xss j k)]
                                 = Ok (run_rowfn (snd kv) (slices_of xss 0 k))) sub ->
               forallb (fun kv => distinct_keys (snd kv)) sub = true ->
               items_loop (@gather_map R)
                          [ODict (List.map (fun kv => (fst kv,
                                                       run_rowfn (snd kv) (slices_of xss j k)))
                                           items)]
                          (List.map (fun kv => (fst kv, run_rowfn (snd kv) (slices_of xss 0 j)))
                                    sub)
               = Ok (List.map (fun kv => (fst kv, run_rowfn (snd kv) (slices_of xss 0 k)))
                              sub)).
    { induction sub as [| [k0 v0] tl IHs]; intros Hsub Hf Ha; [reflexivity |].
      inversion Hf as [| x l Hv Htl]; subst.
      cbn [forallb snd] in Ha. apply andb_prop in Ha. destruct Ha as [Hdv Ha].
      cbn [List.map fst snd]. rewrite items_loop_cons. cbn [rmap getitem].
      rewrite (unique_keys_lookup (slices_of xss j k) items k0 v0 Hu
                 (Hsub (k0, v0) (or_introl eq_refl))).
      cbn [rbind]. cbn [snd] in Hv. rewrite (Hv Hdv). cbn [rbind].
      rewrite (IHs (fun kv H => Hsub kv (or_intror H)) Htl Ha). reflexivity. }
    rewrite (Hloop items (fun kv H => H) IH Hall). reflexivity.
  - rewrite distinct_keys_seq in Hd. rewrite !run_rowfn_seq. rewrite gather_map_seq.
    cbn [rmap py_iter rbind].
    assert (Hloop : fields_loop (@gather_map R)
                                (List.map (fun f => run_rowfn f (slices_of xss 0 j)) fields)
                                [List.map (fun f => run_rowfn f (slices_of xss j k)) fields]
                    = Ok (List.map (fun f => run_rowfn f (slices_of xss 0 k)) fields)).
    { induction IH as [| f tl Hf _ IHtl]; [reflexivity |].
      cbn [forallb] in Hd. apply andb_prop in Hd. destruct Hd as [Hdf Hd].
      cbn [List.map]. rewrite fields_loop_cons. cbn [heads].
      rewrite (Hf Hdf). cbn [rbind]. rewrite (IHtl Hd). reflexivity. }
    rewrite Hloop. cbn [rbind].
    destruct kind as [| | cls]; try reflexivity.
    rewrite !length_map, Nat.eqb_refl. reflexivity.
Qed.

End RowwiseFacts.

(** C1 (as the code has it).  For inputs of one length [n >= 1] and a
    batch size [B >= 1], the chunks tile [0, n) with [B] indices each but
    for a shorter last one; [batch_apply] calls a function that returns on
    every slice, whatever it prints, once per chunk, in order, on the
    slices of every input, and returns what [_gather] makes of the chunk
    outputs.  With [f] what the function returns, this is [f] on the whole
    inputs
    - when [B >= n], there being one chunk, if that output is a tree of
      tensors, [None], mappings and sequences;
    - if moreover [f] is additive at the chunks of [B];
    - whatever [B] is, if the function works row by row. *)
Theorem batch_apply_additive
        (A R : Type) (g : list (list A) -> M (output R))
        (f : list (list A) -> output R) (xss : list (list A)) (n B : Z) :
  xss <> [] ->
  (forall xs, In xs xss -> Z.of_nat (length xs) = n) ->
  1 <= n -> 1 <= B ->
  (forall slices, outcome (g slices) = Ok (f slices)) ->
  tiles B 0 (chunk_bounds n B) n
  /\ batch_apply (Some g) (List.map (@Sized A) xss) B None
     = (flat_map (fun c => invoked c :: events (g (slices_of xss (fst c) (snd c))))
                 (chunk_bounds n B),
        _gather (List.map (fun c => f (slices_of xss (fst c) (snd c)))
                          (chunk_bounds n B)))
  /\ (structured (f xss) = true -> n <= B ->
      chunk_bounds n B = [(0, n)]
      /\ outcome (batch_apply (Some g) (List.map (@Sized A) xss) B None) = Ok (f xss))
  /\ (structured (f xss) = true -> additive_on f xss n B ->
      outcome (batch_apply (Some g) (List.map (@Sized A) xss) B None) = Ok (f xss))
  /\ (forall r : rowfn A R,
         distinct_keys r = true ->
         (forall slices, f slices = run_rowfn r slices) ->
         outcome (batch_apply (Some g) (List.map (@Sized A) xss) B None)
         = Ok (run_rowfn r xss)).
Proof.
  intros Hne Hlen Hn HB Hret.
  pose proof (batch_apply_returning A R g f xss n B Hne Hlen ltac:(lia) Hret) as Hrun.
  assert (Hadd : structured (f xss) = true -> additive_on f xss n B ->
                 outcome (batch_apply (Some g) (List.map (@Sized A) xss) B None)
                 = Ok (f xss)).
  { intros Hs Ha. rewrite Hrun. cbn [outcome snd].
    rewrite (chunk_bounds_seq n B Hn HB).
    change (seq 0 (S (Z.to_nat ((n - 1) / B))))
      with (0%nat :: seq 1 (Z.to_nat ((n - 1) / B))).
    rewrite !map_cons. unfold _gather.
    change (fst (chunk n B 0)) with 0.
    rewrite <- (slices_of_all A xss n Hlen) at 2.
    apply gather_chunks; try assumption.
    - rewrite (slices_of_all A xss n Hlen). exact Hs.
    - reflexivity. }
  split; [| split; [exact Hrun | split; [| split; [exact Hadd |]]]].
  - rewrite (chunk_bounds_seq n B Hn HB).
    apply (tiles_chunks n B (Z.to_nat ((n - 1) / B)) 0 Hn HB). reflexivity.
  - intros Hs HnB. split; [apply (chunk_bounds_single n B Hn HnB) |].
    apply (Hadd Hs).
    intros j k Hin Hj. rewrite (chunk_bounds_single n B Hn HnB) in Hin.
    destruct Hin as [Hin | []]. inversion Hin. lia.
  - intros r Hd Hf. rewrite <- Hf. apply Hadd.
    + rewrite Hf. apply run_rowfn_structured.
    + intros j k Hin Hj. rewrite !Hf. apply run_rowfn_additive; [exact Hd | lia |].
      rewrite (chunk_bounds_seq n B Hn HB) in Hin. apply in_map_iff in Hin.
      destruct Hin as [m [Hm Hseq]]. apply in_seq in Hseq.
      destruct (quotient_bounds n B Hn HB) as [Hq0 [Hq1 Hq2]].
      unfold chunk in Hm. inversion Hm. subst j k.
      assert (Hmq : Z.of_nat m <= (n - 1) / B) by lia.
      assert (Hmb : Z.of_nat m * B <= (n - 1) / B * B) by nia.
      lia.
Qed.

(** The row-by-row function [sum_and_first], which also prints, on two
    inputs of length 3 in chunks of 2; and the number of rows, which is
    not additive, in one chunk. *)
Lemma batch_apply_additive_witness :
  batch_apply (Some (fun slices => IO.print "chunk" ;;;
                                   ret (run_rowfn sum_and_first slices)))
              [Sized [1; 2; 3]; Sized [10; 20; 30]] 2 None
  = ([Invoked 0 2; Printed "chunk" IO.newline;
      Invoked 2 3; Printed "chunk" IO.newline],
     Ok (ODict [("sum", OTensor [11; 22; 33]);
                ("pair", OSeq KTuple [OTensor [1; 2; 3]; ONone])]))
  /\ outcome (batch_apply (pure_fn count_rows)
                          [Sized [1; 2; 3]; Sized [10; 20; 30]] 4 None)
     = Ok (OTensor [3])
  /\ tiles 2 0 [(0, 2); (2, 3)] 3.
Proof.
  assert (Hne : [[1; 2; 3]; [10; 20; 30]] <> []) by discriminate.
  assert (Hlen : forall xs, In xs [[1; 2; 3]; [10; 20; 30]] -> Z.of_nat (length xs) = 3).
  { intros xs [H | [H | []]]; subst xs; reflexivity. }
  destruct (batch_apply_additive Z Z
              (fun slices => IO.print "chunk" ;;; ret (run_rowfn sum_and_first slices))
              (run_rowfn sum_and_first)
              [[1; 2; 3]; [10; 20; 30]] 3 2 Hne Hlen ltac:(lia) ltac:(lia)
              (fun slices => eq_refl))
    as [Htiles [Hrun [_ [_ Hrow]]]].
  destruct (batch_apply_additive Z Z
              (fun slices => ret (count_rows slices)) count_rows
              [[1; 2; 3]; [10; 20; 30]] 3 4 Hne Hlen ltac:(lia) ltac:(lia)
              (fun slices => eq_refl))
    as [_ [_ [Hone _]]].
  split; [| split].
  - specialize (Hrow sum_and_first eq_refl (fun slices => eq_refl)).
    rewrite Hrun in Hrow. cbn [outcome snd] in Hrow.
    refine (eq_trans Hrun _). rewrite Hrow. reflexivity.
  - apply Hone; [reflexivity | lia].
  - exact Htiles.
Defined.

(** C1 as stated fails for a function that is not additive, run in more
    than one chunk (the number of rows of the chunk: two chunks of one row
    give [1, 1], the whole gives [2]); for inputs of length 0 (no chunk,
    and [_gather] has nothing to index); and for a function that returns a
    number, even in one chunk ([zip] cannot iterate it). *)
Lemma batch_apply_not_whole :
  (outcome (batch_apply (pure_fn count_rows) [Sized [1; 2]] 1 None)
   = Ok (OTensor [1; 1])
   /\ outcome (batch_apply (pure_fn count_rows) [Sized [1; 2]] 1 None)
      <> Ok (count_rows [[1; 2]]))
  /\ (outcome (batch_apply (pure_fn (rowwise Z.succ)) [Sized []] 1 None)
      = Raise (IndexError "list index out of range")
      /\ outcome (batch_apply (pure_fn (rowwise Z.succ)) [Sized []] 1 None)
         <> Ok (rowwise Z.succ [[]]))
  /\ (returns (batch_apply (pure_fn (fun _ : list (list Z) => @OAtom Z 5))
                           [Sized [1; 2]] 2 None)
      = false).
Proof.
  split; [| split]; [split; [reflexivity | discriminate]
                    | split; [reflexivity | discriminate]
                    | reflexivity].
Qed.

(* ================================================================== *)
(** * Further properties *)
(* ================================================================== *)

(** ** utils/io.py: the framed line *)

Lemma str_mul_length (c : ascii) (n : Z) :
  0 <= n -> len (str_mul c n) = n.
Proof.
  intro H. unfold len, str_mul.
  assert (E : forall k : nat, String.length (repeat_char c k) = k).
  { induction k as [| k IH]; [reflexivity |]. simpl. rewrite IH. reflexivity. }
  rewrite E. lia.
Qed.

(** X1.  [print_split_line] with a content prints three pieces and
    returns: a run of dashes and a space, the content and a space, a run of
    dashes and the end of the line.  The line is as wide as [length], or
    four wider than the content when that is more.  The content is centred:
    the left run has at least one dash, the right run as many as the left
    one or one more. *)
Theorem print_split_line_frames (content : string) (length : Z) :
  exists left_num right_num : Z,
    IO.print_split_line (Some content) length
    = ([Printed (str_mul "-" left_num) " ";
        Printed content " ";
        Printed (str_mul "-" right_num) IO.newline],
       Ok tt)
    /\ 1 <= left_num
    /\ left_num <= right_num <= left_num + 1
    /\ len (str_mul "-" left_num) + 1 + len content + 1 + len (str_mul "-" right_num)
       = Z.max length (len content + 4).
Proof.
  set (width := if length - 4 <? len content then len content + 4 else length).
  set (total_num := width - len content - 2).
  exists (total_num / 2), (total_num - total_num / 2).
  assert (Hlen : 0 <= len content) by (unfold len; lia).
  assert (Hw : width = Z.max length (len content + 4)).
  { unfold width. destruct (length - 4 <? len content) eqn:E.
    - apply Z.ltb_lt in E. lia.
    - apply Z.ltb_ge in E. lia. }
  assert (Ht : 2 <= total_num) by (unfold total_num; lia).
  pose proof (Z.div_mod total_num 2 ltac:(lia)) as Hd.
  pose proof (Z.mod_pos_bound total_num 2 ltac:(lia)) as Hm.
  split; [reflexivity |].
  split; [lia |]. split; [lia |].
  rewrite !str_mul_length by lia. unfold total_num. lia.
Qed.

(** ** utils/batch.py: degenerate calls, announcements, failures *)

Section BatchEdges.

Variables A R : Type.

Lemma map_m_ext {X Y : Type} (g h : X -> M Y) (xs : list X) :
  (forall x, g x = h x) -> map_m g xs = map_m h xs.
Proof.
  intro H. induction xs as [| x tl IH]; [reflexivity |].
  simpl. rewrite H, IH. reflexivity.
Qed.

(** [batch_apply] once the inputs passed the check. *)
Lemma batch_apply_sized (fn : callable A R) (xss : list (list A)) (n B : Z)
      (description : option string) :
  xss <> [] ->
  (forall xs, In xs xss -> Z.of_nat (length xs) = n) ->
  batch_apply fn (List.map (@Sized A) xss) B description
  = (starts <- lift (range3 0 n B) ;;
     results <- map_m (fun p : Z * Z =>
                         (match description with
                          | Some d =>
                              IO.print_split_line
                                (Some (progress_line d (fst p) (Z.of_nat (length starts))))
                                IO.default_length
                          | None => ret tt
                          end) ;;;
                         call fn (snd p) (Z.min n (snd p + B))
                              (slices_of xss (snd p) (Z.min n (snd p + B))))
                      (enumerate 1 starts) ;;
     lift (_gather results)).
Proof.
  intros Hne Hlen. unfold batch_apply.
  rewrite (check_valid_same A xss n Hlen). rewrite bind_lift_ok.
  destruct xss as [| xs tl]; [contradiction |].
  simpl List.map at 1. cbv iota. simpl arg_len.
  rewrite (Hlen xs (or_introl eq_refl)). rewrite bind_lift_ok.
  change (Sized xs :: List.map (@Sized A) tl) with (List.map (@Sized A) (xs :: tl)).
  destruct (range3 0 n B) as [starts | e]; [| reflexivity].
  rewrite !bind_lift_ok. f_equal.
  apply map_m_ext. intros [i start]. simpl fst. simpl snd.
  rewrite rmap_slice_sized. rewrite bind_lift_ok. reflexivity.
Qed.

(** X2.  With a batch size of zero [batch_apply] raises [ValueError]
    at [range(0, total_len, 0)], once the inputs passed the check: no chunk
    is run and nothing is printed, whatever the function and the
    description. *)
Theorem batch_apply_zero_batch_size
        (fn : callable A R) (xss : list (list A)) (n : Z)
        (description : option string) :
  xss <> [] ->
  (forall xs, In xs xss -> Z.of_nat (length xs) = n) ->
  batch_apply fn (List.map (@Sized A) xss) 0 description
  = ([], Raise (ValueError "range() arg 3 must not be zero")).
Proof.
  intros Hne Hlen. rewrite (batch_apply_sized fn xss n 0 description Hne Hlen).
  reflexivity.
Qed.

(** X3.  When there is nothing to run, that is, inputs of length zero
    with a batch size that is not zero, or a negative batch size,
    [batch_apply] calls the function for no chunk and raises [IndexError]:
    [_gather] indexes the empty list of results. *)
Theorem batch_apply_nothing_to_run
        (fn : callable A R) (xss : list (list A)) (n B : Z)
        (description : option string) :
  xss <> [] ->
  (forall xs, In xs xss -> Z.of_nat (length xs) = n) ->
  (n = 0 /\ B <> 0) \/ B < 0 ->
  batch_apply fn (List.map (@Sized A) xss) B description
  = ([], Raise (IndexError "list index out of range")).
Proof.
  intros Hne Hlen H. rewrite (batch_apply_sized fn xss n B description Hne Hlen).
  assert (Hn : 0 <= n).
  { destruct xss as [| xs tl]; [contradiction |].
    rewrite <- (Hlen xs (or_introl eq_refl)). lia. }
  assert (Hr : range3 0 n B = Ok [] \/ B = 0).
  { unfold range3. destruct (B =? 0) eqn:E0; [right; apply Z.eqb_eq; exact E0 | left].
    destruct (0 <? B) eqn:E1.
    - apply Z.ltb_lt in E1.
      replace (0 <? n) with false by (symmetry; apply Z.ltb_ge; lia). reflexivity.
    - replace (n <? 0) with false by (symmetry; apply Z.ltb_ge; lia). reflexivity. }
  destruct Hr as [Hr | Hr]; [rewrite Hr; reflexivity | lia].
Qed.

Lemma number_from_map {X Y : Type} (cf : X -> Y) (i : Z) (xs : list X) :
  number_from i (List.map cf xs)
  = List.map (fun p => (fst p, cf (snd p))) (number_from i xs).
Proof.
  revert i. induction xs as [| x tl IH]; intro i; [reflexivity |].
  simpl. rewrite IH. reflexivity.
Qed.

Lemma enumerate_number_from (i : Z) (starts : list Z) :
  enumerate i starts = number_from i starts.
Proof.
  revert i. induction starts as [| s tl IH]; intro i; [reflexivity |].
  simpl. rewrite IH. reflexivity.
Qed.

Lemma chunk_bounds_starts (n B : Z) :
  B <> 0 ->
  exists starts,
    range3 0 n B = Ok starts
    /\ chunk_bounds n B = List.map (fun s => (s, Z.min n (s + B))) starts.
Proof.
  intro HB. unfold chunk_bounds.
  destruct (range3 0 n B) as [starts | e] eqn:E.
  - exists starts. split; reflexivity.
  - unfold range3 in E. apply Z.eqb_neq in HB. rewrite HB in E. discriminate.
Qed.

Lemma announced_run (description : option string) (i N : Z) :
  (match description with
   | Some d => IO.print_split_line (Some (progress_line d i N)) IO.default_length
   | None => ret tt
   end) = (announced description i N, Ok tt).
Proof.
  destruct description as [d |]; reflexivity.
Qed.

(** X4.  With a function that only computes, inputs of length
    [n >= 1] and a batch size [B >= 1], [batch_apply] runs
    [(n + B - 1) / B] chunks, and what it leaves behind is, chunk after
    chunk, the framed line [description: i / iter_times] (nothing without a
    description) followed by the call on that chunk; the chunks are
    numbered from 1. *)
Theorem batch_apply_announces
        (f : list (list A) -> output R) (xss : list (list A)) (n B : Z)
        (description : option string) :
  xss <> [] ->
  (forall xs, In xs xss -> Z.of_nat (length xs) = n) ->
  1 <= n -> 1 <= B ->
  let chunks := chunk_bounds n B in
  let iter_times := Z.of_nat (length chunks) in
  iter_times = (n + B - 1) / B
  /\ events (batch_apply (pure_fn f) (List.map (@Sized A) xss) B description)
     = flat_map (fun p => announced description (fst p) iter_times ++ [invoked (snd p)])
                (number_from 1 chunks).
Proof.
  intros Hne Hlen Hn HB chunks iter_times. split.
  - unfold iter_times, chunks. rewrite (chunk_bounds_seq n B Hn HB).
    rewrite length_map, length_seq.
    assert (Hq : 0 <= (n - 1) / B) by (apply Z.div_pos; lia).
    replace (n + B - 1) with (n - 1 + 1 * B) by lia.
    rewrite Z.div_add by lia. lia.
  - rewrite (batch_apply_sized (pure_fn f) xss n B description Hne Hlen).
    destruct (chunk_bounds_starts n B ltac:(lia)) as [starts [Hr Hc]].
    rewrite Hr. rewrite bind_lift_ok.
    assert (HN : Z.of_nat (length starts) = iter_times).
    { unfold iter_times, chunks. rewrite Hc. rewrite length_map. reflexivity. }
    rewrite HN.
    rewrite (map_m_events
               _ (fun p : Z * Z =>
                    announced description (fst p) iter_times
                    ++ [Invoked (snd p) (Z.min n (snd p + B))])
               (fun p : Z * Z => f (slices_of xss (snd p) (Z.min n (snd p + B))))).
    + rewrite bind_ok. simpl events.
      unfold lift. simpl. rewrite app_nil_r.
      unfold chunks. rewrite Hc. rewrite number_from_map.
      rewrite enumerate_number_from. rewrite flat_map_concat_map.
      rewrite (flat_map_concat_map _ (List.map _ _)). rewrite map_map. reflexivity.
    + intros [i s]. simpl fst. simpl snd. rewrite announced_run.
      rewrite bind_ok. reflexivity.
Qed.

(** X5.  [batch_apply] stops at the first chunk on which the function
    raises: the chunks before it were run, in order, no chunk after it is
    run, and the outcome is the exception of the function; what the earlier
    chunks returned is lost. *)
Theorem batch_apply_stops_at_failure
        (f : list (list A) -> result (output R)) (xss : list (list A)) (n B : Z)
        (pre post : list (Z * Z)) (c : Z * Z) (e : exn) :
  xss <> [] ->
  (forall xs, In xs xss -> Z.of_nat (length xs) = n) ->
  B <> 0 ->
  chunk_bounds n B = pre ++ c :: post ->
  (forall c', In c' pre -> exists o, f (slices_of xss (fst c') (snd c')) = Ok o) ->
  f (slices_of xss (fst c) (snd c)) = Raise e ->
  batch_apply (partial_fn f) (List.map (@Sized A) xss) B None
  = (List.map invoked (pre ++ [c]), Raise e).
Proof.
  intros Hne Hlen HB Hsplit Hpre Hc.
  rewrite (batch_apply_sized (partial_fn f) xss n B None Hne Hlen).
  destruct (chunk_bounds_starts n B HB) as [starts [Hr Hcb]].
  rewrite Hr. rewrite bind_lift_ok. rewrite Hcb in Hsplit. clear Hr Hcb.
  set (g := fun p : Z * Z =>
              ret tt ;;;
              call (partial_fn f) (snd p) (Z.min n (snd p + B))
                   (slices_of xss (snd p) (Z.min n (snd p + B)))).
  assert (Hg : forall p : Z * Z,
             g p = ([Invoked (snd p) (Z.min n (snd p + B))],
                    f (slices_of xss (snd p) (Z.min n (snd p + B))))).
  { intro p. unfold g. rewrite bind_ret. unfold call, partial_fn, lift.
    reflexivity. }
  assert (Hrun : forall (i : Z),
             map_m g (enumerate i starts) = (List.map invoked (pre ++ [c]), Raise e)).
  { revert starts Hsplit Hpre.
    induction pre as [| c' pre IH]; intros starts Hsplit Hpre i.
    - destruct starts as [| s tl]; [discriminate |].
      simpl in Hsplit. inversion Hsplit as [[Hs Htl]]. subst c.
      simpl in Hc.
      change (map_m g (enumerate i (s :: tl)))
        with (bind (g (i, s))
                   (fun y => bind (map_m g (enumerate (i + 1) tl))
                                  (fun ys => ret (y :: ys)))).
      rewrite Hg. simpl snd. rewrite Hc. reflexivity.
    - destruct starts as [| s tl]; [discriminate |].
      simpl in Hsplit. inversion Hsplit as [[Hs Htl]].
      destruct (Hpre c' (or_introl eq_refl)) as [o Ho].
      rewrite <- Hs in Ho. simpl in Ho.
      change (map_m g (enumerate i (s :: tl)))
        with (bind (g (i, s))
                   (fun y => bind (map_m g (enumerate (i + 1) tl))
                                  (fun ys => ret (y :: ys)))).
      rewrite Hg. simpl snd. rewrite Ho.
      rewrite (IH tl Htl (fun c0 H0 => Hpre c0 (or_intror H0)) (i + 1)).
      reflexivity. }
  fold g. rewrite Hrun. reflexivity.
Qed.

End BatchEdges.

Lemma batch_apply_zero_batch_size_witness :
  batch_apply (pure_fn count_rows) [Sized [1; 2]] 0 (Some "Optimized Batch")
  = ([], Raise (ValueError "range() arg 3 must not be zero")).
Proof.
  apply (batch_apply_zero_batch_size Z Z (pure_fn count_rows) [[1; 2]] 2
           (Some "Optimized Batch")).
  - discriminate.
  - intros xs [H | []]. subst xs. reflexivity.
Defined.

Lemma batch_apply_nothing_to_run_witness :
  batch_apply (pure_fn count_rows) [Sized []] 5 None
  = ([], Raise (IndexError "list index out of range")).
Proof.
  apply (batch_apply_nothing_to_run Z Z (pure_fn count_rows) [[]] 0 5 None).
  - discriminate.
  - intros xs [H | []]. subst xs. reflexivity.
  - left. split; [reflexivity | discriminate].
Defined.

Lemma batch_apply_announces_witness :
  Z.of_nat (length (chunk_bounds 3 2)) = (3 + 2 - 1) / 2
  /\ events (batch_apply (pure_fn count_rows) [Sized [1; 2; 3]] 2 (Some "Optimized Batch"))
     = [Printed (str_mul "-" 18) " "; Printed "Optimized Batch: 1 / 2" " ";
        Printed (str_mul "-" 18) IO.newline; Invoked 0 2;
        Printed (str_mul "-" 18) " "; Printed "Optimized Batch: 2 / 2" " ";
        Printed (str_mul "-" 18) IO.newline; Invoked 2 3].
Proof.
  refine (batch_apply_announces Z Z count_rows [[1; 2; 3]] 3 2 (Some "Optimized Batch")
            _ _ _ _).
  - discriminate.
  - intros xs [H | []]. subst xs. reflexivity.
  - lia.
  - lia.
Defined.

Lemma batch_apply_stops_at_failure_witness :
  batch_apply (partial_fn (fun slices : list (list Z) =>
                             match slices with
                             | [[_; _]] => Ok (OTensor [0])
                             | _ => Raise (RuntimeError "odd chunk")
                             end))
              [Sized [1; 2; 3; 4; 5]] 2 None
  = ([Invoked 0 2; Invoked 2 4; Invoked 4 5], Raise (RuntimeError "odd chunk")).
Proof.
  apply (batch_apply_stops_at_failure Z Z
           (fun slices : list (list Z) =>
              match slices with
              | [[_; _]] => Ok (OTensor [0])
              | _ => Raise (RuntimeError "odd chunk")
              end)
           [[1; 2; 3; 4; 5]] 5 2 [(0, 2); (2, 4)] [] (4, 5) (RuntimeError "odd chunk")).
  - discriminate.
  - intros xs [H | []]. subst xs. reflexivity.
  - discriminate.
  - reflexivity.
  - intros c' [H | [H | []]]; subst c'; eexists; reflexivity.
  - reflexivity.
Defined.

(** ** utils/batch.py: what [_gather] returns and what it refuses *)

Section GatherEdges.

Variable R : Type.

Lemma items_loop_structured (rest : list (output R)) (items : list (string * output R)) :
  Forall (fun kv => forall rest' r, gather_map (snd kv) rest' = Ok r ->
                                    structured r = true) items ->
  forall gs, items_loop (@gather_map R) rest items = Ok gs ->
             forallb (fun kv => structured (snd kv)) gs = true.
Proof.
  induction 1 as [| [k v] tl Hv _ IH]; intros gs H.
  - inversion H. reflexivity.
  - rewrite items_loop_cons in H.
    apply rbind_ok_inv in H. destruct H as [vs [_ H]].
    apply rbind_ok_inv in H. destruct H as [g [Hg H]].
    apply rbind_ok_inv in H. destruct H as [gs' [Hgs H]].
    inversion H. simpl. rewrite (Hv vs g Hg). rewrite (IH gs' Hgs). reflexivity.
Qed.

Lemma fields_loop_structured (fields : list (output R)) :
  Forall (fun f => forall rest' r, gather_map f rest' = Ok r ->
                                   structured r = true) fields ->
  forall cols gs, fields_loop (@gather_map R) fields cols = Ok gs ->
                  forallb (@structured R) gs = true.
Proof.
  induction 1 as [| f tl Hf _ IH]; intros cols gs H.
  - inversion H. reflexivity.
  - rewrite fields_loop_cons in H.
    destruct (heads cols) as [[hs ts] |]; [| inversion H; reflexivity].
    apply rbind_ok_inv in H. destruct H as [g [Hg H]].
    apply rbind_ok_inv in H. destruct H as [gs' [Hgs H]].
    inversion H. simpl. rewrite (Hf hs g Hg). rewrite (IH ts gs' Hgs). reflexivity.
Qed.

(** X7.  No number is part of what [_gather] returns: on chunk outputs
    built of tensors, [None], mappings, sequences and numbers, with
    sequences opposite the sequences of the first chunk, whatever it
    returns is a tree of tensors, [None], mappings and sequences.  A number
    is not always refused: after a first chunk that returned [None] the
    other outputs are not looked at, and [None] is returned. *)
Theorem gather_returns_structured (outputs : list (output R)) (r : output R) :
  (_gather outputs = Ok r -> structured r = true)
  /\ (forall rest : list (output R), _gather (ONone :: rest) = Ok ONone).
Proof.
  split; [| reflexivity].
  destruct outputs as [| out rest]; [discriminate |]. simpl.
  revert rest r.
  induction out as [rows | | items IH | kind fields IH | a] using output_induction;
    intros rest r H.
  - simpl in H. apply rbind_ok_inv in H. destruct H as [rs [_ H]].
    inversion H. reflexivity.
  - inversion H. reflexivity.
  - rewrite gather_map_dict in H.
    apply rbind_ok_inv in H. destruct H as [same [_ H]].
    destruct (negb same); [discriminate |].
    apply rbind_ok_inv in H. destruct H as [gs [Hgs H]].
    inversion H. simpl. apply (items_loop_structured rest items IH gs Hgs).
  - rewrite gather_map_seq in H.
    apply rbind_ok_inv in H. destruct H as [cols [_ H]].
    apply rbind_ok_inv in H. destruct H as [gs [Hgs H]].
    assert (Hr : r = OSeq kind gs).
    { destruct kind as [| | cls]; try (inversion H; reflexivity).
      destruct (Nat.eqb (length gs) (length fields)); [| discriminate].
      inversion H. reflexivity. }
    subst r. simpl. apply (fields_loop_structured fields IH cols gs Hgs).
  - discriminate.
Qed.

(** X8.  Mappings of two chunks with different numbers of keys make
    [_gather] raise [ValueError]; with the same number of keys, a first key
    of the first chunk that the second chunk lacks raises [KeyError] for
    that key. *)
Theorem gather_dict_mismatch (a b : list (string * output R)) :
  (length a <> length b ->
   _gather [ODict a; ODict b]
   = Raise (ValueError "All dicts must have the same number of keys"))
  /\ (forall k v tl,
         a = (k, v) :: tl -> length a = length b -> lookup k b = None ->
         _gather [ODict a; ODict b] = Raise (KeyError k)).
Proof.
  split.
  - intro H. unfold _gather. rewrite gather_map_dict. simpl all_len.
    replace (Z.of_nat (length a) =? Z.of_nat (length b)) with false; [reflexivity |].
    symmetry. apply Z.eqb_neq. lia.
  - intros k v tl Ha Hlen Hk. unfold _gather. rewrite gather_map_dict. simpl all_len.
    rewrite Hlen, Z.eqb_refl. cbn [rbind negb]. subst a.
    rewrite items_loop_cons. simpl rmap. rewrite Hk. reflexivity.
Qed.

(** X9.  Gathering can be done in steps: when the first two outputs
    gather to [o12], gathering all outputs equals gathering [o12] with the
    remaining ones, exceptions included. *)
Theorem gather_incremental (o1 o2 o12 : output R) (rest : list (output R)) :
  _gather [o1; o2] = Ok o12 ->
  _gather (o1 :: o2 :: rest) = _gather (o12 :: rest).
Proof. intro H. simpl in *. apply gather_step. exact H. Qed.

Lemma heads_none_shortest (n : nat) (cols : list (list (output R))) :
  heads cols = None -> shortest n cols = 0%nat.
Proof.
  revert n. induction cols as [| col tl IH]; intros n H; [discriminate |].
  destruct col as [| h t]; [reflexivity |].
  simpl in H. simpl. destruct (heads tl) as [[hs ts] |]; [discriminate |].
  rewrite (IH n eq_refl). reflexivity.
Qed.

Lemma heads_some_shortest (n : nat) (cols : list (list (output R)))
      (hs : list (output R)) (ts : list (list (output R))) :
  heads cols = Some (hs, ts) -> shortest (S n) cols = S (shortest n ts).
Proof.
  revert hs ts. induction cols as [| col tl IH]; intros hs ts H.
  - inversion H. reflexivity.
  - destruct col as [| h t]; [discriminate |].
    simpl in H. destruct (heads tl) as [[hs' ts'] |] eqn:E; [| discriminate].
    inversion H; subst. simpl. rewrite (IH hs' ts' eq_refl). reflexivity.
Qed.

Lemma fields_loop_shortest (fields : list (output R)) (cols : list (list (output R)))
      (gs : list (output R)) :
  fields_loop (@gather_map R) fields cols = Ok gs ->
  length gs = shortest (length fields) cols.
Proof.
  revert cols gs. induction fields as [| f tl IH]; intros cols gs H.
  - inversion H. simpl. clear. induction cols as [| c tl IH]; [reflexivity |].
    simpl. rewrite <- IH. rewrite Nat.min_0_r. reflexivity.
  - rewrite fields_loop_cons in H.
    destruct (heads cols) as [[hs ts] |] eqn:E.
    + apply rbind_ok_inv in H. destruct H as [g [_ H]].
      apply rbind_ok_inv in H. destruct H as [gs' [Hgs H]].
      inversion H. simpl length. rewrite (IH ts gs' Hgs).
      symmetry. apply (heads_some_shortest _ cols hs ts E).
    + inversion H. simpl length. symmetry. apply heads_none_shortest. exact E.
Qed.

Lemma rmap_py_iter_seqs (seqs : list (seqkind * list (output R))) :
  rmap (@py_iter R) (List.map (fun p => OSeq (fst p) (snd p)) seqs)
  = Ok (List.map snd seqs).
Proof.
  induction seqs as [| [k fs] tl IH]; [reflexivity |].
  simpl. rewrite IH. reflexivity.
Qed.

(** X10.  When all chunk outputs are tuples, lists or namedtuples (and
    so are, field by field, the parts that face a sequence of the first
    chunk), they are gathered field by field up to the shortest of them,
    as [zip] stops there: what [_gather] returns, if it returns, is a
    sequence of the class of the first output with as many fields as the
    shortest chunk output has, and for a namedtuple these are all the
    fields of the first output. *)
Theorem gather_sequences_shortest
        (kind : seqkind) (fields : list (output R))
        (seqs : list (seqkind * list (output R))) (r : output R) :
  _gather (OSeq kind fields :: List.map (fun p => OSeq (fst p) (snd p)) seqs) = Ok r ->
  exists gs : list (output R),
    r = OSeq kind gs
    /\ length gs = shortest (length fields) (List.map snd seqs)
    /\ (forall cls, kind = KNamed cls -> length gs = length fields).
Proof.
  unfold _gather. rewrite gather_map_seq. rewrite rmap_py_iter_seqs. cbn [rbind].
  intro H.
  apply rbind_ok_inv in H. destruct H as [gs [Hgs H]].
  exists gs.
  pose proof (fields_loop_shortest fields (List.map snd seqs) gs Hgs) as Hlen.
  destruct kind as [| | cls].
  - inversion H. repeat split; try assumption. discriminate.
  - inversion H. repeat split; try assumption. discriminate.
  - destruct (Nat.eqb (length gs) (length fields)) eqn:E; [| discriminate].
    inversion H. apply Nat.eqb_eq in E. repeat split; try assumption.
    intros _ _. exact E.
Qed.

End GatherEdges.

Lemma gather_returns_structured_witness :
  structured (ODict [("loss", OTensor [1; 2; 3]); ("extra", @ONone Z)]) = true
  /\ _gather [ONone; @OAtom Z 5] = Ok ONone.
Proof.
  destruct (gather_returns_structured Z
              [ODict [("loss", OTensor [1; 2]); ("extra", ONone)];
               ODict [("extra", ONone); ("loss", OTensor [3])]]
              (ODict [("loss", OTensor [1; 2; 3]); ("extra", ONone)]))
    as [Hs Hn].
  split; [apply Hs; reflexivity | apply (Hn [OAtom 5])].
Defined.

Lemma gather_dict_mismatch_witness :
  _gather [ODict [("loss", OTensor [1])]; @ODict Z []]
  = Raise (ValueError "All dicts must have the same number of keys")
  /\ _gather [ODict [("loss", OTensor [1])]; ODict [("acc", OTensor [2])]]
     = Raise (KeyError "loss").
Proof.
  split.
  - apply (gather_dict_mismatch Z [("loss", OTensor [1])] []). discriminate.
  - apply (proj2 (gather_dict_mismatch Z [("loss", OTensor [1])] [("acc", OTensor [2])])
             "loss" (OTensor [1]) []); reflexivity.
Defined.

Lemma gather_incremental_witness :
  _gather [OTensor [1]; OTensor [2]; OTensor [3]] = _gather [OTensor [1; 2]; OTensor [3]].
Proof.
  apply (gather_incremental Z (OTensor [1]) (OTensor [2]) (OTensor [1; 2]) [OTensor [3]]).
  reflexivity.
Defined.

(** Two fields in the first chunk, one in the second: one field is
    gathered, the second field of the first chunk is dropped. *)
Lemma gather_sequences_shortest_witness :
  _gather [OSeq KTuple [OTensor [1]; OTensor [2]]; OSeq KList [OTensor [3]]]
  = Ok (OSeq KTuple [OTensor [1; 3]])
  /\ exists gs : list (output Z),
      OSeq KTuple [OTensor [1; 3]] = OSeq KTuple gs
      /\ length gs = shortest 2 [[OTensor [3]]]
      /\ (forall cls, KTuple = KNamed cls -> length gs = 2%nat).
Proof.
  split; [reflexivity |].
  apply (gather_sequences_shortest Z KTuple [OTensor [1]; OTensor [2]]
           [(KList, [OTensor [3]])] (OSeq KTuple [OTensor [1; 3]])).
  reflexivity.
Defined.

(** ** attack/losses.py: construction and report of the compose loss *)

Section ComposeEdges.

Variable S : Type.
Variable zero one : S.
Variable add mul : S -> S -> S.
Variables Images Labels : Type.

(** What [__init__] accepts, and the fields it sets. *)
Lemma compose_init_shape
        (ls : list (Losses.lossfn S Images Labels)) (ws : option (list S)) :
  let given := match ws with
               | None => repeat one (length ls)
               | Some w => w
               end in
  ((exists c, Losses.compose_init one ls ws = Ok c)
   <-> ls <> [] /\ length given = length ls)
  /\ (forall c, Losses.compose_init one ls ws = Ok c ->
                Losses.losses c = ls /\ Losses.weights c = given)
  /\ (ws = None -> length given = length ls).
Proof.
  intro given. unfold Losses.compose_init. fold given.
  split; [split | split].
  - intros [c H].
    destruct (Nat.eqb (length ls) 0) eqn:E0; [discriminate |].
    destruct (Nat.eqb (length given) (length ls)) eqn:E; [| discriminate].
    split; [| apply Nat.eqb_eq; exact E].
    intro Hnil. subst ls. discriminate E0.
  - intros [Hne Hlen].
    destruct ls as [| l tl]; [contradiction |]. simpl Nat.eqb.
    rewrite Hlen. rewrite Nat.eqb_refl. simpl. eexists. reflexivity.
  - intros c H.
    destruct (Nat.eqb (length ls) 0); [discriminate |].
    destruct (negb _); [discriminate |]. inversion H. split; reflexivity.
  - intro H. unfold given. rewrite H. apply repeat_length.
Qed.

Lemma od_set_keys (k : string) (v : S) (d : Losses.odict S) :
  List.map fst (Losses.od_set k v d)
  = if in_dec string_dec k (List.map fst d)
    then List.map fst d
    else List.map fst d ++ [k].
Proof.
  induction d as [| [k' v'] tl IH]; [reflexivity |].
  simpl Losses.od_set. destruct (String.eqb k k') eqn:E.
  - apply String.eqb_eq in E. subst k'. simpl.
    destruct (string_dec k k) as [Y | N]; [| contradiction].
    destruct (in_dec string_dec k (List.map fst tl)); reflexivity.
  - apply String.eqb_neq in E. simpl. rewrite IH.
    destruct (string_dec k' k) as [Eq | N]; [subst; contradiction |].
    destruct (in_dec string_dec k (List.map fst tl)); reflexivity.
Qed.

Lemma od_set_nodup (k : string) (v : S) (d : Losses.odict S) :
  NoDup (List.map fst d) -> NoDup (List.map fst (Losses.od_set k v d)).
Proof.
  intro H. rewrite od_set_keys.
  destruct (in_dec string_dec k (List.map fst d)) as [Hin | Hin]; [exact H |].
  apply NoDup_app; [exact H | constructor; [intros [] | constructor] |].
  intros x Hx [Hk | []]. subst x. contradiction.
Qed.

Lemma od_set_in (k k0 : string) (v : S) (d : Losses.odict S) :
  In k0 (List.map fst (Losses.od_set k v d)) <-> k0 = k \/ In k0 (List.map fst d).
Proof.
  rewrite od_set_keys.
  destruct (in_dec string_dec k (List.map fst d)) as [Hin | Hin].
  - split; [intro H; right; exact H |].
    intros [H | H]; [subst; exact Hin | exact H].
  - rewrite in_app_iff. simpl. split.
    + intros [H | [H | []]]; [right; exact H | left; symmetry; exact H].
    + intros [H | H]; [right; left; symmetry; exact H | left; exact H].
Qed.

Lemma od_set_head (k : string) (v : S) (k0 : string) (v0 : S) (tl : Losses.odict S) :
  exists v1 tl', Losses.od_set k v ((k0, v0) :: tl) = (k0, v1) :: tl'.
Proof.
  simpl. destruct (String.eqb k k0) eqn:E.
  - apply String.eqb_eq in E. subst. eexists _, _. reflexivity.
  - eexists _, _. reflexivity.
Qed.

Lemma od_update_shape (single_dict d : Losses.odict S) (k0 : string) (v0 : S)
      (tl : Losses.odict S) :
  d = (k0, v0) :: tl ->
  NoDup (List.map fst d) ->
  let d' := Losses.od_update d single_dict in
  NoDup (List.map fst d')
  /\ (exists v1 tl', d' = (k0, v1) :: tl')
  /\ (forall k, In k (List.map fst d')
                <-> In k (List.map fst d) \/ In k (List.map fst single_dict)).
Proof.
  unfold Losses.od_update. revert d k0 v0 tl.
  induction single_dict as [| [k v] rest IH]; intros d k0 v0 tl Hd Hnd; simpl.
  - repeat split; try assumption.
    + subst d. eexists _, _. reflexivity.
    + intro H. left. exact H.
    + intros [H | []]. exact H.
  - destruct (od_set_head k v k0 v0 tl) as [v1 [tl1 H1]]. rewrite <- Hd in H1.
    destruct (IH (Losses.od_set k v d) k0 v1 tl1 H1 (od_set_nodup k v d Hnd))
      as [Hn [Hh Hk]].
    split; [exact Hn |]. split; [exact Hh |].
    intro x. rewrite Hk. rewrite od_set_in. simpl. intuition (subst; auto).
Qed.

(** X11.  The mapping [ComposeImageLoss.forward] returns holds every
    key once, starts with ['compose loss'], bound to the loss returned, and
    its keys are ['compose loss'] and the keys the sub-losses reported, no
    other. *)
Theorem compose_report_keys
        (c : Losses.ComposeImageLoss S Images Labels)
        (images : Images) (labels : Labels)
        (total : S) (return_dict : Losses.odict S) :
  Losses.forward zero add mul c images labels = Ok (total, return_dict) ->
  NoDup (List.map fst return_dict)
  /\ (exists tl, return_dict = (Losses.compose_key, total) :: tl)
  /\ (forall k, In k (List.map fst return_dict)
                <-> k = Losses.compose_key
                    \/ In k (List.map fst
                               (reported images labels
                                  (combine (Losses.losses c) (Losses.weights c))))).
Proof.
  unfold Losses.forward. rewrite forward_loop.
  destruct (combine (Losses.losses c) (Losses.weights c)) as [| p tl] eqn:Ep;
    [discriminate |].
  rewrite <- Ep. intro H. inversion H as [[Ht Hr]]. clear H.
  set (entries := reported images labels (combine (Losses.losses c) (Losses.weights c))) in *.
  destruct (od_update_shape entries [(Losses.compose_key, zero)]
              Losses.compose_key zero [] eq_refl)
    as [Hn [[v1 [tl1 Hh]] Hk]].
  { constructor; [intros [] | constructor]. }
  cbv zeta in Hn, Hh, Hk.
  split; [apply od_set_nodup; exact Hn |].
  split.
  - rewrite Hh. simpl. eexists. reflexivity.
  - intro k. rewrite od_set_in. rewrite Hk. simpl. intuition (subst; auto).
Qed.

End ComposeEdges.

Lemma compose_report_keys_witness :
  NoDup (List.map fst [("compose loss", 11 # 1); ("loss", 4 # 1)]%Q)
  /\ (exists tl, [("compose loss", 11 # 1); ("loss", 4 # 1)]%Q
                 = (Losses.compose_key, (11 # 1)%Q) :: tl)
  /\ (forall k, In k (List.map fst [("compose loss", 11 # 1); ("loss", 4 # 1)]%Q)
                <-> k = Losses.compose_key
                    \/ In k (List.map fst
                               (reported tt tt
                                  (combine (Losses.losses (compose_of "loss" "loss"))
                                           (Losses.weights (compose_of "loss" "loss")))))).
Proof.
  apply (compose_report_keys Q 0%Q Qplus Qmult unit unit (compose_of "loss" "loss") tt tt
           (11 # 1)%Q [("compose loss", 11 # 1); ("loss", 4 # 1)]%Q).
  reflexivity.
Defined.

(** ** attack/losses.py: the augmented classification loss *)

Section AugmentFacts.

Variable S : Type.
Variable zero one : S.
Variable add mul : S -> S -> S.
Variable div_count : S -> Z -> S.
Variables Images Labels Conf : Type.

Lemma augment_loop_fold (self : ImageAugmentClassificationLoss S Images Labels Conf)
      (labels : Labels) (views : list Images) (loss acc : S) (total_num : Z) :
  fold_left (augment_step S add Images Labels Conf self labels) views
            (loss, acc, total_num)
  = (fold_left (fun l v => add l (loss_fn self (classifier self v) labels)) views loss,
     fold_left (fun a v => add a (accuracy self (classifier self v) labels)) views acc,
     total_num + Z.of_nat (length views)).
Proof.
  revert loss acc total_num.
  induction views as [| v tl IH]; intros loss acc total_num.
  - simpl. rewrite Z.add_0_r. reflexivity.
  - simpl fold_left. unfold augment_step at 1. rewrite IH. f_equal.
    simpl length. rewrite Nat2Z.inj_succ. lia.
Qed.

(** X12.  [ImageAugmentClassificationLoss.forward] returns the sum,
    from 0 and in order, of the classification losses of the views that
    [create_aug_images_fn] gives (the sum, not the mean), and reports it
    with the accuracy averaged over the views; with no view it raises
    [AttributeError], the loss being still the integer 0. *)
Theorem augment_forward_views
        (self : ImageAugmentClassificationLoss S Images Labels Conf)
        (images : Images) (labels : Labels) :
  let views := create_aug_images_fn self images in
  let loss := fold_left (fun l v => add l (loss_fn self (classifier self v) labels))
                        views zero in
  let acc := fold_left (fun a v => add a (accuracy self (classifier self v) labels))
                       views zero in
  augment_forward zero add div_count self images labels
  = match views with
    | [] => Raise (AttributeError "'int' object has no attribute 'item'")
    | _ :: _ =>
        Ok (loss, [("classification loss", loss);
                   ("target acc", div_count acc (Z.of_nat (length views)))])
    end.
Proof.
  intros views loss acc. unfold augment_forward, augment_report, augment_loop.
  fold views. rewrite augment_loop_fold. fold loss. fold acc.
  destruct views; reflexivity.
Qed.

Lemma augment_report_dict
      (self : ImageAugmentClassificationLoss S Images Labels Conf)
      (images : Images) (labels : Labels) :
  exists loss acc : S,
    augment_report zero add div_count self images labels
    = (loss, [("classification loss", loss); ("target acc", acc)]).
Proof.
  unfold augment_report.
  destruct (augment_loop zero add self images labels) as [[loss acc] total_num].
  eexists _, _. reflexivity.
Qed.

Lemma last_cons {X : Type} (x d : X) (tl : list X) : last (x :: tl) d = last tl x.
Proof.
  revert x d. induction tl as [| y tl IH]; intros x d; [reflexivity |].
  change (last (x :: y :: tl) d) with (last (y :: tl) d).
  rewrite (IH y d). symmetry. apply IH.
Qed.

Lemma last_of_map {X Y : Type} (f : X -> Y) (l : list X) (d : X) :
  last (List.map f l) (f d) = f (last l d).
Proof.
  induction l as [| x tl IH]; [reflexivity |].
  simpl List.map. rewrite !last_cons. clear IH. revert x.
  induction tl as [| y tl IH]; intro x; [reflexivity |].
  simpl List.map. rewrite !last_cons. apply IH.
Qed.

Lemma od_update_same_keys
      (reports : list (S * Losses.odict S)) (z : S) (r0 : S * Losses.odict S) :
  (forall r, In r (r0 :: reports) ->
             exists loss acc, r = (loss, [("classification loss", loss); ("target acc", acc)])) ->
  Losses.od_update ((Losses.compose_key, z) :: snd r0)
                   (flat_map (fun r => snd r) reports)
  = (Losses.compose_key, z) :: snd (last reports r0).
Proof.
  revert r0. induction reports as [| r tl IH]; intros r0 H; [reflexivity |].
  simpl flat_map. rewrite od_update_app. rewrite last_cons.
  destruct (H r0 (or_introl eq_refl)) as [l0 [a0 E0]].
  destruct (H r (or_intror (or_introl eq_refl))) as [l [a E]].
  rewrite <- (IH r).
  - f_equal. rewrite E0, E. reflexivity.
  - intros r' Hr'. apply H. right. exact Hr'.
Qed.

Lemma flat_map_combine {X Y Z' : Type} (G : X -> list Z') (l : list X) (w : list Y) :
  length l = length w ->
  flat_map (fun p => G (fst p)) (combine l w) = flat_map G l.
Proof.
  revert w. induction l as [| x tl IH]; intros [| y w] H; try discriminate.
  - reflexivity.
  - simpl. rewrite IH; [reflexivity |]. simpl in H. congruence.
Qed.

(** X13.  A [ComposeImageLoss] whose sub-losses are all
    [ImageAugmentClassificationLoss] with at least one view each: every
    sub-loss returns its pair, all report under the same two keys, and the
    mapping returned holds three entries, ['compose loss'] and the
    ['classification loss'] and ['target acc'] of the last sub-loss; those
    of the earlier sub-losses are overwritten. *)
Theorem compose_of_augment_losses
        (selves : list (ImageAugmentClassificationLoss S Images Labels Conf))
        (ws : option (list S))
        (c : Losses.ComposeImageLoss S Images Labels)
        (images : Images) (labels : Labels)
        (self0 : ImageAugmentClassificationLoss S Images Labels Conf) :
  Losses.compose_init one (List.map (augment_lossfn zero add div_count) selves) ws = Ok c ->
  (forall self, In self selves -> create_aug_images_fn self images <> []) ->
  (forall self, In self selves ->
                exists loss single_dict,
                  augment_forward zero add div_count self images labels
                  = Ok (loss, single_dict)
                  /\ augment_lossfn zero add div_count self images labels
                     = Losses.WithDict loss single_dict)
  /\ exists total,
      Losses.forward zero add mul c images labels
      = Ok (total,
            (Losses.compose_key, total)
              :: snd (augment_report zero add div_count (last selves self0) images labels)).
Proof.
  intros Hinit Hviews. split.
  - intros self Hin. unfold augment_forward, augment_lossfn.
    destruct (create_aug_images_fn self images) as [| v tl] eqn:E;
      [exfalso; apply (Hviews self Hin); exact E |].
    destruct (augment_report zero add div_count self images labels) as [loss d].
    exists loss, d. split; reflexivity.
  - destruct (compose_init_shape S one Images Labels
                (List.map (augment_lossfn zero add div_count) selves) ws)
      as [[Hacc _] [Hfields _]].
    destruct (Hacc (ex_intro _ c Hinit)) as [Hne Hlen].
    destruct (Hfields c Hinit) as [Hl Hw].
    destruct selves as [| s1 rest]; [exfalso; apply Hne; reflexivity |].
    set (given := match ws with
                  | None => repeat one (length (List.map (augment_lossfn zero add div_count)
                                                         (s1 :: rest)))
                  | Some w => w
                  end) in *.
    set (pairs := combine (List.map (augment_lossfn zero add div_count) (s1 :: rest)) given).
    assert (Hrep : Losses.od_update [(Losses.compose_key, zero)]
                     (reported images labels pairs)
                   = (Losses.compose_key, zero)
                       :: snd (augment_report zero add div_count
                                 (last (s1 :: rest) self0) images labels)).
    { unfold reported, pairs.
      etransitivity.
      { apply (f_equal (Losses.od_update [(Losses.compose_key, zero)])).
        exact (flat_map_combine
                 (fun fn : Losses.lossfn S Images Labels => diagnostics (fn images labels))
                 _ given (eq_sym Hlen)). }
      rewrite flat_map_concat_map, map_map, <- flat_map_concat_map.
      change (fun x : ImageAugmentClassificationLoss S Images Labels Conf => diagnostics (augment_lossfn zero add div_count x images labels))
        with (fun x : ImageAugmentClassificationLoss S Images Labels Conf => snd (augment_report zero add div_count x images labels)).
      rewrite (flat_map_concat_map _ (s1 :: rest)).
      rewrite <- (map_map (fun x : ImageAugmentClassificationLoss S Images Labels Conf => augment_report zero add div_count x images labels)
                          (fun r => snd r)).
      rewrite <- flat_map_concat_map.
      simpl List.map. simpl flat_map. rewrite od_update_app.
      rewrite last_cons.
      destruct (augment_report_dict s1 images labels) as [l1 [a1 E1]].
      assert (Hfirst : Losses.od_update [(Losses.compose_key, zero)]
                         (snd (augment_report zero add div_count s1 images labels))
                       = (Losses.compose_key, zero)
                           :: snd (augment_report zero add div_count s1 images labels)).
      { rewrite E1. reflexivity. }
      rewrite Hfirst.
      rewrite od_update_same_keys.
      + rewrite (last_of_map (fun x : ImageAugmentClassificationLoss S Images Labels Conf => augment_report zero add div_count x images labels)).
        reflexivity.
      + intros r [Hr | Hr].
        * subst r. apply augment_report_dict.
        * apply in_map_iff in Hr. destruct Hr as [s [Hs _]]. subst r.
          apply augment_report_dict. }
    unfold Losses.forward. rewrite forward_loop. rewrite Hl, Hw. fold pairs.
    rewrite Hrep.
    destruct pairs as [| p ps] eqn:Ep.
    { unfold pairs in Ep. destruct given; simpl in Hlen; [discriminate | discriminate Ep]. }
    eexists. reflexivity.
Qed.

End AugmentFacts.

(** Two sub-losses on the batch 5: the first reports a loss of 11 and an
    accuracy of 1, the second a loss of 10 and an accuracy of one half;
    the mapping returned holds the entries of the second only. *)
Lemma compose_of_augment_losses_witness :
  augment_forward 0%Q Qplus Qdiv_count sample_augment_loss 5 tt
  = Ok ((0 + 5 + 6)%Q,
        [("classification loss", (0 + 5 + 6)%Q);
         ("target acc", ((0 + 1 + 1) / 2)%Q)])
  /\ exists total,
      Losses.forward 0%Q Qplus Qmult
                     (Losses.mkCompose
                        [augment_lossfn 0%Q Qplus Qdiv_count sample_augment_loss;
                         augment_lossfn 0%Q Qplus Qdiv_count other_augment_loss]
                        [1%Q; 1%Q])
                     5 tt
      = Ok (total,
            [(Losses.compose_key, total);
             ("classification loss", (0 + 10)%Q);
             ("target acc", ((0 + (1 # 2)) / 1)%Q)]).
Proof.
  split; [reflexivity |].
  apply (compose_of_augment_losses Q 0%Q 1%Q Qplus Qmult Qdiv_count Z unit Z
           [sample_augment_loss; other_augment_loss] None
           (Losses.mkCompose
              [augment_lossfn 0%Q Qplus Qdiv_count sample_augment_loss;
               augment_lossfn 0%Q Qplus Qdiv_count other_augment_loss]
              [1%Q; 1%Q])
           5 tt sample_augment_loss).
  - reflexivity.
  - intros self [H | [H | []]]; subst self; discriminate.
Defined.

(** ** attack/base.py: what normalisation does to a configuration *)

Section ConfigEdges.

Variables Latent Image Score : Type.

(** X14.  [_preprocess_config] only raises the counts: [final_num]
    is kept, [optimize_num] becomes the larger of itself and [final_num],
    [initial_num] the larger of itself and the new [optimize_num], an unset
    count standing for [final_num]; no warning is emitted exactly when the
    counts given were ordered already. *)
Theorem preprocess_raises_counts
        (cfg cfg' : ImageClassifierAttackConfig Latent Image Score) (l : list event) :
  _preprocess_config cfg = (l, Ok cfg') ->
  exists final : Z,
    let initial := match initial_num cfg with None => final | Some n => n end in
    let optimize := match optimize_num cfg with None => final | Some n => n end in
    final_num cfg = Some final
    /\ final_num cfg' = Some final
    /\ optimize_num cfg' = Some (Z.max optimize final)
    /\ initial_num cfg' = Some (Z.max initial (Z.max optimize final))
    /\ (l = [] <-> final <= optimize <= initial).
Proof.
  intro H. destruct (preprocess_accepted Latent Image Score cfg cfg' l H)
    as [final [Hf Hrest]].
  exists final. cbv zeta in *.
  destruct Hrest as [Hf' [Ho [Hi Hl]]].
  set (initial := match initial_num cfg with None => final | Some n => n end) in *.
  set (optimize := match optimize_num cfg with None => final | Some n => n end) in *.
  split; [exact Hf |]. split; [exact Hf' |].
  destruct (optimize <? final) eqn:C1;
    [apply Z.ltb_lt in C1 | apply Z.ltb_ge in C1];
    match type of Hi with
    | context [if ?c then _ else _] => destruct c eqn:C2
    end;
    [apply Z.ltb_lt in C2 | apply Z.ltb_ge in C2
     | apply Z.ltb_lt in C2 | apply Z.ltb_ge in C2];
    (split; [rewrite Ho; f_equal; lia |]);
    (split; [rewrite Hi; f_equal; lia |]);
    rewrite Hl; simpl; (split; [intro N; first [discriminate N | lia] | intro N; first [lia | reflexivity]]).
Qed.

(** X15.  A configuration returned by [_preprocess_config] is a
    fixed point: preprocessing it again returns it unchanged, without a
    warning. *)
Theorem preprocess_idempotent
        (cfg cfg' : ImageClassifierAttackConfig Latent Image Score) (l : list event) :
  _preprocess_config cfg = (l, Ok cfg') ->
  _preprocess_config cfg' = ([], Ok cfg').
Proof.
  unfold _preprocess_config at 1.
  destruct ((save_optimized_images cfg || save_final_images cfg)
            && falsy (save_dir cfg)) eqn:E1; [discriminate |].
  destruct (is_none (sample_latents_fn cfg)) eqn:E2; [discriminate |].
  destruct (is_none (optimize_fn cfg)) eqn:E3; [discriminate |].
  destruct (final_num cfg) as [final |]; [| discriminate].
  set (initial := match initial_num cfg with None => final | Some n => n end).
  set (optimize := match optimize_num cfg with None => final | Some n => n end).
  intro H.
  assert (Hcfg' : exists o i,
             final <= o /\ o <= i
             /\ cfg' = mkConfig (sample_latents_fn cfg) (Some i)
                                (initial_latents_score_fn cfg)
                                (Some (match initial_select_batch_size cfg with
                                       | None => optimize_batch_size cfg
                                       | Some b => b
                                       end))
                                (Some o) (optimize_batch_size cfg) (optimize_fn cfg)
                                (Some final) (final_images_score_fn cfg)
                                (match final_select_batch_size cfg with
                                 | None => final_select_batch_size cfg
                                 | Some b => Some b
                                 end)
                                (save_dir cfg) (save_optimized_images cfg)
                                (save_final_images cfg) (save_normalize cfg)).
  { destruct (optimize <? final) eqn:C1; simpl in H.
    - destruct (initial <? final) eqn:C2; simpl in H; inversion H;
        [apply Z.ltb_lt in C2 | apply Z.ltb_ge in C2];
        eexists _, _; (split; [| split; [| reflexivity]]); lia.
    - apply Z.ltb_ge in C1.
      destruct (initial <? optimize) eqn:C2; simpl in H; inversion H;
        [apply Z.ltb_lt in C2 | apply Z.ltb_ge in C2];
        eexists _, _; (split; [| split; [| reflexivity]]); lia. }
  destruct Hcfg' as [o [i [Hfo [Hoi Hc]]]]. subst cfg'.
  unfold _preprocess_config. simpl.
  rewrite E1, E2, E3.
  replace (o <? final) with false by (symmetry; apply Z.ltb_ge; lia).
  simpl.
  replace (i <? o) with false by (symmetry; apply Z.ltb_ge; lia).
  simpl. destruct (final_select_batch_size cfg); reflexivity.
Qed.

Lemma preprocess_save_dir
      (cfg cfg' : ImageClassifierAttackConfig Latent Image Score) (l : list event) :
  _preprocess_config cfg = (l, Ok cfg') ->
  save_optimized_images cfg' = true \/ save_final_images cfg' = true ->
  exists dir, save_dir cfg' = Some dir /\ dir <> "".
Proof.
  unfold _preprocess_config.
  destruct ((save_optimized_images cfg || save_final_images cfg)
            && falsy (save_dir cfg)) eqn:E1; [discriminate |].
  destruct (is_none (sample_latents_fn cfg)); [discriminate |].
  destruct (is_none (optimize_fn cfg)); [discriminate |].
  destruct (final_num cfg) as [final |]; [| discriminate].
  intro H.
  assert (Hsave : save_optimized_images cfg = true \/ save_final_images cfg = true ->
                  exists dir, save_dir cfg = Some dir /\ dir <> "").
  { intro Hs. apply andb_false_iff in E1. destruct E1 as [E1 | E1].
    - destruct Hs as [Hs | Hs]; rewrite Hs in E1;
        [discriminate | rewrite orb_true_r in E1; discriminate].
    - destruct (save_dir cfg) as [dir |]; [| discriminate].
      exists dir. split; [reflexivity |]. intro Hd. subst dir. discriminate. }
  match type of H with
  | context [if ?c then _ else _] => destruct c
  end; simpl in H;
    match type of H with
    | context [if ?c then _ else _] => destruct c
    end; simpl in H; inversion H; subst cfg'; simpl; exact Hsave.
Qed.

(** X16.  [_preprocess_config] returns the sampler, the
    optimizer, both score functions, [optimize_batch_size], [save_dir] and
    the save flags as given; [initial_select_batch_size] defaults to
    [optimize_batch_size], while [final_select_batch_size] stays as given
    (the line assigns the field to itself).  In what is returned the sampler
    and the optimizer are set, and a save flag implies a [save_dir] that is
    not empty. *)
Theorem preprocess_keeps_collaborators
        (cfg cfg' : ImageClassifierAttackConfig Latent Image Score) (l : list event) :
  _preprocess_config cfg = (l, Ok cfg') ->
  (exists f, sample_latents_fn cfg' = Some f /\ sample_latents_fn cfg = Some f)
  /\ (exists f, optimize_fn cfg' = Some f /\ optimize_fn cfg = Some f)
  /\ initial_latents_score_fn cfg' = initial_latents_score_fn cfg
  /\ final_images_score_fn cfg' = final_images_score_fn cfg
  /\ optimize_batch_size cfg' = optimize_batch_size cfg
  /\ initial_select_batch_size cfg'
     = Some (match initial_select_batch_size cfg with
             | None => optimize_batch_size cfg
             | Some b => b
             end)
  /\ final_select_batch_size cfg' = final_select_batch_size cfg
  /\ save_dir cfg' = save_dir cfg
  /\ save_optimized_images cfg' = save_optimized_images cfg
  /\ save_final_images cfg' = save_final_images cfg
  /\ (save_optimized_images cfg' = true \/ save_final_images cfg' = true ->
      exists dir, save_dir cfg' = Some dir /\ dir <> "").
Proof.
  unfold _preprocess_config.
  destruct ((save_optimized_images cfg || save_final_images cfg)
            && falsy (save_dir cfg)) eqn:E1; [discriminate |].
  destruct (sample_latents_fn cfg) as [sf |] eqn:E2; [| discriminate].
  destruct (optimize_fn cfg) as [opt |] eqn:E3; [| discriminate].
  simpl is_none. cbv iota.
  destruct (final_num cfg) as [final |]; [| discriminate].
  set (initial := match initial_num cfg with None => final | Some n => n end).
  set (optimize := match optimize_num cfg with None => final | Some n => n end).
  intro H.
  assert (Hsave : save_optimized_images cfg = true \/ save_final_images cfg = true ->
                  exists dir, save_dir cfg = Some dir /\ dir <> "").
  { intro Hs. apply andb_false_iff in E1. destruct E1 as [E1 | E1].
    - destruct Hs as [Hs | Hs]; rewrite Hs in E1;
        [discriminate | rewrite orb_true_r in E1; discriminate].
    - destruct (save_dir cfg) as [dir |]; [| discriminate].
      exists dir. split; [reflexivity |]. intro Hd. subst dir. discriminate. }
  destruct (optimize <? final); simpl in H;
    match type of H with
    | context [if ?c then _ else _] => destruct c
    end; simpl in H; inversion H; subst cfg'; simpl;
    (split; [exists sf; split; reflexivity |]);
    (split; [exists opt; split; reflexivity |]);
    repeat (split; [first [reflexivity | destruct (final_select_batch_size cfg); reflexivity] |]);
    exact Hsave.
Qed.

End ConfigEdges.

Lemma preprocess_raises_counts_witness :
  exists final : Z,
    Some 20 = Some final
    /\ final_num (sample_stored 20 None false) = Some final
    /\ optimize_num (sample_stored 20 None false) = Some (Z.max 10 final)
    /\ initial_num (sample_stored 20 None false) = Some (Z.max 5 (Z.max 10 final))
    /\ ([Warned "the final number is larger than the optimize number, automatically set the latter to the fronter";
         Warned "the optimize number is larger than the initial number, automatically set the latter to the fronter"]
        = [] <-> final <= 10 <= 5).
Proof.
  exact (preprocess_raises_counts Z Z Q
           (sample_config (Some 5) (Some 10) (Some 20) None false)
           (sample_stored 20 None false) _ eq_refl).
Defined.

Lemma preprocess_idempotent_witness :
  _preprocess_config (sample_stored 20 None false)
  = ([], Ok (sample_stored 20 None false)).
Proof.
  apply (preprocess_idempotent Z Z Q
           (sample_config (Some 5) (Some 10) (Some 20) None false)
           (sample_stored 20 None false)
           [Warned "the final number is larger than the optimize number, automatically set the latter to the fronter";
            Warned "the optimize number is larger than the initial number, automatically set the latter to the fronter"]).
  reflexivity.
Defined.

Lemma preprocess_keeps_collaborators_witness :
  initial_select_batch_size (sample_stored 1 (Some "out") true) = Some 5
  /\ final_select_batch_size (sample_stored 1 (Some "out") true) = None
  /\ exists dir, save_dir (sample_stored 1 (Some "out") true) = Some dir /\ dir <> "".
Proof.
  destruct (preprocess_keeps_collaborators Z Z Q
              (sample_config None None (Some 1) (Some "out") true)
              (sample_stored 1 (Some "out") true) [] eq_refl)
    as [_ [_ [_ [_ [_ [Hi [Hf [_ [_ [_ Hdir]]]]]]]]]].
  split; [exact Hi |]. split; [exact Hf |].
  apply Hdir. left. reflexivity.
Defined.

(** ** attack/base.py: optimized images, final selection and the report *)

Section PipelineEdges.

Variables Latent Image Score Value : Type.

Lemma number_from_combine_snd {X Y : Type} (g : Z * (X * Y) -> X)
      (Hg : forall i x y, g (i, (x, y)) = x) (xs : list X) (ys : list Y) (i : Z) :
  length xs = length ys ->
  List.map g (number_from i (combine xs ys)) = xs.
Proof.
  revert ys i. induction xs as [| x xs IH]; intros [| y ys] i H; try discriminate;
    [reflexivity |].
  simpl. rewrite Hg. f_equal. apply IH. simpl in H. lia.
Qed.

(** X17.  On an attacker whose configuration passed
    [_preprocess_config], [batch_optimize] with an optimizer that returns
    [(images, labels)] appends that batch to the optimized images and
    labels, leaves configuration and metrics alone, adds no event to those
    of the optimizer, and writes each image once, in order, when
    [save_optimized_images] is set, nothing otherwise.  If the optimizer
    returns images and labels of different numbers it raises
    [AssertionError]. *)
Theorem batch_optimize_appends
        (get_random_string : nat -> string)
        (cfg : ImageClassifierAttackConfig Latent Image Score) (l0 : list event)
        (self : ImageClassifierAttacker Latent Image Score Value)
        (f : optimizer Latent Image)
        (init_latents : list Latent) (labels : list Z) (drawn : nat)
        (l : list event) (images : list Image) (labels' : list Z) :
  _preprocess_config cfg = (l0, Ok (config self)) ->
  optimize_fn (config self) = Some f ->
  f init_latents labels = (l, Ok (images, labels')) ->
  if Nat.eqb (length images) (length labels')
  then exists written,
      batch_optimize get_random_string self init_latents labels drawn
      = (l, Ok (mkAttacker (config self) (metrics self)
                           (optimized_images self ++ [images])
                           (optimized_labels self ++ [labels']),
                written))
      /\ List.map snd written
         = (if save_optimized_images (config self) then images else [])
  else batch_optimize get_random_string self init_latents labels drawn
       = (l, Raise AssertionError).
Proof.
  intros Hcfg Hf Hrun.
  unfold batch_optimize, update_optimized_images. rewrite Hf, Hrun.
  rewrite bind_ok. cbn [fst snd].
  destruct (Nat.eqb (length images) (length labels')) eqn:E.
  - rewrite bind_ret. rewrite bind_ret. cbn [config].
    destruct (save_optimized_images (config self)) eqn:Es.
    + destruct (preprocess_save_dir Latent Image Score cfg (config self) l0 Hcfg
                  (or_introl Es)) as [dir [Hd _]].
      rewrite Hd.
      unfold save_images. rewrite E. rewrite bind_ret. rewrite bind_ret.
      eexists. split; [rewrite app_nil_r; reflexivity |].
      rewrite List.map_map.
      apply (number_from_combine_snd (fun p : Z * (Image * Z) => fst (snd p))).
      * reflexivity.
      * apply Nat.eqb_eq. exact E.
    + eexists. split; [rewrite app_nil_r; reflexivity | reflexivity].
  - simpl. rewrite app_nil_r. reflexivity.
Qed.

Lemma accumulate_aligned
      (batches : list (list Image * list Z))
      (self : ImageClassifierAttacker Latent Image Score Value) :
  Forall (fun b => length (fst b) = length (snd b)) batches ->
  fold_m (fun s b => update_optimized_images s (fst b) (snd b)) batches self
  = ([], Ok (mkAttacker (config self) (metrics self)
                        (optimized_images self ++ List.map fst batches)
                        (optimized_labels self ++ List.map snd batches))).
Proof.
  intro H. revert self. induction H as [| b tl Hb _ IH]; intro self.
  - simpl. rewrite !app_nil_r. destruct self; reflexivity.
  - cbn [fold_m]. unfold update_optimized_images at 1.
    rewrite Hb, Nat.eqb_refl. rewrite bind_ret. rewrite bind_ret.
    rewrite IH. cbn [config metrics optimized_images optimized_labels List.map].
    rewrite <- !app_assoc. reflexivity.
Qed.

Lemma concat_aligned (batches : list (list Image * list Z)) :
  Forall (fun b => length (fst b) = length (snd b)) batches ->
  length (concat (List.map fst batches)) = length (concat (List.map snd batches)).
Proof.
  induction 1 as [| b tl Hb _ IH]; [reflexivity |].
  simpl. rewrite !length_app. lia.
Qed.

(** X18.  Whatever an attacker has accumulated, after any sequence of
    [update_optimized_images] calls with batches of as many labels as
    images its two lists are the earlier ones followed by the new batches
    in call order, configuration and metrics being left alone; if a batch
    was added, [concat_optimized_images] returns the concatenation of each
    list, to which the new batches contribute equally many images and
    labels; with nothing accumulated (the empty lists [__init__] sets, and
    no batch) it raises, [torch.cat] being given an empty list. *)
Theorem accumulate_then_concat
        (self : ImageClassifierAttacker Latent Image Score Value)
        (batches : list (list Image * list Z)) :
  Forall (fun b => length (fst b) = length (snd b)) batches ->
  exists self',
    fold_m (fun s b => update_optimized_images s (fst b) (snd b)) batches self
    = ([], Ok self')
    /\ config self' = config self
    /\ metrics self' = metrics self
    /\ optimized_images self' = optimized_images self ++ List.map fst batches
    /\ optimized_labels self' = optimized_labels self ++ List.map snd batches
    /\ (batches <> [] ->
        concat_optimized_images self'
        = ([], Ok (concat (optimized_images self ++ List.map fst batches),
                   concat (optimized_labels self ++ List.map snd batches))))
    /\ (optimized_images self = [] -> batches = [] ->
        returns (concat_optimized_images self') = false)
    /\ length (concat (List.map fst batches)) = length (concat (List.map snd batches)).
Proof.
  intro Hb.
  eexists. split; [apply accumulate_aligned; exact Hb |].
  cbn [config metrics optimized_images optimized_labels].
  repeat split.
  - intro Hne. unfold concat_optimized_images.
    cbn [optimized_images optimized_labels].
    destruct batches as [| b tl]; [contradiction |].
    unfold torch_cat.
    destruct (optimized_images self ++ List.map fst (b :: tl)) eqn:E1;
      [apply app_eq_nil in E1; destruct E1 as [_ E1]; discriminate |].
    destruct (optimized_labels self ++ List.map snd (b :: tl)) eqn:E2;
      [apply app_eq_nil in E2; destruct E2 as [_ E2]; discriminate |].
    reflexivity.
  - intros Hi Hn. subst batches. unfold concat_optimized_images.
    cbn [optimized_images optimized_labels List.map]. rewrite Hi. reflexivity.
  - apply concat_aligned. exact Hb.
Qed.

(** X19.  [final_selection] returns if and only if images and
    labels are equally many and nothing is to be selected ([final_num] is
    the number of images, or there is no score function).  It never calls
    a score function.  When it does not return, the outcome is the
    [AssertionError] of its first line or, on the scored path, the
    [RuntimeError] of [batch_apply], raised after "execute final selection"
    was printed. *)
Theorem final_selection_returns_iff
        (score_leb : Score -> Score -> bool)
        (self : ImageClassifierAttacker Latent Image Score Value)
        (batch_size final_num : Z) (images : list Image) (labels : list Z)
        (image_score_fn : scorer Latent Image Score) :
  let run := final_selection score_leb self batch_size final_num images labels
                             image_score_fn in
  (returns run = true
   <-> length images = length labels
       /\ (final_num = Z.of_nat (length images) \/ image_score_fn = None))
  /\ (forall c : Z * Z, ~ In (invoked c) (events run))
  /\ (returns run = false ->
      run = ([], Raise AssertionError)
      \/ run = ([Printed "execute final selection" IO.newline],
                Raise (RuntimeError "some inputs have no attr `len`"))).
Proof.
  cbv zeta.
  destruct (Nat.eqb (length images) (length labels)) eqn:Elen.
  - apply Nat.eqb_eq in Elen.
    destruct (Z.eq_dec final_num (Z.of_nat (length images))) as [Hn | Hn].
    + rewrite (final_selection_early Latent Image Score Value score_leb self batch_size
                 final_num images labels image_score_fn Elen (or_introl Hn)).
      split; [split; [intros _; split; [exact Elen | left; exact Hn] | reflexivity] |].
      split; [| discriminate].
      intros c. destruct (final_num =? Z.of_nat (length images)); simpl;
        [tauto | intros [H | []]; discriminate H].
    + destruct image_score_fn as [f |].
      * rewrite (final_selection_scored Latent Image Score Value score_leb self batch_size
                   final_num images labels f Elen Hn).
        split; [split; [discriminate | intros [_ [H | H]]; [contradiction | discriminate]] |].
        split; [| intros _; right; reflexivity].
        intros c [H | []]; discriminate H.
      * rewrite (final_selection_early Latent Image Score Value score_leb self batch_size
                   final_num images labels None Elen (or_intror eq_refl)).
        split; [split; [intros _; split; [exact Elen | right; reflexivity] | reflexivity] |].
        split; [| discriminate].
        intros c. destruct (final_num =? Z.of_nat (length images)); simpl;
          [tauto | intros [H | []]; discriminate H].
  - unfold final_selection. rewrite Elen. simpl.
    apply Nat.eqb_neq in Elen.
    split; [split; [discriminate | intros [H _]; contradiction] |].
    split; [tauto | intros _; left; reflexivity].
Qed.

Lemma metric_report_loop (images : list Image) (labels : list Z)
      (fs : list (list Image -> list Z -> list (string * Value)))
      (acc : list (string * Value)) :
  fold_m (fun (result : list (string * Value)) (m : metric Image Value) =>
            d <- m images labels ;; ret (Losses.od_update result d))
         (List.map pure_metric fs) acc
  = ([], Ok (Losses.od_update acc (flat_map (fun f => f images labels) fs))).
Proof.
  revert acc. induction fs as [| f fs IH]; intro acc; [reflexivity |].
  cbn [List.map fold_m flat_map]. unfold pure_metric at 1.
  rewrite bind_ret. rewrite bind_ret. rewrite IH.
  rewrite od_update_app. reflexivity.
Qed.

Lemma od_update_nodup (single_dict d : list (string * Value)) :
  NoDup (List.map fst d) -> NoDup (List.map fst (Losses.od_update d single_dict)).
Proof.
  unfold Losses.od_update. revert d.
  induction single_dict as [| [k v] tl IH]; intros d H; [exact H |].
  simpl. apply IH. apply od_set_nodup. exact H.
Qed.

(** X20.  The report of [_evaluation]: with metrics that only
    compute, the mapping collected holds every key once, and under each key
    the value of the last entry any metric reported under it: a metric
    reporting under a key of an earlier metric replaces its value. *)
Theorem metric_report_merges
        (self : ImageClassifierAttacker Latent Image Score Value)
        (fs : list (list Image -> list Z -> list (string * Value)))
        (images : list Image) (labels : list Z) :
  metrics self = List.map pure_metric fs ->
  exists report,
    metric_report self images labels = ([], Ok report)
    /\ NoDup (List.map fst report)
    /\ (forall k, Losses.od_get k report
                  = latest k (flat_map (fun f => f images labels) fs)).
Proof.
  intro H. unfold metric_report. rewrite H. rewrite metric_report_loop.
  eexists. split; [reflexivity |]. split.
  - apply od_update_nodup. constructor.
  - intro k. rewrite od_get_update. simpl.
    destruct (latest k (flat_map (fun f => f images labels) fs)); reflexivity.
Qed.

End PipelineEdges.

Lemma batch_optimize_appends_witness :
  exists written,
    batch_optimize (fun _ : nat => "abcdef")
                   (mkAttacker (sample_stored 1 (Some "out") true)
                               ([] : list (metric Z Z)) [] [])
                   [7] [3] 0
    = ([], Ok (mkAttacker (sample_stored 1 (Some "out") true) [] [[7]] [[3]], written))
    /\ List.map snd written = [7].
Proof.
  exact (batch_optimize_appends Z Z Q Z (fun _ : nat => "abcdef")
           (sample_config None None (Some 1) (Some "out") true) []
           (mkAttacker (sample_stored 1 (Some "out") true) [] [] [])
           (fun (latents : list Z) (labels : list Z) => ret (latents, labels))
           [7] [3] 0%nat [] [7] [3] eq_refl eq_refl eq_refl).
Defined.

Lemma accumulate_then_concat_witness :
  exists self' : ImageClassifierAttacker Z Z Q Z,
    fold_m (fun s b => update_optimized_images s (fst b) (snd b))
           [([1; 2], [3; 3]); ([4], [7])]
           (mkAttacker (sample_stored 1 None false) [] [[0]] [[9]])
    = ([], Ok self')
    /\ concat_optimized_images self' = ([], Ok ([0; 1; 2; 4], [9; 3; 3; 7])).
Proof.
  destruct (accumulate_then_concat Z Z Q Z
              (mkAttacker (sample_stored 1 None false) [] [[0]] [[9]])
              [([1; 2], [3; 3]); ([4], [7])])
    as [self' [Hrun [_ [_ [_ [_ [Hcat _]]]]]]].
  - repeat constructor.
  - exists self'. split; [exact Hrun | apply Hcat; discriminate].
Defined.

Lemma final_selection_returns_iff_witness :
  final_selection Qle_bool scenario_attacker 5 1 [5; 6] [3; 3] scenario_scorer
  = ([], Raise AssertionError)
  \/ final_selection Qle_bool scenario_attacker 5 1 [5; 6] [3; 3] scenario_scorer
     = ([Printed "execute final selection" IO.newline],
        Raise (RuntimeError "some inputs have no attr `len`")).
Proof.
  apply (proj2 (proj2 (final_selection_returns_iff Z Z Q Z Qle_bool scenario_attacker
                         5 1 [5; 6] [3; 3] scenario_scorer))).
  reflexivity.
Defined.

Lemma metric_report_merges_witness :
  exists report,
    metric_report (mkAttacker (sample_stored 1 None false)
                              [pure_metric (fun (_ : list Z) (_ : list Z) => [("acc", 1)]);
                               pure_metric (fun (_ : list Z) (_ : list Z) =>
                                              [("acc", 2); ("fid", 3)])]
                              [] [])
                  [7] [3]
    = ([], Ok report)
    /\ Losses.od_get "acc" report = Some 2
    /\ Losses.od_get "fid" report = Some 3.
Proof.
  destruct (metric_report_merges Z Z Q Z
              (mkAttacker (sample_stored 1 None false)
                          [pure_metric (fun (_ : list Z) (_ : list Z) => [("acc", 1)]);
                           pure_metric (fun (_ : list Z) (_ : list Z) =>
                                          [("acc", 2); ("fid", 3)])]
                          [] [])
              [fun (_ : list Z) (_ : list Z) => [("acc", 1)];
               fun (_ : list Z) (_ : list Z) => [("acc", 2); ("fid", 3)]]
              [7] [3] eq_refl)
    as [report [Hrun [_ Hget]]].
  exists report. split; [exact Hrun |].
  split; [apply (Hget "acc") | apply (Hget "fid")].
Defined.

(** ** utils/io.py: the image files of a directory tree *)

Lemma endswith_append (a s suffix : string) :
  endswith s suffix = true -> endswith (String.append a s) suffix = true.
Proof.
  intro H. induction a as [| c a IH]; [exact H |].
  cbn [String.append endswith].
  destruct (String.eqb (String c (String.append a s)) suffix); [reflexivity | exact IH].
Qed.

Lemma endswith_path_join (a b suffix : string) :
  endswith b suffix = true -> endswith (path_join a b) suffix = true.
Proof.
  intro H. unfold path_join.
  destruct (String.prefix "/" b); [exact H |].
  destruct (String.eqb a "" || String.eqb (substring (String.length a - 1) 1 a) "/").
  - apply endswith_append. exact H.
  - apply endswith_append. apply (endswith_append "/"). exact H.
Qed.

Lemma prefix_append (a b : string) : String.prefix a (String.append a b) = true.
Proof.
  induction a as [| c a IH]; simpl.
  - destruct b; reflexivity.
  - destruct (ascii_dec c c) as [_ | N]; [exact IH | contradiction].
Qed.

Lemma prefix_trans (a b c : string) :
  String.prefix a b = true -> String.prefix b c = true -> String.prefix a c = true.
Proof.
  revert b c. induction a as [| x a IH]; intros b c Hab Hbc.
  - destruct c; reflexivity.
  - destruct b as [| y b]; [discriminate |].
    destruct c as [| z c]; [discriminate |].
    simpl in *.
    destruct (ascii_dec x y) as [<- | _]; [| discriminate].
    destruct (ascii_dec x z) as [_ | _]; [| discriminate].
    apply (IH b c Hab Hbc).
Qed.

Lemma prefix_path_join (a b : string) :
  String.prefix "/" b = false -> String.prefix a (path_join a b) = true.
Proof.
  intro H. unfold path_join. rewrite H.
  destruct (String.eqb a "" || String.eqb (substring (String.length a - 1) 1 a) "/");
    apply prefix_append.
Qed.

Lemma walk_dirs_in (path p : string) (entries : list (string * entry)) :
  In p ((fix walk_dirs (dirs : list (string * entry)) : list string :=
           match dirs with
           | [] => []
           | (name, sub) :: tl =>
               match sub with
               | Dir _ => walk_dir (path_join path name) sub
               | _ => []
               end ++ walk_dirs tl
           end) entries)
  <-> exists name sub, In (name, Dir sub) entries
                       /\ In p (walk_dir (path_join path name) (Dir sub)).
Proof.
  induction entries as [| [name sub] tl IH].
  - split; [intros [] | intros [n [s [[] _]]]].
  - rewrite in_app_iff, IH. split.
    + intros [H | [n [s [Hin H]]]].
      * destruct sub as [| t | es]; try contradiction.
        exists name, es. split; [left; reflexivity | exact H].
      * exists n, s. split; [right; exact Hin | exact H].
    + intros [n [s [[Heq | Hin] H]]].
      * inversion Heq. subst name sub. left. exact H.
      * right. exists n, s. split; assumption.
Qed.

Lemma files_of_in (name : string) (entries : list (string * entry)) :
  In name (files_of entries) <-> In (name, File) entries.
Proof.
  unfold files_of. rewrite in_map_iff. split.
  - intros [[n e] [Hn Hin]]. simpl in Hn. subst n.
    apply filter_In in Hin. destruct Hin as [Hin He].
    destruct e; try discriminate. exact Hin.
  - intro H. exists (name, File). split; [reflexivity |].
    apply filter_In. split; [exact H | reflexivity].
Qed.

Lemma walk_dir_in (path p : string) (entries : list (string * entry)) :
  In p (walk_dir path (Dir entries))
  <-> (exists file, In (file, File) entries
                    /\ endswith_any file IMG_EXTENSIONS = true
                    /\ p = path_join path file)
      \/ (exists name sub, In (name, Dir sub) entries
                           /\ In p (walk_dir (path_join path name) (Dir sub))).
Proof.
  cbn [walk_dir]. rewrite in_app_iff, walk_dirs_in.
  apply or_iff_compat_r. rewrite in_map_iff. split.
  - intros [file [Hp Hin]]. apply filter_In in Hin. destruct Hin as [Hin Hext].
    exists file. split; [apply files_of_in; exact Hin |].
    split; [exact Hext | symmetry; exact Hp].
  - intros [file [Hin [Hext Hp]]]. exists file. split; [symmetry; exact Hp |].
    apply filter_In. split; [apply files_of_in; exact Hin | exact Hext].
Qed.

Lemma walk_dir_sound (e : entry) :
  forall path p entries,
    e = Dir entries ->
    In p (walk_dir path e) ->
    exists file, located path entries p file /\ endswith_any file IMG_EXTENSIONS = true.
Proof.
  induction e as [| target | es IH] using entry_induction;
    intros path p entries He H; try discriminate.
  inversion He. subst es. clear He.
  apply walk_dir_in in H. destruct H as [[file [Hin [Hext Hp]]] | [name [sub [Hin H]]]].
  - exists file. subst p. split; [apply located_here; exact Hin | exact Hext].
  - rewrite Forall_forall in IH.
    destruct (IH (name, Dir sub) Hin (path_join path name) p sub eq_refl H)
      as [file [Hl Hext]].
    exists file. split; [| exact Hext].
    apply (located_below path entries sub name p file Hin Hl).
Qed.


(** [walk_imgs] walks what [os.walk] scans at the top. *)
Lemma walk_imgs_scanned (path : string) (e : entry) :
  walk_imgs path e
  = match scanned e with
    | Some entries => walk_dir path (Dir entries)
    | None => []
    end.
Proof. destruct e; reflexivity. Qed.

Lemma relative_names_scanned (e : entry) (entries : list (string * entry)) :
  scanned e = Some entries -> relative_names e = relative_dir (Dir entries).
Proof. destruct e; intro H; inversion H; reflexivity. Qed.

Lemma relative_dir_in (entries : list (string * entry)) (name : string) (sub : entry) :
  relative_dir (Dir entries) = true ->
  In (name, sub) entries ->
  String.prefix "/" name = false
  /\ (forall es, sub = Dir es -> relative_dir (Dir es) = true).
Proof.
  cbn [relative_dir]. induction entries as [| [n s] tl IH]; intros H Hin; [contradiction |].
  apply andb_prop in H. destruct H as [H Htl]. apply andb_prop in H. destruct H as [Hn Hs].
  destruct Hin as [Heq | Hin].
  - inversion Heq. subst n s. split; [apply negb_true_iff; exact Hn |].
    intros es He. subst sub. exact Hs.
  - apply (IH Htl Hin).
Qed.

Lemma located_path (path : string) (entries : list (string * entry)) (p file : string) :
  located path entries p file ->
  (forall suffix, endswith file suffix = true -> endswith p suffix = true)
  /\ (relative_dir (Dir entries) = true -> String.prefix path p = true).
Proof.
  induction 1 as [path entries name Hin | path entries sub name p file Hin _ [IH1 IH2]].
  - split.
    + intros suffix H. apply endswith_path_join. exact H.
    + intro Hr. apply prefix_path_join.
      apply (relative_dir_in entries name File Hr Hin).
  - split; [exact IH1 |].
    intro Hr. destruct (relative_dir_in entries name (Dir sub) Hr Hin) as [Hn Hs].
    apply (prefix_trans path (path_join path name) p).
    + apply prefix_path_join. exact Hn.
    + apply IH2. apply (Hs sub eq_refl).
Qed.


(** X22.  Every path [walk_imgs] returns ends itself with an image
    extension and, when no name in the tree starts with a slash, starts
    with the path walked. *)
Theorem walk_imgs_paths (path : string) (e : entry) (p : string) :
  In p (walk_imgs path e) ->
  endswith_any p IMG_EXTENSIONS = true
  /\ (relative_names e = true -> String.prefix path p = true).
Proof.
  rewrite walk_imgs_scanned.
  destruct (scanned e) as [entries |] eqn:Es; [| intros []].
  intro H. destruct (walk_dir_sound (Dir entries) path p entries eq_refl H)
    as [file [Hl Hext]].
  destruct (located_path path entries p file Hl) as [Hs Hp].
  split.
  - unfold endswith_any in *. apply existsb_exists in Hext.
    destruct Hext as [suffix [Hin Hsuf]].
    apply existsb_exists. exists suffix. split; [exact Hin | apply Hs; exact Hsuf].
  - rewrite (relative_names_scanned e entries Es). exact Hp.
Qed.


Lemma walk_imgs_paths_witness :
  walk_imgs "data" sample_tree = ["data/a.png"; "data/sub/b.jpg"]
  /\ endswith_any "data/sub/b.jpg" IMG_EXTENSIONS = true
  /\ String.prefix "data" "data/sub/b.jpg" = true.
Proof.
  split; [reflexivity |].
  destruct (walk_imgs_paths "data" sample_tree "data/sub/b.jpg") as [Hext Hpre].
  - right. left. reflexivity.
  - split; [exact Hext | apply Hpre; reflexivity].
Defined.

(** ** attack/PLGMI_high/gan_trainer.py: the margin of the max-margin loss *)

Section MaxMarginFacts.

Variable Score : Type.
Variable leb : Score -> Score -> bool.
Variable argsort : list Score -> list Z.
Variable negate : Score -> Score.
Variable mean : list Score -> Score.
Variable add : Score -> Score -> Score.

Lemma rmap_ok_map {X Y : Type} (f : X -> result Y) (g : X -> Y) (xs : list X) :
  (forall x, In x xs -> f x = Ok (g x)) ->
  rmap f xs = Ok (List.map g xs).
Proof.
  induction xs as [| x tl IH]; intro H; [reflexivity |].
  simpl. rewrite (H x (or_introl eq_refl)). simpl.
  rewrite IH; [reflexivity |]. intros y Hy. apply H. right. exact Hy.
Qed.

(** The last two entries of a list of two or more. *)
Lemma last_two_split {X : Type} (l : list X) :
  (2 <= length l)%nat ->
  exists front a b, l = front ++ [a; b] /\ last_two l = [a; b]
                    /\ length front = (length l - 2)%nat.
Proof.
  intro H. unfold last_two.
  exists (firstn (length l - 2) l).
  assert (Hs : length (skipn (length l - 2) l) = 2%nat)
    by (rewrite length_skipn; lia).
  destruct (skipn (length l - 2) l) as [| a [| b [| c tl]]] eqn:E; try discriminate.
  exists a, b. split; [| split; [reflexivity |]].
  - rewrite <- E. symmetry. apply firstn_skipn.
  - rewrite length_firstn. lia.
Qed.

(** One row: the class picked is in range, is not the label, and no
    other class but the label has a higher score. *)
Lemma competing_label_best (row : list Score) (perm : list Z) (label : Z) :
  sorts leb row perm ->
  (2 <= length row)%nat ->
  let y := competing_label perm label in
  0 <= y < Z.of_nat (length row)
  /\ y <> label
  /\ (forall j x xy,
         nth_error row j = Some x ->
         Z.of_nat j <> label -> Z.of_nat j <> y ->
         nth_error row (Z.to_nat y) = Some xy ->
         leb x xy = true).
Proof.
  intros [Hlen [Hnd [Hin Hsorted]]] H2 y.
  destruct (last_two_split perm ltac:(lia)) as [front [a [b [Hperm [Htwo Hfront]]]]].
  assert (Hy : y = if b =? label then a else b).
  { unfold y, competing_label. rewrite Htwo. reflexivity. }
  assert (Ha : nth_error perm (length front) = Some a).
  { rewrite Hperm. rewrite nth_error_app2 by lia. rewrite Nat.sub_diag. reflexivity. }
  assert (Hb : nth_error perm (Datatypes.S (length front)) = Some b).
  { rewrite Hperm. rewrite nth_error_app2 by lia.
    replace (Datatypes.S (length front) - length front)%nat with 1%nat by lia.
    reflexivity. }
  assert (Hab : a <> b).
  { intro E. subst b. rewrite Hperm in Hnd. apply NoDup_remove_2 in Hnd.
    apply Hnd. apply in_or_app. right. left. reflexivity. }
  assert (Hina : In a perm) by (apply (nth_error_In _ _ Ha)).
  assert (Hinb : In b perm) by (apply (nth_error_In _ _ Hb)).
  split; [| split].
  - rewrite Hy. destruct (b =? label); apply Hin; assumption.
  - rewrite Hy. destruct (b =? label) eqn:E.
    + apply Z.eqb_eq in E. subst label. exact Hab.
    + apply Z.eqb_neq in E. exact E.
  - intros j x xy Hx Hjl Hjy Hxy.
    assert (Hj : In (Z.of_nat j) perm).
    { apply Hin. split; [lia |]. apply Nat2Z.inj_lt. apply nth_error_Some.
      rewrite Hx. discriminate. }
    apply In_nth_error in Hj. destruct Hj as [p Hp].
    assert (Hpl : (p < length perm)%nat) by (apply nth_error_Some; rewrite Hp; discriminate).
    assert (Hxj : nth_error row (Z.to_nat (Z.of_nat j)) = Some x)
      by (rewrite Nat2Z.id; exact Hx).
    rewrite Hy in Hjy, Hxy.
    destruct (b =? label) eqn:E.
    + apply Z.eqb_eq in E. subst label.
      assert (Hp1 : p <> Datatypes.S (length front))
        by (intro N; subst p; rewrite Hb in Hp; inversion Hp; lia).
      assert (Hp0 : p <> length front)
        by (intro N; subst p; rewrite Ha in Hp; inversion Hp; lia).
      apply (Hsorted p (length front) (Z.of_nat j) a x xy); try assumption. lia.
    + assert (Hp1 : p <> Datatypes.S (length front))
        by (intro N; subst p; rewrite Hb in Hp; inversion Hp; lia).
      apply (Hsorted p (Datatypes.S (length front)) (Z.of_nat j) b x xy); try assumption.
      lia.
Qed.

(** [gather] on as many indices as rows, each within its row. *)
Lemma gather_rows (t : tensor2 Score) (index : list Z) :
  length index = length (trows t) ->
  (forall k row i, nth_error (trows t) k = Some row -> nth_error index k = Some i ->
                   0 <= i < Z.of_nat (length row)) ->
  exists vals,
    gather t index = Ok vals
    /\ length vals = length index
    /\ (forall k row i, nth_error (trows t) k = Some row -> nth_error index k = Some i ->
                        nth_error vals k = nth_error row (Z.to_nat i)).
Proof.
  intros Hlen Hin. unfold gather.
  replace (length (trows t) <? length index)%nat with false
    by (symmetry; apply Nat.ltb_ge; lia).
  revert index Hlen Hin. generalize (trows t) as rows.
  induction rows as [| row rows IH]; intros [| i index] Hlen Hin; try discriminate.
  - exists []. repeat split. intros k row i H. destruct k; discriminate.
  - destruct (IH index ltac:(simpl in Hlen; lia)) as [vals [Hv [Hl Hk]]].
    { intros k r j Hr Hj. apply (Hin (Datatypes.S k) r j Hr Hj). }
    pose proof (Hin 0%nat row i eq_refl eq_refl) as Hi.
    destruct (nth_error row (Z.to_nat i)) as [x |] eqn:Ex.
    + exists (x :: vals). cbn [combine rmap fst snd].
      replace (i <? 0) with false by (symmetry; apply Z.ltb_ge; lia).
      rewrite Ex. cbn [rbind]. rewrite Hv. cbn [rbind].
      split; [reflexivity |]. split; [simpl; rewrite Hl; reflexivity |].
      intros [| k] r j Hr Hj; simpl in Hr, Hj.
      * inversion Hr. inversion Hj. subst. simpl. symmetry. exact Ex.
      * simpl. apply (Hk k r j Hr Hj).
    + exfalso. apply nth_error_None in Ex. lia.
Qed.

(** The indices the second [gather] is given. *)
Lemma new_y_rows (rows : list (list Score)) (iden : list Z) :
  let top := List.map (fun two : list Z => nth 1 two 0)
                      (List.map (fun row => last_two (argsort row)) rows) in
  let second := List.map (fun two : list Z => nth 0 two 0)
                         (List.map (fun row => last_two (argsort row)) rows) in
  List.map (fun p : bool * (Z * Z) => if fst p then fst (snd p) else snd (snd p))
           (combine (List.map (fun p : Z * Z => fst p =? snd p) (combine top iden))
                    (combine second top))
  = List.map (fun p : list Score * Z => competing_label (argsort (fst p)) (snd p))
             (combine rows iden).
Proof.
  cbv zeta. revert iden. induction rows as [| row rows IH]; intros [| label iden];
    try reflexivity.
  cbn [List.map combine fst snd]. f_equal. apply IH.
Qed.

Lemma column_rows (k : nat) (rows : list (list Score)) (c : Z) :
  (1 <= k <= 2)%nat ->
  2 <= c ->
  (forall row, In row rows -> (2 <= length (argsort row))%nat) ->
  column (mkTensor2 (Z.min 2 c) (List.map (fun row => last_two (argsort row)) rows)) k
  = Ok (List.map (fun two : list Z => nth (2 - k) two 0)
                 (List.map (fun row => last_two (argsort row)) rows)).
Proof.
  intros Hk Hc Hrows. unfold column. cbn [ncols trows].
  replace (Z.min 2 c <? Z.of_nat k) with false by (symmetry; apply Z.ltb_ge; lia).
  apply rmap_ok_map. intros two Htwo. apply in_map_iff in Htwo.
  destruct Htwo as [row [Htwo Hin]].
  destruct (last_two_split (argsort row) (Hrows row Hin)) as [front [a [b [_ [E _]]]]].
  rewrite <- Htwo, E.
  destruct Hk as [Hk1 Hk2].
  destruct k as [| [| [| k]]]; try lia; reflexivity.
Qed.

(** X23.  [_max_margin_loss] on logits of two classes or more
    with one label per row, each in range: it returns
    [mean(-1 * real) + mean(margin)] where, row by row, [real] is the logit
    of the label and [margin] the logit of a class that is not the label
    and that no class other than the label exceeds, whichever way
    [torch.argsort] orders equal logits. *)
Theorem max_margin_best_wrong_class (out : tensor2 Score) (iden : list Z) :
  well_shaped out ->
  2 <= ncols out ->
  length iden = length (trows out) ->
  Forall (fun label => 0 <= label < ncols out) iden ->
  Forall (fun row => sorts leb row (argsort row)) (trows out) ->
  exists real new_y margin,
    _max_margin_loss argsort negate mean add out iden
    = Ok (add (mean (List.map negate real)) (mean margin))
    /\ gather out iden = Ok real
    /\ gather out new_y = Ok margin
    /\ length new_y = length iden
    /\ (forall k row label y,
           nth_error (trows out) k = Some row ->
           nth_error iden k = Some label ->
           nth_error new_y k = Some y ->
           nth_error real k = nth_error row (Z.to_nat label)
           /\ nth_error margin k = nth_error row (Z.to_nat y)
           /\ 0 <= y < ncols out
           /\ y <> label
           /\ (forall j x xy,
                  nth_error row j = Some x ->
                  Z.of_nat j <> label -> Z.of_nat j <> y ->
                  nth_error row (Z.to_nat y) = Some xy ->
                  leb x xy = true)).
Proof.
  intros Hshape Hc Hlen Hiden Hsorts.
  unfold well_shaped in Hshape. rewrite Forall_forall in Hshape, Hsorts.
  rewrite Forall_forall in Hiden.
  set (new_y := List.map (fun p : list Score * Z =>
                            competing_label (argsort (fst p)) (snd p))
                         (combine (trows out) iden)).
  assert (Hrowlen : forall k row, nth_error (trows out) k = Some row ->
                                  Z.of_nat (length row) = ncols out).
  { intros k row H. apply Hshape. apply (nth_error_In _ _ H). }
  assert (Hny : length new_y = length iden).
  { unfold new_y. rewrite length_map, length_combine. lia. }
  assert (Hbest : forall k row label y,
             nth_error (trows out) k = Some row ->
             nth_error iden k = Some label ->
             nth_error new_y k = Some y ->
             y = competing_label (argsort row) label).
  { intros k row label y Hr Hl Hy. unfold new_y in Hy.
    rewrite nth_error_map in Hy.
    assert (Hc' : nth_error (combine (trows out) iden) k = Some (row, label)).
    { clear - Hr Hl. revert k Hr Hl. generalize (trows out) as rows. revert iden.
      induction iden as [| i iden IH]; intros rows k Hr Hl; [destruct k; discriminate |].
      destruct rows as [| r rows]; [destruct k; discriminate |].
      destruct k as [| k]; simpl in *.
      - inversion Hr. inversion Hl. reflexivity.
      - apply IH; assumption. }
    rewrite Hc' in Hy. simpl in Hy. inversion Hy. reflexivity. }
  assert (Hrow2 : forall row, In row (trows out) -> (2 <= length row)%nat).
  { intros row Hin. pose proof (Hshape row Hin). lia. }
  assert (Hfacts : forall k row label y,
             nth_error (trows out) k = Some row ->
             nth_error iden k = Some label ->
             nth_error new_y k = Some y ->
             0 <= y < ncols out
             /\ y <> label
             /\ (forall j x xy,
                    nth_error row j = Some x ->
                    Z.of_nat j <> label -> Z.of_nat j <> y ->
                    nth_error row (Z.to_nat y) = Some xy ->
                    leb x xy = true)).
  { intros k row label y Hr Hl Hy.
    rewrite (Hbest k row label y Hr Hl Hy).
    pose proof (nth_error_In _ _ Hr) as Hin.
    destruct (competing_label_best row (argsort row) label (Hsorts row Hin) (Hrow2 row Hin))
      as [H1 [H2 H3]].
    rewrite <- (Hrowlen k row Hr). repeat split; try assumption; lia. }
  destruct (gather_rows out iden Hlen) as [real [Hreal [_ Hrk]]].
  { intros k row i Hr Hi. rewrite (Hrowlen k row Hr). apply Hiden.
    apply (nth_error_In _ _ Hi). }
  destruct (gather_rows out new_y ltac:(lia)) as [margin [Hmargin [_ Hmk]]].
  { intros k row y Hr Hy.
    destruct (nth_error iden k) as [label |] eqn:El.
    - destruct (Hfacts k row label y Hr El Hy) as [H _].
      rewrite (Hrowlen k row Hr). exact H.
    - exfalso. apply nth_error_None in El.
      assert (k < length (trows out))%nat by (apply nth_error_Some; rewrite Hr; discriminate).
      lia. }
  exists real, new_y, margin.
  split; [| split; [exact Hreal | split; [exact Hmargin | split; [exact Hny |]]]].
  - unfold _max_margin_loss. rewrite Hreal. cbn [rbind].
    assert (Hperm : forall row, In row (trows out) -> (2 <= length (argsort row))%nat).
    { intros row Hin. destruct (Hsorts row Hin) as [Hl _]. rewrite Hl. apply Hrow2. exact Hin. }
    rewrite (column_rows 1 (trows out) (ncols out) ltac:(lia) Hc Hperm). cbn [rbind].
    unfold eq_broadcast. rewrite !length_map, Hlen, Nat.eqb_refl. cbn [rbind].
    rewrite (column_rows 2 (trows out) (ncols out) ltac:(lia) Hc Hperm). cbn [rbind].
    unfold where_cond.
    rewrite !length_map, !length_combine, !length_map, Hlen, !Nat.min_id, Nat.eqb_refl.
    cbn [rbind]. change (2 - 1)%nat with 1%nat. change (2 - 2)%nat with 0%nat.
    rewrite (new_y_rows (trows out) iden). fold new_y.
    rewrite Hmargin. reflexivity.
  - intros k row label y Hr Hl Hy.
    split; [apply (Hrk k row label Hr Hl) |].
    split; [apply (Hmk k row y Hr Hy) |].
    apply (Hfacts k row label y Hr Hl Hy).
Qed.

End MaxMarginFacts.

Lemma max_margin_best_wrong_class_witness :
  exists real new_y margin,
    _max_margin_loss (fun _ : list Z => [0; 2; 1]) Z.opp (fun l => fold_right Z.add 0 l)
                     Z.add (mkTensor2 3 [[1; 5; 3]]) [1]
    = Ok (Z.add (fold_right Z.add 0 (List.map Z.opp real)) (fold_right Z.add 0 margin))
    /\ gather (mkTensor2 3 [[1; 5; 3]]) [1] = Ok real
    /\ gather (mkTensor2 3 [[1; 5; 3]]) new_y = Ok margin
    /\ length new_y = 1%nat.
Proof.
  destruct (max_margin_best_wrong_class Z Z.leb (fun _ : list Z => [0; 2; 1]) Z.opp
              (fun l => fold_right Z.add 0 l) Z.add (mkTensor2 3 [[1; 5; 3]]) [1])
    as [real [new_y [margin [Hrun [Hreal [Hmargin [Hlen _]]]]]]].
  - repeat constructor.
  - simpl. lia.
  - reflexivity.
  - repeat constructor; simpl; lia.
  - constructor; [| constructor].
    split; [reflexivity |]. split.
    + repeat constructor; simpl; intuition lia.
    + split.
      * intro j. simpl. lia.
      * intros p q jp jq xp xq Hpq Hp Hq Hxp Hxq.
        destruct p as [| [| [| p]]]; destruct q as [| [| [| q]]];
          simpl in Hp, Hq; try lia;
          try (destruct p; discriminate); try (destruct q; discriminate);
          inversion Hp; inversion Hq; subst jp jq; simpl in Hxp, Hxq;
          inversion Hxp; inversion Hxq; reflexivity.
  - exists real, new_y, margin. repeat split; assumption.
Defined.
